(** * jDrupal entity layer (src/entity.js): a shallow embedding

    The JavaScript of [src/entity.js] is embedded as functions of a small
    state-and-exception monad over a [world] record: the persisted
    [localStorage], the in-memory [Drupal.services_queue], the object heap,
    the configuration read by the code, a clock, the console and a trace of
    the calls made to external functions (callbacks and remote handlers).

    Conventions of the embedding:
    - numbers are mathematical integers ([VNum]) plus [VNaN]; fractional
      numbers are outside the model;
    - a stored string is represented by what [JSON.parse] makes of it
      ([TJson j]: a JSON text denoting the tree [j]; [TRaw s]: a string [s]
      that is not JSON);
    - external functions (callbacks, remote handlers) are opaque: calling one
      records an [EvCall] event with its arguments and the heap it can see;
      it neither re-enters this code nor throws. *)

From Stdlib Require Import ZArith.
From stdpp Require Import gmap strings list fin_maps pretty.

Local Open Scope string_scope.
Set Warnings "-register-all".

(** ** JavaScript values and the object heap *)

Abbreviation loc := nat (only parsing).

Inductive value : Type :=
| VUndef
| VNull
| VBool (b : bool)
| VNum (n : Z)
| VNaN
| VStr (s : string)
| VRef (l : loc)          (* an object or array living in the heap *)
| VFun (f : string).      (* an external function, known by its name *)

Global Instance value_eq_dec : EqDecision value.
Proof. solve_decision. Defined.

(** An object has named fields in insertion order; an array has, in
    addition, its list of elements. *)
Record object := Obj {
  o_items : option (list value);
  o_fields : list (string * value)
}.

Global Instance object_eq_dec : EqDecision object.
Proof. solve_decision. Defined.

Abbreviation heap := (gmap loc object) (only parsing).

Fixpoint obj_get (k : string) (fs : list (string * value)) : value :=
  match fs with
  | [] => VUndef
  | (k', v) :: fs' => if String.eqb k k' then v else obj_get k fs'
  end.

Fixpoint obj_set (k : string) (v : value) (fs : list (string * value))
  : list (string * value) :=
  match fs with
  | [] => [(k, v)]
  | (k', v') :: fs' =>
      if String.eqb k k' then (k', v) :: fs' else (k', v') :: obj_set k v fs'
  end.

Definition alloc (o : object) (h : heap) : value * heap :=
  let l := fresh (dom h) in (VRef l, <[l := o]> h).

(** ** JSON trees and stored strings *)

Inductive json : Type :=
| JNull
| JBool (b : bool)
| JNum (n : Z)
| JStr (s : string)
| JArr (js : list json)
| JObj (kvs : list (string * json)).

Inductive text : Type :=
| TJson (j : json)        (* a JSON text, denoting [j] *)
| TRaw (s : string).      (* a string JSON.parse rejects (or the empty string) *)

(** Truthiness of a string read from storage: only the empty string is
    falsy, and a JSON text is never empty. *)
Definition text_truthy (t : text) : bool :=
  match t with
  | TJson _ => true
  | TRaw s => negb (String.eqb s "")
  end.

(** JSON.parse on a JSON tree: fresh objects are allocated for arrays and
    objects; a repeated key keeps its last value. [parse_items] and
    [parse_fields] walk the elements of an array and the members of an
    object with the parser [p] for the nested trees. The members of the
    object stand in the order of the text; JavaScript enumerates the members
    whose names are integer indices before the others, so a statement about
    the order of the members is made for names that are not (see
    [canonical]). *)
Definition parse_items (p : json → heap → value * heap)
  : list json → heap → list value * heap :=
  fix go (js : list json) (h : heap) : list value * heap :=
    match js with
    | [] => ([], h)
    | j :: js' =>
        let '(v, h1) := p j h in
        let '(vs, h2) := go js' h1 in
        (v :: vs, h2)
    end.

Definition parse_fields (p : json → heap → value * heap)
  : list (string * json) → list (string * value) → heap →
    list (string * value) * heap :=
  fix go (kvs : list (string * json)) (acc : list (string * value))
      (h : heap) : list (string * value) * heap :=
    match kvs with
    | [] => (acc, h)
    | (k, j) :: kvs' =>
        let '(v, h1) := p j h in
        go kvs' (obj_set k v acc) h1
    end.

Fixpoint JSON_parse_tree (j : json) (h : heap) : value * heap :=
  match j with
  | JNull => (VNull, h)
  | JBool b => (VBool b, h)
  | JNum n => (VNum n, h)
  | JStr s => (VStr s, h)
  | JArr js =>
      let '(vs, h1) := parse_items JSON_parse_tree js h in
      alloc (Obj (Some vs) []) h1
  | JObj kvs =>
      let '(fs, h1) := parse_fields JSON_parse_tree kvs [] h in
      alloc (Obj None fs) h1
  end.

(** The member [k] of a JSON object as JSON.parse keeps it: the last one. *)
Fixpoint json_get (k : string) (kvs : list (string * json)) : option json :=
  match kvs with
  | [] => None
  | (k', j) :: kvs' =>
      match json_get k kvs' with
      | Some j' => Some j'
      | None => if String.eqb k k' then Some j else None
      end
  end.

(** The value of a JSON tree that is not an array or an object. *)
Definition json_prim (j : json) : option value :=
  match j with
  | JNull => Some VNull
  | JBool b => Some (VBool b)
  | JNum n => Some (VNum n)
  | JStr s => Some (VStr s)
  | JArr _ | JObj _ => None
  end.

(** JSON.stringify on a value. [None]: a TypeError (the structure is
    cyclic); [Some None]: the result is [undefined]; [Some (Some j)]: the
    JSON text of [j]. One unit of fuel is spent per nested object, so with
    fuel [size h] it runs out exactly when some path repeats an object. *)
Fixpoint JSON_stringify_fuel (fuel : nat) (h : heap) (v : value)
  : option (option json) :=
  match v with
  | VUndef | VFun _ => Some None
  | VNull | VNaN => Some (Some JNull)
  | VBool b => Some (Some (JBool b))
  | VNum n => Some (Some (JNum n))
  | VStr s => Some (Some (JStr s))
  | VRef l =>
      match fuel with
      | O => None
      | S fuel' =>
          match h !! l with
          | None => Some None
          | Some o =>
              match o_items o with
              | Some items =>
                  js ← mapM (λ v, j ← JSON_stringify_fuel fuel' h v;
                                   Some (default JNull j)) items;
                  Some (Some (JArr js))
              | None =>
                  kvs ← mapM (λ kv : string * value,
                                j ← JSON_stringify_fuel fuel' h kv.2;
                                Some (option_map (pair kv.1) j)) (o_fields o);
                  Some (Some (JObj (omap id kvs)))
              end
          end
      end
  end.

(** ** Built-ins of the JavaScript runtime left abstract *)

Class JSBuiltins := {
  (* parseInt(s): [None] is NaN *)
  parseInt : string → option Z;
  (* the numeric value of a string in a comparison: [None] is NaN *)
  StringToNumber : string → option Z;
  (* the string an object or array converts to *)
  RefToString : gmap nat object → nat → string
}.

(** An instance for running examples: no string is numeric, every object
    prints the same. *)
Definition plain_builtins : JSBuiltins := {|
  parseInt := λ _, None;
  StringToNumber := λ _, None;
  RefToString := λ _ _, "[object Object]"
|}.

(** ** The world the code runs in *)

(** The [options] argument of the public operations. *)
Record options := Options {
  success : value;
  error : value;
  reset : value
}.

(** The object built by [entity_load] for the remote retrieve handler: its
    [success] and [error] members are closures over the variables kept
    here; [co_primary_key] and [co_entity_id] are the member
    [call_options[primary_key] = entity_id]. *)
Record call_options := CallOptions {
  co_entity_type : string;
  co_entity_id : value;
  co_caching_enabled : value;
  co_options : option options;
  co_primary_key : value
}.

Inductive arg : Type :=
| AVal (v : value)
| AOpts (o : option options)
| ACallOpts (co : call_options).

(** A call to an external function, with the heap at the time of the call. *)
Inductive event : Type :=
| EvCall (f : string) (args : list arg) (h : gmap nat object).

(** An entry of Drupal.services_queue[type][method][id]. *)
Record queue_entry := QueueEntry {
  q_success : list value;
  q_error : list value
}.

(** Drupal.settings.cache.entity: [ce_expiration = None] is an unset TTL. *)
Record cache_entity_settings := CacheEntity {
  ce_enabled : bool;
  ce_expiration : option Z
}.

(** drupalgap.page.options *)
Record page_options := PageOptions {
  reloadingPage : value;
  po_reset : value
}.

Inductive drupalgap_global : Type :=
| DgUndeclared                              (* no such global variable *)
| DgPageOptions (po : option page_options). (* loaded; page.options unset or set *)

Record world := World {
  localStorage : gmap string text;
  storage_full : bool;         (* setItem raises QuotaExceededError *)
  services_queue : gmap (string * string * string) queue_entry;
  heap_of : gmap nat object;
  settings_cache_entity : option cache_entity_settings;
  settings_language_default : value;
  drupalgap : drupalgap_global;
  window : gmap string value;  (* global functions, by name *)
  returns : gmap string value; (* what an external function returns *)
  now : Z;                     (* time(), in seconds *)
  console : list string;
  trace : list event
}.

Definition set_localStorage (f : gmap string text → gmap string text)
  (w : world) : world :=
  World (f (localStorage w)) (storage_full w) (services_queue w) (heap_of w)
    (settings_cache_entity w) (settings_language_default w) (drupalgap w)
    (window w) (returns w) (now w) (console w) (trace w).

Definition set_services_queue
  (f : gmap (string * string * string) queue_entry →
       gmap (string * string * string) queue_entry) (w : world) : world :=
  World (localStorage w) (storage_full w) (f (services_queue w)) (heap_of w)
    (settings_cache_entity w) (settings_language_default w) (drupalgap w)
    (window w) (returns w) (now w) (console w) (trace w).

Definition set_heap (f : gmap nat object → gmap nat object) (w : world)
  : world :=
  World (localStorage w) (storage_full w) (services_queue w) (f (heap_of w))
    (settings_cache_entity w) (settings_language_default w) (drupalgap w)
    (window w) (returns w) (now w) (console w) (trace w).

Definition set_now (t : Z) (w : world) : world :=
  World (localStorage w) (storage_full w) (services_queue w) (heap_of w)
    (settings_cache_entity w) (settings_language_default w) (drupalgap w)
    (window w) (returns w) t (console w) (trace w).

Definition set_console (f : list string → list string) (w : world) : world :=
  World (localStorage w) (storage_full w) (services_queue w) (heap_of w)
    (settings_cache_entity w) (settings_language_default w) (drupalgap w)
    (window w) (returns w) (now w) (f (console w)) (trace w).

Definition set_trace (f : list event → list event) (w : world) : world :=
  World (localStorage w) (storage_full w) (services_queue w) (heap_of w)
    (settings_cache_entity w) (settings_language_default w) (drupalgap w)
    (window w) (returns w) (now w) (console w) (f (trace w)).

(** ** The monad: state passing with exceptions *)

Inductive outcome (A : Type) : Type :=
| Ok (a : A)
| Throw (e : string).
Arguments Ok {A} a.
Arguments Throw {A} e.

Definition M (A : Type) : Type := world → outcome A * world.

Definition ret {A} (a : A) : M A := λ w, (Ok a, w).

Definition bind {A B} (m : M A) (k : A → M B) : M B :=
  λ w, match m w with
       | (Ok a, w') => k a w'
       | (Throw e, w') => (Throw e, w')
       end.

Definition throw {A} (e : string) : M A := λ w, (Throw e, w).

(** try { body } catch (error) { handler(error) } *)
Definition try_catch {A} (body : M A) (handler : string → M A) : M A :=
  λ w, match body w with
       | (Ok a, w') => (Ok a, w')
       | (Throw e, w') => handler e w'
       end.

Definition gets {A} (f : world → A) : M A := λ w, (Ok (f w), w).
Definition modify (f : world → world) : M unit := λ w, (Ok tt, f w).

Declare Scope js_scope.
Delimit Scope js_scope with js.
Notation "x <- m ;; k" := (bind m (λ x, k))
  (at level 100, m at next level, right associativity) : js_scope.
Notation "m ;; k" := (bind m (λ _, k))
  (at level 100, right associativity) : js_scope.
Local Open Scope js_scope.

Definition when (b : bool) (m : M unit) : M unit :=
  if b then m else ret tt.

Fixpoint for_each {A} (body : A → M unit) (l : list A) : M unit :=
  match l with
  | [] => ret tt
  | x :: l' => body x ;; for_each body l'
  end.

(** The state reached and the value produced by running a computation. *)
Definition exec {A} (m : M A) (w : world) : world := (m w).2.
Definition eval {A} (m : M A) (w : world) : outcome A := (m w).1.

Section Entity.
Context `{JSBuiltins}.

(** ** JavaScript operators used by the code *)

Definition truthy (v : value) : bool :=
  match v with
  | VUndef | VNull | VNaN => false
  | VBool b => b
  | VNum n => negb (n =? 0)%Z
  | VStr s => negb (String.eqb s "")
  | VRef _ | VFun _ => true
  end.

Definition ToString (h : heap) (v : value) : string :=
  match v with
  | VUndef => "undefined"
  | VNull => "null"
  | VBool true => "true"
  | VBool false => "false"
  | VNum n => pretty n
  | VNaN => "NaN"
  | VStr s => s
  | VRef l => RefToString h l
  | VFun f => "function " +:+ f
  end.

Definition ToNumber (h : heap) (v : value) : option Z :=
  match v with
  | VUndef | VNaN | VFun _ => None
  | VNull => Some 0%Z
  | VBool b => Some (if b then 1 else 0)%Z
  | VNum n => Some n
  | VStr s => StringToNumber s
  | VRef l => StringToNumber (RefToString h l)
  end.

(** [v != 0] *)
Definition js_neq_zero (h : heap) (v : value) : bool :=
  match v with
  | VUndef | VNull => true
  | _ => negb (bool_decide (ToNumber h v = Some 0%Z))
  end.

(** [n > v] for a number [n] *)
Definition js_gt (n : Z) (h : heap) (v : value) : bool :=
  match ToNumber h v with
  | Some m => (m <? n)%Z
  | None => false
  end.

(** The number of rounds of [for (i = 0; i < len; i++)]. *)
Definition loop_bound (h : heap) (len : value) : nat :=
  match ToNumber h len with
  | Some n => Z.to_nat n
  | None => O
  end.

Definition console_log (msg : string) : M unit :=
  modify (set_console (λ c, (c ++ [msg])%list)).

(** [v.k] and [v[k]] for a name [k] *)
Definition get_prop (v : value) (k : string) : M value :=
  match v with
  | VUndef | VNull =>
      throw ("TypeError: Cannot read property '" +:+ k +:+ "' of " +:+
             (if v is VNull then "null" else "undefined"))
  | VRef l =>
      h <- gets heap_of ;;
      match h !! l with
      | Some o =>
          match o_items o with
          | Some items =>
              if String.eqb k "length" then ret (VNum (Z.of_nat (length items)))
              else ret (obj_get k (o_fields o))
          | None => ret (obj_get k (o_fields o))
          end
      | None => ret VUndef
      end
  | VStr s =>
      if String.eqb k "length" then ret (VNum (Z.of_nat (String.length s)))
      else ret VUndef
  | _ => ret VUndef
  end.

(** [v[i]] for an index [i] *)
Definition get_index (v : value) (i : nat) : M value :=
  match v with
  | VUndef | VNull =>
      throw ("TypeError: Cannot read property '" +:+ pretty i +:+ "' of " +:+
             (if v is VNull then "null" else "undefined"))
  | VRef l =>
      h <- gets heap_of ;;
      match h !! l with
      | Some o =>
          match o_items o with
          | Some items => ret (default VUndef (items !! i))
          | None => ret (obj_get (pretty i) (o_fields o))
          end
      | None => ret VUndef
      end
  | VStr s =>
      ret (match String.get i s with
           | Some c => VStr (String c EmptyString)
           | None => VUndef
           end)
  | _ => ret VUndef
  end.

(** [v.k = x]; on a primitive the assignment is silently dropped. *)
Definition set_prop (v : value) (k : string) (x : value) : M unit :=
  match v with
  | VUndef | VNull =>
      throw ("TypeError: Cannot set property '" +:+ k +:+ "' of " +:+
             (if v is VNull then "null" else "undefined"))
  | VRef l =>
      modify (set_heap (λ h,
        match h !! l with
        | Some o => <[l := Obj (o_items o) (obj_set k x (o_fields o))]> h
        | None => h
        end))
  | _ => ret tt
  end.

(** A fresh object or array literal. *)
Definition new_object (o : object) : M value :=
  λ w, let '(v, h') := alloc o (heap_of w) in (Ok v, set_heap (λ _, h') w).

(** [a.push(x)] on an array *)
Definition array_push (a : value) (x : value) : M unit :=
  match a with
  | VRef l =>
      h <- gets heap_of ;;
      match h !! l with
      | Some (Obj (Some items) fs) =>
          modify (set_heap (<[l := Obj (Some (items ++ [x])%list) fs]>))
      | _ => throw "TypeError: push is not a function"
      end
  | _ => throw "TypeError: push is not a function"
  end.

(** [f(args)]: an external function is opaque, the call is recorded. *)
Definition call (f : value) (args : list arg) : M value :=
  match f with
  | VFun name =>
      modify (λ w, set_trace (λ t, (t ++ [EvCall name args (heap_of w)])%list) w) ;;
      gets (λ w, default VUndef (returns w !! name))
  | _ => throw "TypeError: not a function"
  end.

(** [options.success], [options.error], [options.reset] *)
Definition opt_field (f : options → value) (name : string)
  (o : option options) : M value :=
  match o with
  | Some o => ret (f o)
  | None =>
      throw ("TypeError: Cannot read property '" +:+ name +:+ "' of undefined")
  end.

(** ** window.localStorage and JSON *)

Definition getItem (key : string) : M (option text) :=
  gets (λ w, localStorage w !! key).

Definition setItem (key : string) (t : text) : M unit :=
  λ w, if storage_full w then (Throw "QuotaExceededError", w)
       else (Ok tt, set_localStorage (<[key := t]>) w).

Definition removeItem (key : string) : M unit :=
  modify (set_localStorage (delete key)).

Definition JSON_parse (t : text) : M value :=
  match t with
  | TJson j =>
      λ w, let '(v, h') := JSON_parse_tree j (heap_of w) in
           (Ok v, set_heap (λ _, h') w)
  | TRaw s => throw "SyntaxError: Unexpected token in JSON"
  end.

Definition JSON_stringify (v : value) : M (option json) :=
  λ w, match JSON_stringify_fuel (size (heap_of w)) (heap_of w) v with
       | Some r => (Ok r, w)
       | None => (Throw "TypeError: Converting circular structure to JSON", w)
       end.

(** The string handed to setItem: [undefined] is stored as its name. *)
Definition stringified (r : option json) : text :=
  match r with
  | Some j => TJson j
  | None => TRaw "undefined"
  end.

(** ** Helpers of the repository that are not in src/entity.js *)

(** Modelled from the spec: [is_int] (common code, not under src/) accepts
    "a single integer-like value": an integer number, or a string that
    parseInt turns into one (step 2 of load coerces the id to an integer). *)
Definition is_int (n : value) : bool :=
  match n with
  | VNum _ => true
  | VStr s => bool_decide (is_Some (parseInt s))
  | _ => false
  end.

(** Modelled from the spec: [time] (not under src/) is the current time in
    epoch seconds. *)
Definition time : M Z := gets now.

(** Modelled from the spec: [function_exists] (not under src/) tells whether
    a global function of that name is defined. *)
Definition function_exists (name : string) : M bool :=
  gets (λ w, if default VUndef (window w !! name) is VFun _ then true else false).

(** Modelled from the spec: [drupalgap_function_exists] (not under src/) is
    the same test, provided by the drupalgap library. *)
Definition drupalgap_function_exists (name : string) : M bool :=
  dg <- gets drupalgap ;;
  match dg with
  | DgUndeclared =>
      throw "ReferenceError: drupalgap_function_exists is not defined"
  | DgPageOptions _ => function_exists name
  end.

(** [window[name]] *)
Definition window_get (name : string) : M value :=
  gets (λ w, default VUndef (window w !! name)).

(** Modelled from the spec: [in_array] (not under src/) is membership. *)
Definition in_array (x : string) (l : list string) : bool :=
  bool_decide (x ∈ l).

(** Modelled from the spec: [language_default] (not under src/) yields the
    configured default language. *)
Definition language_default : M value := gets settings_language_default.

(** The key of a queue entry: Drupal.services_queue[type][method][id], the
    id being turned into a property name. *)
Definition queue_key (entity_type method : string) (entity_id : value)
  : M (string * string * string) :=
  h <- gets heap_of ;; ret (entity_type, method, ToString h entity_id).

(** Modelled from the spec: [_services_queue_already_queued] (not under
    src/) is "isQueued(type, operation, id) -> bool": whether the registry
    holds an entry for the key. The spec gives the fourth argument the source
    passes no role. *)
Definition _services_queue_already_queued (entity_type method : string)
  (entity_id : value) (callback_type : string) : M bool :=
  k <- queue_key entity_type method entity_id ;;
  gets (λ w, bool_decide (is_Some (services_queue w !! k))).

(** Modelled from the spec: [_services_queue_add_to_queue] (not under src/)
    is "enqueue: creates the queue entry if absent; no-op if already
    present". *)
Definition _services_queue_add_to_queue (entity_type method : string)
  (entity_id : value) : M unit :=
  k <- queue_key entity_type method entity_id ;;
  modify (set_services_queue (λ q,
    match q !! k with
    | Some _ => q
    | None => <[k := QueueEntry [] []]> q
    end)).

(** Modelled from the spec: [_services_queue_callback_add] (not under src/)
    is "addCallback(type, operation, id, kind, callback) where kind is
    success or error: appends to the corresponding list". Without an entry,
    or with another kind, the fault stays inside the helper (every operation
    is a fault boundary) and is logged. *)
Definition _services_queue_callback_add (entity_type method : string)
  (entity_id : value) (callback_type : string) (callback : value) : M unit :=
  k <- queue_key entity_type method entity_id ;;
  q <- gets services_queue ;;
  match q !! k with
  | Some e =>
      if String.eqb callback_type "success" then
        modify (set_services_queue
                  (<[k := QueueEntry (q_success e ++ [callback])%list (q_error e)]>))
      else if String.eqb callback_type "error" then
        modify (set_services_queue
                  (<[k := QueueEntry (q_success e) (q_error e ++ [callback])%list]>))
      else console_log "_services_queue_callback_add - TypeError"
  | None => console_log "_services_queue_callback_add - TypeError"
  end.

(** ** src/entity.js *)

(** entity_delete, lines 7-19 *)
Definition entity_delete_try (entity_type : string) (ids : value)
  (options : option options)
  : M value :=
  let function_name := entity_type +:+ "_delete" in
  ex <- function_exists function_name ;;
  if ex then
    fn <- window_get function_name ;;
    call fn [AVal ids; AOpts options] ;;
    ret VUndef
  else
    console_log ("WARNING: entity_delete - unsupported type: " +:+
                 entity_type) ;;
    ret VUndef.

Definition entity_delete (entity_type : string) (ids : value)
  (options : option options)
  : M value :=
  try_catch (entity_delete_try entity_type ids options)
    (λ error, console_log ("entity_delete - " +:+ error) ;; ret VUndef).

(** entity_id_parse, lines 26-33 *)
Definition entity_id_parse (entity_id : value) : M value :=
  try_catch
    (let id := entity_id in
     let id := match id with
               | VStr s => match parseInt s with
                           | Some n => VNum n
                           | None => VNaN
                           end
               | _ => id
               end in
     ret id)
    (λ error, console_log ("entity_id_parse - " +:+ error) ;; ret VUndef).

(** entity_local_storage_key, lines 42-47 *)
Definition entity_local_storage_key (entity_type : string) (id : value)
  : M string :=
  try_catch
    (h <- gets heap_of ;;
     ret (entity_type +:+ "_" +:+ ToString h id))
    (λ error, console_log ("entity_local_storage_key - " +:+ error) ;;
              ret "undefined").

(** entity_index_local_storage_key, lines 53-55 *)
Definition entity_index_local_storage_key (path : string) : string := path.

(** _entity_local_storage_delete, lines 283-292 *)
Definition _entity_local_storage_delete_try (entity_type : string)
  (entity_id : value)
  : M value :=
  storage_key <- entity_local_storage_key entity_type entity_id ;;
  removeItem storage_key ;;
  ret VUndef.

Definition _entity_local_storage_delete (entity_type : string)
  (entity_id : value)
  : M value :=
  try_catch (_entity_local_storage_delete_try entity_type entity_id)
    (λ error, console_log ("_entity_local_storage_delete - " +:+ error) ;;
              ret VUndef).

(** The test of lines 224-226 (and 459-461): the entry carries an
    expiration, it is not 0, and the clock has passed it. *)
Definition expired (h : heap) (t : Z) (expiration : value) : bool :=
  negb (bool_decide (expiration = VUndef)) &&
  js_neq_zero h expiration &&
  js_gt t h expiration.

(** [drupalgap.page.options], as read at lines 241-245 *)
Definition drupalgap_page_options : M (option page_options) :=
  dg <- gets drupalgap ;;
  match dg with
  | DgUndeclared => throw "ReferenceError: drupalgap is not defined"
  | DgPageOptions po => ret po
  end.

(** _entity_local_storage_load, lines 206-260 *)
Definition _entity_local_storage_load_try (entity_type : string)
  (entity_id : value) (options : option options)
  : M value :=
  match options with
  | Some o =>
      if truthy (reset o) then
        _entity_local_storage_delete entity_type entity_id ;; ret tt
      else ret tt
  | None => ret tt
  end ;;
  local_storage_key <- entity_local_storage_key entity_type entity_id ;;
  item <- getItem local_storage_key ;;
  match item with
  | None => ret VNull
  | Some t =>
      if text_truthy t then
        entity <- JSON_parse t ;;
        expiration <- get_prop entity "expiration" ;;
        h <- gets heap_of ;;
        t <- time ;;
        if expired h t expiration then
          _entity_local_storage_delete entity_type entity_id ;;
          ret (VBool false)
        else
          po <- drupalgap_page_options ;;
          match po with
          | Some po =>
              if truthy (reloadingPage po) then
                if negb (bool_decide (po_reset po = VUndef)) &&
                   bool_decide (po_reset po = VBool false)
                then ret entity
                else
                  _entity_local_storage_delete entity_type entity_id ;;
                  ret (VBool false)
              else ret entity
          | None => ret entity
          end
      else ret (VStr "")
  end.

Definition _entity_local_storage_load (entity_type : string)
  (entity_id : value) (options : option options)
  : M value :=
  try_catch (_entity_local_storage_load_try entity_type entity_id options)
    (λ error, console_log ("_entity_local_storage_load - " +:+ error) ;;
              ret VUndef).

(** _entity_local_storage_save, lines 268-276 *)
Definition _entity_local_storage_save_try (entity_type : string)
  (entity_id : value) (entity : value)
  : M value :=
  key <- entity_local_storage_key entity_type entity_id ;;
  s <- JSON_stringify entity ;;
  setItem key (stringified s) ;;
  ret VUndef.

Definition _entity_local_storage_save (entity_type : string)
  (entity_id : value) (entity : value)
  : M value :=
  try_catch (_entity_local_storage_save_try entity_type entity_id entity)
    (λ error, console_log ("_entity_local_storage_save - " +:+ error) ;;
              ret VUndef).

(** entity_primary_key, lines 299-327 *)
Definition entity_primary_key_try (entity_type : string)
  : M value :=
  if String.eqb entity_type "comment" then ret (VStr "cid")
  else if String.eqb entity_type "file" then ret (VStr "fid")
  else if String.eqb entity_type "node" then ret (VStr "nid")
  else if String.eqb entity_type "taxonomy_term" then ret (VStr "tid")
  else if String.eqb entity_type "taxonomy_vocabulary" then ret (VStr "vid")
  else if String.eqb entity_type "user" then ret (VStr "uid")
  else
    let function_name := entity_type +:+ "_primary_key" in
    ex <- drupalgap_function_exists function_name ;;
    if ex then
      fn <- window_get function_name ;;
      call fn [AVal (VStr entity_type)]
    else
      console_log ("entity_primary_key - unsupported entity type (" +:+
        entity_type +:+ ") - to add support, declare " +:+ function_name +:+
        "() and have it return the primary key column name as a string") ;;
      ret VUndef.

Definition entity_primary_key (entity_type : string)
  : M value :=
  try_catch (entity_primary_key_try entity_type)
    (λ error, console_log ("entity_primary_key - " +:+ error) ;; ret VUndef).

(** The choice between create and update made in each case of the switch
    of entity_save: [!entity.key] selects create. *)
Definition create_or_update (entity : value) (key create update : string)
  : M (option string) :=
  k <- get_prop entity key ;;
  if negb (truthy k) then ret (Some create) else ret (Some update).

(** entity_save, lines 336-374 *)
Definition entity_save_try (entity_type : string) (bundle : value)
  (entity : value) (options : option options)
  : M value :=
  function_name <-
    (if String.eqb entity_type "comment" then
       create_or_update entity "cid" "comment_create" "comment_update"
     else if String.eqb entity_type "file" then
       ret (Some "file_create")
     else if String.eqb entity_type "node" then
       language <- get_prop entity "language" ;;
       when (negb (truthy language))
         (l <- language_default ;; set_prop entity "language" l) ;;
       create_or_update entity "nid" "node_create" "node_update"
     else if String.eqb entity_type "user" then
       create_or_update entity "uid" "user_create" "user_update"
     else if String.eqb entity_type "taxonomy_term" then
       create_or_update entity "tid"
         "taxonomy_term_create" "taxonomy_term_update"
     else if String.eqb entity_type "taxonomy_vocabulary" then
       create_or_update entity "vid"
         "taxonomy_vocabulary_create" "taxonomy_vocabulary_update"
     else ret None) ;;
  ex <- match function_name with
        | Some name =>
            if negb (String.eqb name "") then function_exists name
            else ret false
        | None => ret false
        end ;;
  if ex then
    fn <- window_get (default "" function_name) ;;
    call fn [AVal entity; AOpts options] ;;
    ret VUndef
  else
    console_log ("WARNING: entity_save - unsupported type: " +:+
                 entity_type) ;;
    ret VUndef.

Definition entity_save (entity_type : string) (bundle : value)
  (entity : value) (options : option options)
  : M value :=
  try_catch (entity_save_try entity_type bundle entity options)
    (λ error, console_log ("entity_save - " +:+ error) ;; ret VUndef).

(** entity_caching_enabled, lines 379-385 *)
Definition entity_caching_enabled : M value :=
  try_catch
    (s <- gets settings_cache_entity ;;
     match s with
     | Some ce => ret (VBool (ce_enabled ce))
     | None => ret VUndef
     end)
    (λ error, console_log ("entity_caching_enabled - " +:+ error) ;;
              ret VUndef).

(** _entity_get_expiration_time, lines 390-403. The second conjunct of the
    test compares the TTL with the string 'undefined', which no number or
    unset value equals, so it always holds here. *)
Definition _entity_get_expiration_time : M value :=
  try_catch
    (s <- gets settings_cache_entity ;;
     match s with
     | None => throw "TypeError: Cannot read property 'enabled' of undefined"
     | Some ce =>
         if ce_enabled ce then
           match ce_expiration ce with
           | Some ttl =>
               if (ttl =? 0)%Z then ret (VNum 0)
               else t <- time ;; ret (VNum (t + ttl))
           | None => time ;; ret VNaN
           end
         else ret VNull
     end)
    (λ error, console_log ("_entity_get_expiration_time - " +:+ error) ;;
              ret VUndef).

(** _entity_set_expiration_time, lines 408-413 *)
Definition _entity_set_expiration_time (entity : value) : M value :=
  try_catch
    (expiration <- _entity_get_expiration_time ;;
     set_prop entity "expiration" expiration ;;
     ret VUndef)
    (λ error, console_log ("_entity_set_expiration_time - " +:+ error) ;;
              ret VUndef).

(** entity_types, lines 419-431 *)
Definition entity_types : list string :=
  ["comment"; "file"; "node"; "taxonomy_term"; "taxonomy_vocabulary"; "user"].

(** _entity_index_local_storage_delete, lines 515-521 *)
Definition _entity_index_local_storage_delete (path : string) : M value :=
  try_catch
    (let storage_key := entity_index_local_storage_key path in
     removeItem storage_key ;;
     ret VUndef)
    (λ error, console_log ("_entity_index_local_storage_delete - " +:+ error) ;;
              ret VUndef).

(** _entity_index_local_storage_load, lines 441-484. The loop bound
    [_entity_index.entity_ids.length] is read once: the loop body cannot
    reach the freshly parsed array. *)
Definition _entity_index_local_storage_load (entity_type : string)
  (path : string) (options : option options) : M value :=
  try_catch
    (match options with
     | Some o =>
         if truthy (reset o) then
           _entity_index_local_storage_delete path ;; ret tt
         else ret tt
     | None => ret tt
     end ;;
     let local_storage_key := entity_index_local_storage_key path in
     item <- getItem local_storage_key ;;
     match item with
     | None => ret VNull
     | Some t =>
         if text_truthy t then
           _entity_index <- JSON_parse t ;;
           expiration <- get_prop _entity_index "expiration" ;;
           h <- gets heap_of ;;
           t <- time ;;
           if expired h t expiration then
             _entity_index_local_storage_delete path ;;
             ret (VBool false)
           else
             result <- new_object (Obj (Some []) []) ;;
             entity_ids <- get_prop _entity_index "entity_ids" ;;
             len <- get_prop entity_ids "length" ;;
             h <- gets heap_of ;;
             for_each (λ i,
                 id <- get_index entity_ids i ;;
                 e <- _entity_local_storage_load entity_type id options ;;
                 array_push result e)
               (seq 0 (loop_bound h len)) ;;
             ret result
         else ret (VStr "")
     end)
    (λ error, console_log ("_entity_index_local_storage_load - " +:+ error) ;;
              ret VUndef).

(** _entity_index_local_storage_save, lines 493-509 *)
Definition _entity_index_local_storage_save (entity_type : string)
  (path : string) (result : value) : M value :=
  try_catch
    (expiration <- _entity_get_expiration_time ;;
     entity_ids <- new_object (Obj (Some []) []) ;;
     index <- new_object (Obj None [("entity_type", VStr entity_type);
                                    ("expiration", expiration);
                                    ("entity_ids", entity_ids)]) ;;
     len <- get_prop result "length" ;;
     h <- gets heap_of ;;
     for_each (λ i,
         e <- get_index result i ;;
         key <- entity_primary_key entity_type ;;
         h <- gets heap_of ;;
         id <- get_prop e (ToString h key) ;;
         array_push entity_ids id)
       (seq 0 (loop_bound h len)) ;;
     s <- JSON_stringify index ;;
     setItem (entity_index_local_storage_key path) (stringified s) ;;
     ret VUndef)
    (λ error, console_log ("_entity_index_local_storage_save - " +:+ error) ;;
              ret VUndef).

(** Drupal.services_queue[entity_type]['retrieve'][entity_id], as read at
    line 162: without an entry the member access fails. *)
Definition services_queue_entry (entity_type : string) (entity_id : value)
  : M (string * string * string * queue_entry) :=
  k <- queue_key entity_type "retrieve" entity_id ;;
  q <- gets services_queue ;;
  match q !! k with
  | Some e => ret (k, e)
  | None => throw "TypeError: Cannot read property 'success' of undefined"
  end.

(** call_options.success of entity_load, lines 146-173 *)
Definition call_options_success (co : call_options) (data : value)
  : M value :=
  try_catch
    (let entity := data in
     when (truthy (co_caching_enabled co))
       (_entity_set_expiration_time entity ;;
        _entity_local_storage_save (co_entity_type co) (co_entity_id co)
          entity ;;
        ret tt) ;;
     ke <- services_queue_entry (co_entity_type co) (co_entity_id co) ;;
     let _success_callbacks := q_success ke.2 in
     for_each (λ cb, call cb [AVal entity] ;; ret tt) _success_callbacks ;;
     ke <- services_queue_entry (co_entity_type co) (co_entity_id co) ;;
     modify (set_services_queue
               (<[ke.1 := QueueEntry [] (q_error ke.2)]>)) ;;
     ret VUndef)
    (λ error, console_log ("entity_load - success - " +:+ error) ;;
              ret VUndef).

(** call_options.error of entity_load, lines 174-181 *)
Definition call_options_error (co : call_options) (xhr status message : value)
  : M value :=
  try_catch
    (e <- opt_field error "error" (co_options co) ;;
     when (truthy e) (call e [AVal xhr; AVal status; AVal message] ;; ret tt) ;;
     ret VUndef)
    (λ error, console_log ("entity_load - error - " +:+ error) ;; ret VUndef).

(** The cache attempt of entity_load, lines 85-91 and 126-132: [true] when
    the entity came from local storage and went to the success callback
    (the function then returns). *)
Definition entity_load_from_cache (caching_enabled : value)
  (entity_type : string) (entity_id : value) (options : option options)
  : M bool :=
  if truthy caching_enabled then
    entity <- _entity_local_storage_load entity_type entity_id options ;;
    if truthy entity then
      s <- opt_field success "success" options ;;
      when (truthy s) (call s [AVal entity] ;; ret tt) ;;
      ret true
    else ret false
  else ret false.

(** entity_load, lines 63-196 *)
Definition entity_load_try (entity_type : string) (ids : value)
  (options : option options)
  : M value :=
  if negb (is_int ids) then
    let msg := "entity_load(" +:+ entity_type +:+
               ") - only single ids supported!" in
    console_log msg ;;
    ret VUndef
  else
    caching_enabled <- entity_caching_enabled ;;
    let entity_id := ids in
    entity_id <- entity_id_parse entity_id ;;
    queued <- _services_queue_already_queued entity_type "retrieve"
                entity_id "success" ;;
    if queued then
      hit <- entity_load_from_cache caching_enabled entity_type entity_id
               options ;;
      if hit then ret VUndef
      else
        s <- opt_field success "success" options ;;
        when (negb (bool_decide (s = VUndef)))
          (_services_queue_callback_add entity_type "retrieve" entity_id
             "success" s) ;;
        e <- opt_field error "error" options ;;
        when (negb (bool_decide (e = VUndef)))
          (_services_queue_callback_add entity_type "retrieve" entity_id
             "error" e) ;;
        ret VUndef
    else
      _services_queue_add_to_queue entity_type "retrieve" entity_id ;;
      s <- opt_field success "success" options ;;
      _services_queue_callback_add entity_type "retrieve" entity_id
        "success" s ;;
      hit <- entity_load_from_cache caching_enabled entity_type entity_id
               options ;;
      if hit then ret VUndef
      else if negb (in_array entity_type entity_types) then
        let message := "WARNING: entity_load - unsupported type: " +:+
                       entity_type in
        console_log message ;;
        e <- opt_field error "error" options ;;
        when (truthy e)
          (call e [AVal VNull; AVal VNull; AVal (VStr message)] ;; ret tt) ;;
        ret VUndef
      else
        primary_key <- entity_primary_key entity_type ;;
        let call_options :=
          CallOptions entity_type entity_id caching_enabled options
            primary_key in
        let function_name := entity_type +:+ "_retrieve" in
        ex <- function_exists function_name ;;
        if ex then
          fn <- window_get function_name ;;
          call fn [AVal ids; ACallOpts call_options] ;;
          ret VUndef
        else
          console_log ("WARNING: " +:+ function_name +:+
                       "() does not exist!") ;;
          ret VUndef.

Definition entity_load (entity_type : string) (ids : value)
  (options : option options)
  : M value :=
  try_catch (entity_load_try entity_type ids options)
    (λ error, console_log ("entity_load - " +:+ error) ;; ret VUndef).

End Entity.

(** ** Reading a trace *)

Definition ev_name (e : event) : string :=
  match e with EvCall f _ _ => f end.
Definition ev_args (e : event) : list arg :=
  match e with EvCall _ a _ => a end.
Definition ev_heap (e : event) : heap :=
  match e with EvCall _ _ h => h end.

(** The calls of a trace, without the heaps. *)
Definition calls (t : list event) : list (string * list arg) :=
  map (λ e, (ev_name e, ev_args e)) t.

(** An operation is a fault boundary when it always returns normally: what
    its try block returns it returns, and what its try block throws it turns
    into one console line and the result [undefined]. *)
Definition fault_boundary (prefix : string) (body op : M value) : Prop :=
  ∀ w,
    (∃ v w', op w = (Ok v, w')) ∧
    match body w with
    | (Ok v, w') => op w = (Ok v, w')
    | (Throw e, w') =>
        op w = (Ok VUndef, set_console (λ c, (c ++ [prefix +:+ e])%list) w')
    end.

(** A world for examples: caching on with a one hour TTL, the six remote
    retrieve handlers of the entity types loaded, drupalgap loaded and idle,
    the clock at 1000. *)
Definition example_world : world :=
  World ∅ false ∅ ∅ (Some (CacheEntity true (Some 3600%Z))) (VStr "und")
    (DgPageOptions None)
    (list_to_map
       [("node_retrieve", VFun "node_retrieve");
        ("node_create", VFun "node_create");
        ("node_update", VFun "node_update");
        ("node_delete", VFun "node_delete");
        ("file_create", VFun "file_create");
        ("file_update", VFun "file_update")])
    ∅ 1000%Z [] [].

(** ** Vocabulary of the statements *)

(** The options ask for a reset. *)
Definition reset_requested (o : option options) : bool :=
  match o with
  | Some o => truthy (reset o)
  | None => false
  end.

(** The expiration the code reads from a stored JSON object: its last
    "expiration" member when that is a number, a string, a boolean or null,
    [undefined] without such a member. *)
Definition stored_expiration (kvs : list (string * json)) : option value :=
  match json_get "expiration" kvs with
  | None => Some VUndef
  | Some j => json_prim j
  end.

(** The local storage key of entity [n] of type [t] (line 44). *)
Definition entity_key (t : string) (n : Z) : string := t +:+ "_" +:+ pretty n.

(** Worlds holding one cached node: [stale_world] an entry that expired at
    500, [cached_world] an entry that never expires. *)
Definition stale_node : list (string * json) :=
  [("nid", JNum 5); ("title", JStr "x"); ("expiration", JNum 500)].
Definition cached_node : list (string * json) :=
  [("nid", JNum 5); ("title", JStr "x"); ("expiration", JNum 0)].
Definition stale_world : world :=
  set_localStorage (<["node_5" := TJson (JObj stale_node)]>) example_world.
Definition cached_world : world :=
  set_localStorage (<["node_5" := TJson (JObj cached_node)]>) example_world.

(** The id entity_id_parse makes of [ids] (lines 28-30). *)
Definition parsed_id `{JSBuiltins} (ids : value) : value :=
  match ids with
  | VStr s => match parseInt s with
              | Some n => VNum n
              | None => VNaN
              end
  | _ => ids
  end.

(** What entity_caching_enabled returns in a world (lines 381-382). *)
Definition caching_flag (w : world) : value :=
  match settings_cache_entity w with
  | Some ce => VBool (ce_enabled ce)
  | None => VUndef
  end.

(** Local storage holds, for entity [n] of type [t], the JSON object [kvs],
    and its expiration has not passed. *)
Definition fresh_entry `{JSBuiltins} (w : world) (t : string) (n : Z)
  (kvs : list (string * json)) : Prop :=
  localStorage w !! entity_key t n = Some (TJson (JObj kvs)) ∧
  ∃ e, stored_expiration kvs = Some e ∧ expired (heap_of w) (now w) e = false.

(** The test of lines 241-245 lets a fresh entry through: drupalgap is
    loaded, and the page is not reloading or asked for no reset. *)
Definition page_keeps_cache (w : world) : bool :=
  match drupalgap w with
  | DgUndeclared => false
  | DgPageOptions None => true
  | DgPageOptions (Some po) =>
      negb (truthy (reloadingPage po)) ||
      bool_decide (po_reset po = VBool false)
  end.

(** The key of the retrieve queue entry of entity [n] of type [t]. *)
Definition retrieve_key (t : string) (n : Z) : string * string * string :=
  (t, "retrieve", pretty n).

(** The remote handler entity_save selects (lines 339-364) for a supported
    type, given the value of the entity's primary key field. *)
Definition save_handler (t : string) (key : value) : string :=
  if String.eqb t "file" then "file_create"
  else if truthy key then t +:+ "_update"
  else t +:+ "_create".

(** The entity as entity_save leaves it (line 348): a node without a
    language gets the default one. *)
Definition with_default_language (t : string) (lang : value) (ob : object)
  : object :=
  if String.eqb t "node" && negb (truthy (obj_get "language" (o_fields ob)))
  then Obj (o_items ob) (obj_set "language" lang (o_fields ob))
  else ob.

(** A world with two entities in the heap: a saved file (fid 7) and a new
    node without language. *)
Definition save_world : world :=
  set_heap (λ _, <[0%nat := Obj None [("fid", VNum 7); ("filename", VStr "a.png")]]>
                  (<[1%nat := Obj None [("title", VStr "x")]]> ∅))
    example_world.

(** What entity_primary_key returns for a type in a world. *)
Definition primary_key_of `{JSBuiltins} (t : string) (w : world) : value :=
  match eval (entity_primary_key t) w with
  | Ok v => v
  | Throw _ => VUndef
  end.

(** A batch of entity_load calls for one type, run one after the other with
    no remote answer in between. *)
Fixpoint run_loads `{JSBuiltins} (t : string) (loads : list (value * options))
  (w : world) : world :=
  match loads with
  | [] => w
  | (ids, o) :: loads' => run_loads t loads' (exec (entity_load t ids (Some o)) w)
  end.

(** The error callbacks the waiters of a batch leave in the queue entry
    (lines 101-109): those that are not undefined. *)
Definition waiter_errors (loads : list (value * options)) : list value :=
  filter (λ e, e ≠ VUndef) (map (λ ld, error ld.2) loads).

(** The events of a fan-out: each callback called with the entity. *)
Definition fan_out (fs : list string) (entity : value) (h : heap) : list event :=
  map (λ f, EvCall f [AVal entity] h) fs.

(** The call options entity_load builds in world [w] (lines 145-187). *)
Definition load_call_options `{JSBuiltins} (t : string) (n : Z) (o : options)
  (w : world) : call_options :=
  CallOptions t (VNum n) (caching_flag w) (Some o) (primary_key_of t w).

(** The example world with entity caching switched off. *)
Definition uncached_world : world :=
  World ∅ false ∅ ∅ (Some (CacheEntity false None)) (VStr "und")
    (DgPageOptions None) (window example_world) ∅ 1000%Z [] [].

(** Three loads of node 5; the second one also brings an error callback. *)
Definition three_loads : list (value * options) :=
  [(VNum 5, Options (VFun "first") VUndef VUndef);
   (VNum 5, Options (VFun "second") (VFun "second_failed") VUndef);
   (VNum 5, Options (VFun "third") VUndef VUndef)].

(** What _entity_get_expiration_time returns in a world (lines 392-400):
    [undefined] when the settings are missing (the fault is caught). *)
Definition expiration_time (w : world) : value :=
  match settings_cache_entity w with
  | None => VUndef
  | Some ce =>
      if ce_enabled ce then
        match ce_expiration ce with
        | Some ttl => if (ttl =? 0)%Z then VNum 0 else VNum (now w + ttl)
        | None => VNaN
        end
      else VNull
  end.

(** The object after [entity.expiration = x] (line 410). *)
Definition with_expiration (x : value) (ob : object) : object :=
  Obj (o_items ob) (obj_set "expiration" x (o_fields ob)).

(** Local storage after _entity_local_storage_save of [v] under [key]
    (lines 270-273): nothing is written when the value cannot be serialized
    or the storage is full. *)
Definition cache_write (key : string) (h : heap) (v : value) (full : bool)
  (s : gmap string text) : gmap string text :=
  match JSON_stringify_fuel (size h) h v with
  | Some r => if full then s else <[key := stringified r]> s
  | None => s
  end.

(** A world in which the retrieve of node 5 is in flight with two waiters,
    the remote entity already in the heap; and the call options of that
    retrieve, built with caching enabled. *)
Definition wrapper_world : world :=
  set_services_queue
    (<[retrieve_key "node" 5 := QueueEntry [VFun "first"; VFun "second"] []]>)
    (set_heap (<[0%nat := Obj None [("nid", VNum 5); ("title", VStr "x")]]>)
       example_world).
Definition wrapper_options : call_options :=
  CallOptions "node" (VNum 5) (VBool true)
    (Some (Options (VFun "first") VUndef VUndef)) (VStr "nid").

(** ** The core as a transition system *)

(** An event carries a success wrapper when the call options of a retrieve
    are among its arguments. *)
Definition carries (ev : event) (co : call_options) : Prop :=
  ACallOpts co ∈ ev_args ev.

(** One step of the process: an operation of this file is called, a remote
    handler answers a retrieve it was given (its call options are in the
    trace), or the environment changes anything but the request queue and
    the trace (storage, clock, settings, heap). *)
Inductive step `{JSBuiltins} : world → world → Prop :=
| step_load t ids o w : step w (exec (entity_load t ids o) w)
| step_save t b e o w : step w (exec (entity_save t b e o) w)
| step_delete t ids o w : step w (exec (entity_delete t ids o) w)
| step_primary_key t w : step w (exec (entity_primary_key t) w)
| step_cache_load t id o w : step w (exec (_entity_local_storage_load t id o) w)
| step_cache_save t id e w : step w (exec (_entity_local_storage_save t id e) w)
| step_cache_delete t id w : step w (exec (_entity_local_storage_delete t id) w)
| step_index_load t p o w :
    step w (exec (_entity_index_local_storage_load t p o) w)
| step_index_save t p r w :
    step w (exec (_entity_index_local_storage_save t p r) w)
| step_index_delete p w : step w (exec (_entity_index_local_storage_delete p) w)
| step_success co data ev w :
    ev ∈ trace w → carries ev co →
    step w (exec (call_options_success co data) w)
| step_error co x s m ev w :
    ev ∈ trace w → carries ev co →
    step w (exec (call_options_error co x s m) w)
| step_env w w' :
    services_queue w' = services_queue w → trace w' = trace w → step w w'.

(** The invariant of the request queue. Every success wrapper handed out
    belongs to a key that has a queue entry. With [orphan = Some (k, f)]: the
    entry of [k] still starts with the callback [f], and no wrapper handed
    out belongs to [k]. *)
Definition queue_inv (orphan : option (string * string * string * string))
  (w : world) : Prop :=
  (∀ ev co, ev ∈ trace w → carries ev co →
     ∃ m, co_entity_id co = VNum m ∧
          is_Some (services_queue w !! retrieve_key (co_entity_type co) m) ∧
          ∀ k f, orphan = Some (k, f) → retrieve_key (co_entity_type co) m ≠ k) ∧
  (∀ k f, orphan = Some (k, f) →
     ∃ e, services_queue w !! k = Some e ∧ [VFun f] `prefix_of` q_success e).

(** An argument list without call options, an event without wrapper. *)
Definition plain_args (args : list arg) : Prop :=
  ∀ co, ACallOpts co ∉ args.
Definition plain_event (ev : event) : Prop := plain_args (ev_args ev).

(** [quiet w w']: from [w] to [w'] the request queue did not change and the
    trace grew by calls without wrapper. *)
Definition quiet (w w' : world) : Prop :=
  services_queue w' = services_queue w ∧
  ∃ evs, trace w' = (trace w ++ evs)%list ∧ Forall plain_event evs.

Definition quietly {A} (m : M A) : Prop := ∀ w, quiet w (m w).2.

(** The index entry written for a query (lines 495-499): the type, the
    expiration and the ids. *)
Definition index_entry (t : string) (e : Z) (ids : list Z) : json :=
  JObj [("entity_type", JStr t); ("expiration", JNum e);
        ("entity_ids", JArr (JNum <$> ids))].

(** [v] is an entity object of the heap whose field [pk] is the number
    [id]. *)
Definition holds_key (h : heap) (pk : string) (v : value) (id : Z) : Prop :=
  ∃ l ob, v = VRef l ∧ h !! l = Some ob ∧ obj_get pk (o_fields ob) = VNum id.
(** [extends w w']: every object of the heap of [w] is still there, as it
    was, in [w']. *)
Definition extends (w w' : world) : Prop :=
  ∀ l ob, heap_of w !! l = Some ob → heap_of w' !! l = Some ob.

Definition extending {A} (m : M A) : Prop := ∀ w, extends w (m w).2.

(** The loop of _entity_index_local_storage_load (lines 469-477) as a
    relation: from [w], the ids are read one after the other through
    _entity_local_storage_load, each result being pushed onto the array
    [lr]; [vs] are the results and [w'] the world at the end. *)
Inductive replayed `{JSBuiltins} (t : string) (o : option options) (lr : nat)
  : list Z → world → list value → world → Prop :=
| replayed_nil w : replayed t o lr [] w [] w
| replayed_cons id ids w v w1 vs w2 :
    _entity_local_storage_load t (VNum id) o w = (Ok v, w1) →
    replayed t o lr ids (exec (array_push (VRef lr) v) w1) vs w2 →
    replayed t o lr (id :: ids) w (v :: vs) w2.
(** A world for the index scenario: nodes 10, 11 and 12 are cached (never
    expiring) and are in the heap as the result list of a query. *)
Definition cached_entity (id : Z) : list (string * json) :=
  [("nid", JNum id); ("expiration", JNum 0)].
Definition index_world : world :=
  set_heap (λ _, <[0%nat := Obj None [("nid", VNum 10)]]>
                  (<[1%nat := Obj None [("nid", VNum 11)]]>
                  (<[2%nat := Obj None [("nid", VNum 12)]]>
                  (<[3%nat := Obj (Some [VRef 0; VRef 1; VRef 2]) []]> ∅))))
    (set_localStorage
       (λ _, <["node_10" := TJson (JObj (cached_entity 10))]>
               (<["node_11" := TJson (JObj (cached_entity 11))]>
               (<["node_12" := TJson (JObj (cached_entity 12))]> ∅)))
       example_world).

(** The same scenario on a page that is reloading (drupalgap.page.options
    is { reloadingPage: true }), and with entity caching disabled in the
    settings. *)
Definition reloading_index_world : world :=
  World (localStorage index_world) false ∅ (heap_of index_world)
    (Some (CacheEntity true (Some 3600%Z))) (VStr "und")
    (DgPageOptions (Some (PageOptions (VBool true) VUndef)))
    (window index_world) ∅ 1000%Z [] [].
Definition uncached_index_world : world :=
  World (localStorage index_world) false ∅ (heap_of index_world)
    (Some (CacheEntity false (Some 3600%Z))) (VStr "und")
    (DgPageOptions None) (window index_world) ∅ 1000%Z [] [].

(** Worlds in which a try block throws: local storage that refuses writes,
    and a stored entry that is not JSON. *)
Definition full_world : world :=
  World ∅ true ∅ ∅ (Some (CacheEntity true (Some 3600%Z))) (VStr "und")
    (DgPageOptions None) ∅ ∅ 1000%Z [] [].
Definition malformed_world : world :=
  set_localStorage (<["node_5" := TRaw "{nid:"]>) example_world.

(** ** Frames: what an operation leaves alone *)

(** [keeps R m]: from any world, running [m] leads to a world that [R]
    relates to it, whether [m] returns or throws. *)
Definition keeps {A} (R : world → world → Prop) (m : M A) : Prop :=
  ∀ w, R w (m w).2.

(** The parts of the world a relation does not look at. *)
Class HeapBlind (R : world → world → Prop) : Prop :=
  heap_blind : ∀ f w w', R w w' → R w (set_heap f w').
Class ConsoleBlind (R : world → world → Prop) : Prop :=
  console_blind : ∀ f w w', R w w' → R w (set_console f w').
Class TraceBlind (R : world → world → Prop) : Prop :=
  trace_blind : ∀ f w w', R w w' → R w (set_trace f w').
Class StorageBlind (R : world → world → Prop) : Prop :=
  storage_blind : ∀ f w w', R w w' → R w (set_localStorage f w').
Class QueueBlind (R : world → world → Prop) : Prop :=
  queue_blind : ∀ f w w', R w w' → R w (set_services_queue f w').

(** Local storage is as it was. *)
Definition same_storage (w w' : world) : Prop :=
  localStorage w' = localStorage w.

(** The request queue is as it was. *)
Definition same_queue (w w' : world) : Prop :=
  services_queue w' = services_queue w.

(** No external function was called. *)
Definition same_trace (w w' : world) : Prop := trace w' = trace w.

(** The heap is as it was. *)
Definition same_heap (w w' : world) : Prop := heap_of w' = heap_of w.

(** Local storage is as it was, or lost the key [k]; nothing was added or
    changed. *)
Definition at_most_removes (k : string) (w w' : world) : Prop :=
  localStorage w' = localStorage w ∨
  localStorage w' = delete k (localStorage w).

(** A value that is an object or an array of the heap. *)
Definition is_ref (v : value) : bool :=
  match v with VRef _ => true | _ => false end.

(** The local storage key of a primitive id (line 44): it does not depend
    on the heap. *)
Definition cache_key `{JSBuiltins} (t : string) (id : value) : string :=
  t +:+ "_" +:+ ToString ∅ id.

(** ** Vocabulary of the further properties *)

(** The cache attempt of a load misses: caching is off, or nothing is
    stored for the entity. *)
Definition cache_misses (t : string) (n : Z) (w : world) : Prop :=
  truthy (caching_flag w) = false ∨ localStorage w !! entity_key t n = None.

(** A callback the code guards with [if (cb)]: it is called when it is a
    function, skipped when it is falsy. *)
Definition notify (cb : value) (args : list arg) (h : gmap nat object)
  : list event :=
  match cb with
  | VFun f => [EvCall f args h]
  | _ => []
  end.
Definition callable_if_set `{JSBuiltins} (cb : value) : Prop :=
  truthy cb = true → ∃ f, cb = VFun f.

(** A world with a custom entity type, whose hook
    commerce_product_primary_key answers product_id; and a world with a new
    node in the heap and no remote handler at all. *)
Definition hook_world : world :=
  World ∅ false ∅ ∅ (Some (CacheEntity true (Some 3600%Z))) (VStr "und")
    (DgPageOptions None)
    (<["commerce_product_primary_key" :=
         VFun "commerce_product_primary_key"]> ∅)
    (<["commerce_product_primary_key" := VStr "product_id"]> ∅)
    1000%Z [] [].
Definition offline_world : world :=
  World ∅ false ∅ (<[0%nat := Obj None [("title", VStr "x")]]> ∅)
    (Some (CacheEntity true (Some 3600%Z))) (VStr "und")
    (DgPageOptions None) ∅ ∅ 1000%Z [] [].

(** What a field that is not an object comes back as after JSON.stringify
    and JSON.parse: NaN becomes null, a function is dropped. *)
Definition stored_as (x : value) : value :=
  match x with
  | VNaN => VNull
  | VFun _ => VUndef
  | _ => x
  end.

(** An object that is not an array and has no two fields of the same
    name. *)
Definition plain_object (ob : object) : Prop :=
  o_items ob = None ∧ NoDup (o_fields ob).*1.

(** The heap after [entity.expiration = x] on the object [ob] at [l]. *)
Definition stamped (l : nat) (x : value) (ob : object)
  (h : gmap nat object) : gmap nat object :=
  <[l := with_expiration x ob]> h.

(** The world of the in-flight retrieve of node 5, with entity caching
    enabled but no TTL in the settings. *)
Definition no_ttl_world : world :=
  World ∅ false
    (<[retrieve_key "node" 5 := QueueEntry [VFun "first"; VFun "second"] []]> ∅)
    (<[0%nat := Obj None [("nid", VNum 5); ("title", VStr "x")]]> ∅)
    (Some (CacheEntity true None)) (VStr "und") (DgPageOptions None)
    (window example_world) ∅ 1000%Z [] [].

(** The index scenario after the result list was saved as the index of the
    path [q]: the index (deadline 4600) and the three nodes are cached. *)
Definition indexed_world : world :=
  exec (_entity_index_local_storage_save (H := plain_builtins)
          "node" "q" (VRef 3)) index_world.

(** Local storage only lost entries: every entry it has was there before,
    with the same text. *)
Definition shrinks (w w' : world) : Prop := localStorage w' ⊆ localStorage w.

(** Local storage is as it was outside the key [k]. *)
Definition only_key (k : string) (w w' : world) : Prop :=
  ∀ k', k' ≠ k → localStorage w' !! k' = localStorage w !! k'.

(** Two runs of entity_load agree up to the id handed to the remote
    handler: they are the same, or each ends with the same call of a
    retrieve handler, from the same world and with the same call options,
    the first argument being [a] in one and [b] in the other. *)
Definition same_up_to_id (a b : value)
  (r1 r2 : outcome value * world) : Prop :=
  r1 = r2 ∨
  ∃ f co w,
    r1 = (Ok VUndef,
          set_trace (λ tr, (tr ++ [EvCall f [AVal a; ACallOpts co]
                                     (heap_of w)])%list) w) ∧
    r2 = (Ok VUndef,
          set_trace (λ tr, (tr ++ [EvCall f [AVal b; ACallOpts co]
                                     (heap_of w)])%list) w).

(** An instance for examples with ids given as strings: parseInt reads the
    decimal digits a string starts with. *)
Fixpoint leading_digits (s : string) (acc : option Z) : option Z :=
  match s with
  | EmptyString => acc
  | String c s' =>
      let d := (Z.of_N (Ascii.N_of_ascii c) - 48)%Z in
      if ((0 <=? d) && (d <=? 9))%Z
      then leading_digits s' (Some (default 0 acc * 10 + d)%Z)
      else acc
  end.
Definition decimal_builtins : JSBuiltins := {|
  parseInt := λ s, leading_digits s None;
  StringToNumber := λ _, None;
  RefToString := λ _ _, "[object Object]"
|}.

(** ** JSON texts and the values they denote *)






(** The example world before any load of node 5, the entity the remote
    handler will answer with already in the heap. *)
Definition unloaded_world : world :=
  set_heap (<[0%nat := Obj None [("nid", VNum 5); ("title", VStr "x")]]>)
    example_world.

(** The fault a cache read runs into on a stored text that is not the JSON
    text of a value with properties: a text JSON.parse rejects, or the JSON
    text null (lines 220 and 224). *)
Definition read_fault (x : text) : option string :=
  match x with
  | TRaw s =>
      if String.eqb s "" then None
      else Some "SyntaxError: Unexpected token in JSON"
  | TJson JNull => Some "TypeError: Cannot read property 'expiration' of null"
  | TJson _ => None
  end.

(** * Properties *)

Create HintDb js discriminated.
#[global] Hint Unfold bind ret gets modify throw try_catch when console_log
  exec eval time getItem setItem removeItem window_get function_exists
  language_default queue_key new_object : js.

(** Run the monadic plumbing of the goal. *)
Ltac js_run := repeat (progress (autounfold with js; simpl)).

Section Properties.
Context `{JSBuiltins}.

#[local] Arguments JSON_parse_tree : simpl never.

Lemma try_catch_boundary (prefix : string) (body : M value) :
  fault_boundary prefix body
    (try_catch body (λ error, console_log (prefix +:+ error) ;; ret VUndef)).
Proof.
  intros w. unfold try_catch.
  destruct (body w) as [[v|e] w']; split; eauto.
Qed.

(** C5. Each public operation (entity_load, entity_save, entity_delete,
    entity_primary_key and the three cache-store helpers) returns normally
    from every world and for every argument: a fault thrown inside its try
    block is caught there, logged on the console under the operation's
    name, and the result is [undefined]. *)
Theorem public_operations_are_fault_boundaries :
  (∀ t ids o, fault_boundary "entity_load - "
                (entity_load_try t ids o) (entity_load t ids o)) ∧
  (∀ t b e o, fault_boundary "entity_save - "
                (entity_save_try t b e o) (entity_save t b e o)) ∧
  (∀ t ids o, fault_boundary "entity_delete - "
                (entity_delete_try t ids o) (entity_delete t ids o)) ∧
  (∀ t, fault_boundary "entity_primary_key - "
          (entity_primary_key_try t) (entity_primary_key t)) ∧
  (∀ t id o, fault_boundary "_entity_local_storage_load - "
               (_entity_local_storage_load_try t id o)
               (_entity_local_storage_load t id o)) ∧
  (∀ t id e, fault_boundary "_entity_local_storage_save - "
               (_entity_local_storage_save_try t id e)
               (_entity_local_storage_save t id e)) ∧
  (∀ t id, fault_boundary "_entity_local_storage_delete - "
             (_entity_local_storage_delete_try t id)
             (_entity_local_storage_delete t id)).
Proof.
  repeat split; intros; apply try_catch_boundary.
Qed.

(** C6 (what the code does). When the id is not integer-like, entity_load
    writes one line on the console and returns: no queue entry, no cache
    access, no dispatch, and no callback is invoked, the error callback of
    the options included. *)
Theorem entity_load_non_int_only_logs (t : string) (ids : value)
  (o : option options) (w : world) :
  is_int ids = false →
  entity_load t ids o w =
    (Ok VUndef,
     set_console (λ c, (c ++ ["entity_load(" +:+ t +:+
                              ") - only single ids supported!"])%list) w).
Proof.
  intros Hint. unfold entity_load, try_catch, entity_load_try.
  rewrite Hint. reflexivity.
Qed.

(** C9. entity_delete only calls the type's remote delete handler (when one
    is defined) with the id and the options: local storage, the request
    queue and the heap are, after it returns, what they were before. *)
Theorem entity_delete_frame (t : string) (ids : value) (o : option options)
  (w : world) :
  eval (entity_delete t ids o) w = Ok VUndef ∧
  localStorage (exec (entity_delete t ids o) w) = localStorage w ∧
  services_queue (exec (entity_delete t ids o) w) = services_queue w ∧
  heap_of (exec (entity_delete t ids o) w) = heap_of w ∧
  trace (exec (entity_delete t ids o) w) =
    (trace w ++
     match default VUndef (window w !! (t +:+ "_delete")) with
     | VFun f => [EvCall f [AVal ids; AOpts o] (heap_of w)]
     | _ => []
     end)%list.
Proof.
  unfold entity_delete, entity_delete_try. js_run.
  destruct (window w !! (t +:+ "_delete")) as [[]|] eqn:E; js_run;
    rewrite ?E; unfold call; js_run; rewrite ?app_nil_r; auto.
Qed.

Lemma obj_get_set_eq k v fs : obj_get k (obj_set k v fs) = v.
Proof.
  induction fs as [|[k' v'] fs IH]; simpl.
  - by rewrite String.eqb_refl.
  - destruct (String.eqb k k') eqn:E; simpl; rewrite E; auto.
Qed.

Lemma obj_get_set_ne k k' v fs :
  k ≠ k' → obj_get k (obj_set k' v fs) = obj_get k fs.
Proof.
  intros Hne. apply String.eqb_neq in Hne.
  induction fs as [|[k'' v''] fs IH]; simpl.
  - by rewrite Hne.
  - destruct (String.eqb k' k'') eqn:E; simpl.
    + apply String.eqb_eq in E; subst k''. by rewrite Hne.
    + destruct (String.eqb k k''); auto.
Qed.

Lemma json_prim_parse j v h :
  json_prim j = Some v → JSON_parse_tree j h = (v, h).
Proof. destruct j; simpl; intros [= <-]; reflexivity. Qed.

Lemma parse_fields_get k kvs : ∀ acc h,
  obj_get k (parse_fields JSON_parse_tree kvs acc h).1 =
  match json_get k kvs with
  | Some j => (JSON_parse_tree j ∅).1
  | None => obj_get k acc
  end ∨ (∃ j, json_get k kvs = Some j ∧ json_prim j = None).
Proof.
  induction kvs as [|[k' j'] kvs IH]; intros acc h; simpl.
  - by left.
  - destruct (JSON_parse_tree j' h) as [v h1] eqn:Ep.
    destruct (IH (obj_set k' v acc) h1) as [IH'|(j & Hj & Hp)].
    + destruct (json_get k kvs) as [j|] eqn:Eg; [by left|].
      destruct (String.eqb k k') eqn:E.
      * apply String.eqb_eq in E; subst k'.
        rewrite IH', obj_get_set_eq.
        destruct (json_prim j') as [p|] eqn:Epr.
        -- left. rewrite (json_prim_parse _ _ _ Epr) in Ep.
           rewrite (json_prim_parse _ _ _ Epr). by inversion Ep.
        -- right. eauto.
      * left. rewrite IH'. apply obj_get_set_ne. by apply String.eqb_neq.
    + right. exists j. rewrite Hj. auto.
Qed.

Lemma parse_fields_get_prim k kvs acc h j v :
  json_get k kvs = Some j → json_prim j = Some v →
  obj_get k (parse_fields JSON_parse_tree kvs acc h).1 = v.
Proof.
  intros Hj Hp. destruct (parse_fields_get k kvs acc h) as [->|(j' & Hj' & Hp')].
  - rewrite Hj. by rewrite (json_prim_parse _ _ _ Hp).
  - congruence.
Qed.

Lemma parse_fields_get_none k kvs acc h :
  json_get k kvs = None →
  obj_get k (parse_fields JSON_parse_tree kvs acc h).1 = obj_get k acc.
Proof.
  intros Hj. destruct (parse_fields_get k kvs acc h) as [->|(j' & Hj' & Hp')].
  - by rewrite Hj.
  - congruence.
Qed.

Lemma entity_local_storage_key_run t id w :
  entity_local_storage_key t id w = (Ok (t +:+ "_" +:+ ToString (heap_of w) id), w).
Proof. reflexivity. Qed.

Lemma _entity_local_storage_delete_run t id w :
  _entity_local_storage_delete t id w =
  (Ok VUndef, set_localStorage (delete (t +:+ "_" +:+ ToString (heap_of w) id)) w).
Proof. reflexivity. Qed.

Lemma JSON_parse_tree_obj kvs h :
  JSON_parse_tree (JObj kvs) h =
  let '(fs, h1) := parse_fields JSON_parse_tree kvs [] h in
  alloc (Obj None fs) h1.
Proof. reflexivity. Qed.

Lemma JSON_parse_tree_arr js h :
  JSON_parse_tree (JArr js) h =
  let '(vs, h1) := parse_items JSON_parse_tree js h in
  alloc (Obj (Some vs) []) h1.
Proof. reflexivity. Qed.

Lemma parse_object_get kvs h v h' :
  JSON_parse_tree (JObj kvs) h = (v, h') →
  ∃ l fs, v = VRef l ∧ h' !! l = Some (Obj None fs) ∧
          fs = (parse_fields JSON_parse_tree kvs [] h).1.
Proof.
  rewrite JSON_parse_tree_obj.
  destruct (parse_fields JSON_parse_tree kvs [] h) as [fs h1].
  unfold alloc. intros [= <- <-]. eexists _, _. split; [reflexivity|].
  split; [apply lookup_insert_eq|reflexivity].
Qed.

Lemma _entity_local_storage_load_object t n o w kvs e :
  reset_requested o = false →
  localStorage w !! entity_key t n = Some (TJson (JObj kvs)) →
  stored_expiration kvs = Some e →
  _entity_local_storage_load t (VNum n) o w =
    let '(v, h') := JSON_parse_tree (JObj kvs) (heap_of w) in
    let w1 := set_heap (λ _, h') w in
    let gone := (Ok (VBool false), set_localStorage (delete (entity_key t n)) w1) in
    if expired h' (now w) e then gone
    else match drupalgap w with
         | DgUndeclared =>
             (Ok VUndef,
              set_console (λ c, (c ++ ["_entity_local_storage_load - ReferenceError: drupalgap is not defined"])%list) w1)
         | DgPageOptions None => (Ok v, w1)
         | DgPageOptions (Some po) =>
             if truthy (reloadingPage po) then
               if negb (bool_decide (po_reset po = VUndef)) &&
                  bool_decide (po_reset po = VBool false)
               then (Ok v, w1) else gone
             else (Ok v, w1)
         end.
Proof.
  intros Hr Hs He.
  destruct (JSON_parse_tree (JObj kvs) (heap_of w)) as [v h'] eqn:Ep.
  destruct (parse_object_get _ _ _ _ Ep) as (l & fs & -> & Hl & Hfs).
  assert (Hexp : obj_get "expiration" fs = e).
  { subst fs. unfold stored_expiration in He.
    destruct (json_get "expiration" kvs) as [j|] eqn:Ej.
    - by apply parse_fields_get_prim with j.
    - rewrite parse_fields_get_none by done. by inversion He. }
  unfold _entity_local_storage_load, _entity_local_storage_load_try.
  assert (Hpre : (match o with
     | Some o0 => if truthy (reset o0) then _entity_local_storage_delete t (VNum n);; ret () else ret ()
     | None => ret ()
     end) w = (Ok tt, w)).
  { destruct o as [o|]; simpl in *; [rewrite Hr|]; reflexivity. }
  unfold try_catch, bind at 1. rewrite Hpre.
  unfold entity_key in *. unfold JSON_parse, get_prop, entity_local_storage_key.
  js_run. rewrite Hs. js_run. rewrite Ep. js_run. rewrite Hl. js_run.
  rewrite Hexp.
  destruct (expired h' (now w) e).
  - reflexivity.
  - unfold drupalgap_page_options. js_run.
    destruct (drupalgap w) as [|[po|]]; js_run; try reflexivity.
    destruct (truthy (reloadingPage po)); try reflexivity.
    destruct (negb _ && _); reflexivity.
Qed.

Lemma _entity_local_storage_load_reset t n o w :
  reset_requested o = true →
  _entity_local_storage_load t (VNum n) o w =
    (Ok VNull, set_localStorage (delete (entity_key t n)) w).
Proof.
  intros Hr. destruct o as [o|]; [|discriminate]. simpl in Hr.
  unfold _entity_local_storage_load, _entity_local_storage_load_try.
  rewrite Hr. unfold entity_key, entity_local_storage_key.
  js_run. rewrite lookup_delete_eq. reflexivity.
Qed.

Lemma _entity_local_storage_load_absent t n o w :
  reset_requested o = false →
  localStorage w !! entity_key t n = None →
  _entity_local_storage_load t (VNum n) o w = (Ok VNull, w).
Proof.
  intros Hr Hs.
  unfold _entity_local_storage_load, _entity_local_storage_load_try.
  assert (Hpre : (match o with
     | Some o0 => if truthy (reset o0) then _entity_local_storage_delete t (VNum n);; ret () else ret ()
     | None => ret ()
     end) w = (Ok tt, w)).
  { destruct o as [o|]; simpl in *; [rewrite Hr|]; reflexivity. }
  unfold try_catch, bind at 1. rewrite Hpre.
  unfold entity_key, entity_local_storage_key in *. js_run. rewrite Hs.
  reflexivity.
Qed.

Lemma expired_number h t E :
  expired h t (VNum E) = negb (E =? 0)%Z && (E <? t)%Z.
Proof.
  unfold expired, js_neq_zero, js_gt. simpl.
  destruct (Z.eqb_spec E 0) as [->|Hne]; simpl.
  - reflexivity.
  - rewrite bool_decide_eq_false_2; [reflexivity|]. intros [= ?]. done.
Qed.

(** C2. A cache read of a stored entry whose expiration [E] is not 0 and
    lies before the clock is not a hit, and the entry is gone from local
    storage afterwards. A stored entry with expiration 0 is never expired:
    the read does not depend on the clock, and without a reset or a page
    reload it returns the stored entity at any time. *)
Theorem expired_entry_is_deleted_and_zero_never_expires
  (t : string) (n : Z) (o : option options) (w : world)
  (kvs : list (string * json)) (E : Z) :
  localStorage w !! entity_key t n = Some (TJson (JObj kvs)) →
  stored_expiration kvs = Some (VNum E) →
  (E ≠ 0%Z → (now w > E)%Z →
     (∃ v, eval (_entity_local_storage_load t (VNum n) o) w = Ok v ∧
           truthy v = false) ∧
     localStorage (exec (_entity_local_storage_load t (VNum n) o) w)
       !! entity_key t n = None) ∧
  (E = 0%Z →
     (∀ t', expired (heap_of w) t' (VNum E) = false) ∧
     (∀ t', _entity_local_storage_load t (VNum n) o (set_now t' w) =
            let '(r, w') := _entity_local_storage_load t (VNum n) o w in
            (r, set_now t' w')) ∧
     (∀ t', reset_requested o = false → drupalgap w = DgPageOptions None →
            _entity_local_storage_load t (VNum n) o (set_now t' w) =
            let '(v, h') := JSON_parse_tree (JObj kvs) (heap_of w) in
            (Ok v, set_heap (λ _, h') (set_now t' w)))).
Proof.
  intros Hs He. split.
  - intros Hne Hgt. unfold eval, exec.
    destruct (reset_requested o) eqn:Hr.
    + rewrite _entity_local_storage_load_reset by done. simpl.
      split; [eauto|]. apply lookup_delete_eq.
    + rewrite (_entity_local_storage_load_object _ _ _ _ _ _ Hr Hs He).
      destruct (JSON_parse_tree (JObj kvs) (heap_of w)) as [v h'].
      rewrite expired_number.
      replace (E =? 0)%Z with false by (symmetry; by apply Z.eqb_neq).
      replace (E <? now w)%Z with true by (symmetry; apply Z.ltb_lt; lia).
      simpl. split; [eauto|]. apply lookup_delete_eq.
  - intros ->. split; [|split].
    + intros t'. by rewrite expired_number.
    + intros t'. destruct (reset_requested o) eqn:Hr.
      * by rewrite !_entity_local_storage_load_reset.
      * rewrite (_entity_local_storage_load_object _ _ _ (set_now t' w) _ _ Hr Hs He).
        rewrite (_entity_local_storage_load_object _ _ _ w _ _ Hr Hs He).
        change (heap_of (set_now t' w)) with (heap_of w).
        destruct (JSON_parse_tree (JObj kvs) (heap_of w)) as [v h'].
        rewrite !expired_number. simpl.
        destruct (drupalgap w) as [|[po|]]; try reflexivity.
        destruct (truthy (reloadingPage po)); try reflexivity.
        destruct (negb _ && _); reflexivity.
    + intros t' Hr Hdg.
      rewrite (_entity_local_storage_load_object _ _ _ (set_now t' w) _ _ Hr Hs He).
      change (heap_of (set_now t' w)) with (heap_of w).
      destruct (JSON_parse_tree (JObj kvs) (heap_of w)) as [v h'].
      rewrite expired_number. simpl. rewrite Hdg. reflexivity.
Qed.

Lemma bind_ok {A B} (m : M A) (k : A → M B) w a w' :
  m w = (Ok a, w') → bind m k w = k a w'.
Proof. unfold bind. by intros ->. Qed.

Lemma bind_fail {A B} (m : M A) (k : A → M B) w e w' :
  m w = (Throw e, w') → bind m k w = (Throw e, w').
Proof. unfold bind. by intros ->. Qed.

Lemma expired_prim h h' t e :
  (∀ l, e ≠ VRef l) → expired h t e = expired h' t e.
Proof. intros Hn. destruct e; try reflexivity. by destruct (Hn l). Qed.

Lemma stored_expiration_not_ref kvs e l :
  stored_expiration kvs = Some e → e ≠ VRef l.
Proof.
  unfold stored_expiration.
  destruct (json_get "expiration" kvs) as [[]|]; simpl; intros [= <-]; done.
Qed.

Lemma _entity_local_storage_load_hit t n o w kvs :
  reset_requested o = false →
  fresh_entry w t n kvs →
  page_keeps_cache w = true →
  _entity_local_storage_load t (VNum n) o w =
    (Ok (JSON_parse_tree (JObj kvs) (heap_of w)).1,
     set_heap (λ _, (JSON_parse_tree (JObj kvs) (heap_of w)).2) w).
Proof.
  intros Hr (Hs & e & He & Hx) Hp.
  rewrite (_entity_local_storage_load_object _ _ _ _ _ _ Hr Hs He).
  destruct (JSON_parse_tree (JObj kvs) (heap_of w)) as [v h'].
  rewrite (expired_prim h' (heap_of w)), Hx
    by (intros l; by apply stored_expiration_not_ref with kvs).
  unfold page_keeps_cache in Hp. simpl.
  destruct (drupalgap w) as [|[po|]]; try done.
  destruct (truthy (reloadingPage po)); [|done]. simpl in Hp.
  apply bool_decide_eq_true_1 in Hp. rewrite Hp. done.
Qed.

Lemma parse_object_truthy kvs h : truthy (JSON_parse_tree (JObj kvs) h).1 = true.
Proof.
  rewrite JSON_parse_tree_obj.
  destruct (parse_fields JSON_parse_tree kvs [] h). reflexivity.
Qed.

Lemma entity_load_from_cache_hit t n (opts : options) f w kvs :
  success opts = VFun f →
  reset_requested (Some opts) = false →
  fresh_entry w t n kvs →
  page_keeps_cache w = true →
  entity_load_from_cache (VBool true) t (VNum n) (Some opts) w =
    (Ok true,
     set_trace (λ tr, (tr ++ [EvCall f [AVal (JSON_parse_tree (JObj kvs) (heap_of w)).1]
                               (JSON_parse_tree (JObj kvs) (heap_of w)).2])%list)
       (set_heap (λ _, (JSON_parse_tree (JObj kvs) (heap_of w)).2) w)).
Proof.
  intros Hf Hr Hfresh Hp. unfold entity_load_from_cache.
  cbv beta. change (truthy (VBool true)) with true. cbv iota.
  rewrite (bind_ok _ _ _ _ _ (_entity_local_storage_load_hit _ _ _ _ _ Hr Hfresh Hp)).
  rewrite parse_object_truthy. unfold opt_field. rewrite Hf.
  unfold call. js_run. reflexivity.
Qed.

Lemma entity_caching_enabled_run w :
  entity_caching_enabled w = (Ok (caching_flag w), w).
Proof.
  unfold entity_caching_enabled, caching_flag. js_run.
  by destruct (settings_cache_entity w).
Qed.

Lemma entity_id_parse_run ids w :
  entity_id_parse ids w = (Ok (parsed_id ids), w).
Proof. reflexivity. Qed.

Lemma parsed_id_is_int ids n : parsed_id ids = VNum n → is_int ids = true.
Proof.
  destruct ids; simpl; try done.
  destruct (parseInt s) eqn:E; [|done]. intros _.
  apply bool_decide_eq_true_2. eauto.
Qed.

Lemma _services_queue_already_queued_run t n cb w :
  _services_queue_already_queued t "retrieve" (VNum n) cb w =
    (Ok (bool_decide (is_Some (services_queue w !! retrieve_key t n))), w).
Proof. reflexivity. Qed.

Lemma _services_queue_add_to_queue_run t n w :
  _services_queue_add_to_queue t "retrieve" (VNum n) w =
    (Ok tt,
     set_services_queue
       (λ q, match q !! retrieve_key t n with
             | Some _ => q
             | None => <[retrieve_key t n := QueueEntry [] []]> q
             end) w).
Proof. reflexivity. Qed.

Lemma _services_queue_callback_add_success t n s w e :
  services_queue w !! retrieve_key t n = Some e →
  _services_queue_callback_add t "retrieve" (VNum n) "success" s w =
    (Ok tt,
     set_services_queue
       (<[retrieve_key t n := QueueEntry (q_success e ++ [s]) (q_error e)]>) w).
Proof.
  intros Hq. unfold _services_queue_callback_add, retrieve_key in *.
  js_run. by rewrite Hq.
Qed.

Lemma _services_queue_callback_add_error t n s w e :
  services_queue w !! retrieve_key t n = Some e →
  _services_queue_callback_add t "retrieve" (VNum n) "error" s w =
    (Ok tt,
     set_services_queue
       (<[retrieve_key t n := QueueEntry (q_success e) (q_error e ++ [s])]>) w).
Proof.
  intros Hq. unfold _services_queue_callback_add, retrieve_key in *.
  js_run. by rewrite Hq.
Qed.

Lemma enqueue_with_success t n s w :
  services_queue w !! retrieve_key t n = None →
  (_services_queue_add_to_queue t "retrieve" (VNum n) ;;
   _services_queue_callback_add t "retrieve" (VNum n) "success" s) w =
    (Ok tt, set_services_queue (<[retrieve_key t n := QueueEntry [s] []]>) w).
Proof.
  intros Hq.
  rewrite (bind_ok _ _ _ _ _ (_services_queue_add_to_queue_run t n w)).
  erewrite _services_queue_callback_add_success
    by (simpl; rewrite Hq; apply lookup_insert_eq).
  unfold set_services_queue. simpl. rewrite Hq. by rewrite insert_insert_eq.
Qed.

Lemma bind_assoc {A B C} (m : M A) (f : A → M B) (g : B → M C) w :
  bind (bind m f) g w = bind m (λ x, bind (f x) g) w.
Proof. unfold bind. destruct (m w) as [[a|e] w']; reflexivity. Qed.

Lemma enqueue_if_absent (k : string * string * string) (x : queue_entry) w :
  set_services_queue
    (λ q, match q !! k with Some _ => q | None => <[k := x]> q end) w =
  match services_queue w !! k with
  | Some _ => w
  | None => set_services_queue (<[k := x]>) w
  end.
Proof.
  destruct w as [? ? q ? ? ? ? ? ? ? ? ?]. unfold set_services_queue. simpl.
  by destruct (q !! k).
Qed.

(** A cache hit when the key is not queued yet: the queue entry is created
    with the success callback, the callback is called with the parsed
    entity, and entity_load returns. *)
Lemma entity_load_hit_unqueued (t : string) (ids : value) (n : Z)
  (opts : options) (f : string) (w : world) (kvs : list (string * json)) :
  parsed_id ids = VNum n →
  caching_flag w = VBool true →
  success opts = VFun f →
  reset_requested (Some opts) = false →
  page_keeps_cache w = true →
  fresh_entry w t n kvs →
  services_queue w !! retrieve_key t n = None →
  entity_load t ids (Some opts) w =
    (Ok VUndef,
     set_trace (λ tr, (tr ++ [EvCall f [AVal (JSON_parse_tree (JObj kvs) (heap_of w)).1]
                               (JSON_parse_tree (JObj kvs) (heap_of w)).2])%list)
       (set_heap (λ _, (JSON_parse_tree (JObj kvs) (heap_of w)).2)
          (set_services_queue
             (<[retrieve_key t n := QueueEntry [VFun f] []]>) w))).
Proof.
  intros Hid Hc Hf Hr Hp Hfresh Hq.
  unfold entity_load, entity_load_try.
  rewrite (parsed_id_is_int _ _ Hid). cbv beta iota delta [negb].
  unfold try_catch.
  rewrite (bind_ok _ _ _ _ _ (entity_caching_enabled_run w)), Hc.
  rewrite (bind_ok _ _ _ _ _ (entity_id_parse_run ids w)), Hid.
  rewrite (bind_ok _ _ _ _ _ (_services_queue_already_queued_run t n _ w)).
  rewrite Hq.
  rewrite bool_decide_eq_false_2 by (intros [? ?]; done).
  cbv iota.
  change (opt_field success "success" (Some opts)) with (ret (success opts)).
  rewrite Hf.
  rewrite (bind_ok _ _ _ _ _ (_services_queue_add_to_queue_run t n w)).
  rewrite (bind_ok (ret (VFun f)) _ _ (VFun f) _ eq_refl).
  erewrite bind_ok; cycle 1.
  { apply _services_queue_callback_add_success. simpl. rewrite Hq.
    apply lookup_insert_eq. }
  erewrite bind_ok; cycle 1.
  { apply entity_load_from_cache_hit with (kvs := kvs);
      [exact Hf | exact Hr | exact Hfresh | exact Hp]. }
  unfold set_services_queue, set_heap, set_trace. simpl. rewrite Hq.
  by rewrite insert_insert_eq.
Qed.

(** C3 (amended). With entity caching enabled, a fresh cache entry for
    (type, id), no reset asked by the options and a page that keeps cached
    entities, entity_load calls the success callback with the entity parsed
    from local storage and returns: the call is the only event added to the
    trace (no remote dispatch), local storage is untouched, and this holds
    whether or not the retrieve queue already has an entry for the key (an
    absent entry is created, holding the callback). *)
Theorem cache_hit_bypasses_remote (t : string) (ids : value) (n : Z)
  (opts : options) (f : string) (w : world) (kvs : list (string * json)) :
  parsed_id ids = VNum n →
  caching_flag w = VBool true →
  success opts = VFun f →
  reset_requested (Some opts) = false →
  page_keeps_cache w = true →
  fresh_entry w t n kvs →
  entity_load t ids (Some opts) w =
    (Ok VUndef,
     set_trace (λ tr, (tr ++ [EvCall f [AVal (JSON_parse_tree (JObj kvs) (heap_of w)).1]
                               (JSON_parse_tree (JObj kvs) (heap_of w)).2])%list)
       (set_heap (λ _, (JSON_parse_tree (JObj kvs) (heap_of w)).2)
          (set_services_queue
             (λ q, match q !! retrieve_key t n with
                   | Some _ => q
                   | None => <[retrieve_key t n := QueueEntry [VFun f] []]> q
                   end) w))).
Proof.
  intros Hid Hc Hf Hr Hp Hfresh.
  rewrite enqueue_if_absent.
  destruct (services_queue w !! retrieve_key t n) as [e|] eqn:Hq.
  - unfold entity_load, entity_load_try.
    rewrite (parsed_id_is_int _ _ Hid). cbv beta iota delta [negb].
    unfold try_catch.
    rewrite (bind_ok _ _ _ _ _ (entity_caching_enabled_run w)), Hc.
    rewrite (bind_ok _ _ _ _ _ (entity_id_parse_run ids w)), Hid.
    rewrite (bind_ok _ _ _ _ _ (_services_queue_already_queued_run t n _ w)).
    rewrite Hq.
    rewrite bool_decide_eq_true_2 by eauto.
    rewrite (bind_ok _ _ _ _ _ (entity_load_from_cache_hit _ _ _ _ _ _ Hf Hr Hfresh Hp)).
    reflexivity.
  - by apply entity_load_hit_unqueued.
Qed.

Lemma set_heap_id w : set_heap (λ _, heap_of w) w = w.
Proof. by destruct w. Qed.

(** C7 (amended). For a supported type and an entity object, entity_save
    calls the remote handler [save_handler] names, with the entity and the
    options: for comment, node, user, taxonomy_term and taxonomy_vocabulary
    the create handler when the primary key field is falsy and the update
    handler otherwise; for file always file_create. A node without a
    language has the default language set on the entity object itself, and
    the handler sees the entity with it. *)
Theorem entity_save_dispatch (t : string) (bundle : value) (l : nat)
  (ob : object) (o : option options) (w : world) (pk f : string) :
  t ∈ entity_types →
  heap_of w !! l = Some ob →
  eval (entity_primary_key t) w = Ok (VStr pk) →
  window w !! save_handler t (obj_get pk (o_fields ob)) = Some (VFun f) →
  entity_save t bundle (VRef l) o w =
    (Ok VUndef,
     set_trace (λ tr, (tr ++ [EvCall f [AVal (VRef l); AOpts o]
                                (<[l := with_default_language t
                                          (settings_language_default w) ob]>
                                   (heap_of w))])%list)
       (set_heap (<[l := with_default_language t
                           (settings_language_default w) ob]>) w)).
Proof.
  intros Ht Hl Hpk Hw.
  assert (Hid : <[l := ob]> (heap_of w) = heap_of w) by by apply insert_id.
  unfold entity_types in Ht.
  destruct ob as [its fs].
  repeat (apply elem_of_cons in Ht as [->|Ht]); [..|by apply elem_of_nil in Ht];
    injection Hpk as <-;
    unfold entity_save, entity_save_try, create_or_update, get_prop, set_prop,
      call, save_handler, with_default_language in *;
    simpl in Hw; cbv [String.append] in Hw; js_run; rewrite ?Hl;
    destruct its; js_run.
  all: try (destruct (truthy (obj_get _ fs)) eqn:Ek; simpl in Hw; js_run;
            rewrite ?Hw; js_run; rewrite ?Hw; js_run;
            unfold set_heap; simpl; rewrite Hid; reflexivity).
  all: try (rewrite Hw; js_run; rewrite Hw; js_run;
            unfold set_heap; simpl; rewrite Hid; reflexivity).
  all: destruct (truthy (obj_get "language" fs)) eqn:El; js_run;
    rewrite ?Hl; js_run; rewrite ?lookup_insert_eq; js_run;
    rewrite ?obj_get_set_ne by done;
    destruct (truthy (obj_get "nid" fs)) eqn:Ek; simpl in Hw; js_run;
    rewrite ?Hw; js_run; rewrite ?Hw; js_run;
    unfold set_heap; simpl; rewrite ?Hl, ?Hid; reflexivity.
Qed.

Lemma set_trace_app (l1 l2 : list event) w :
  set_trace (λ t, (t ++ l2)%list) (set_trace (λ t, (t ++ l1)%list) w) =
  set_trace (λ t, (t ++ (l1 ++ l2))%list) w.
Proof. destruct w. unfold set_trace. simpl. by rewrite app_assoc. Qed.

Lemma set_trace_nil w : set_trace (λ t, (t ++ [])%list) w = w.
Proof. destruct w. unfold set_trace. simpl. by rewrite app_nil_r. Qed.

Lemma fan_out_run (fs : list string) (entity : value) : ∀ w,
  for_each (λ cb, call cb [AVal entity] ;; ret tt) (map VFun fs) w =
    (Ok tt, set_trace (λ t, (t ++ fan_out fs entity (heap_of w))%list) w).
Proof.
  induction fs as [|f fs IH]; intros w; simpl.
  - unfold ret. by rewrite set_trace_nil.
  - unfold call. js_run. fold (for_each (A := value)).
    rewrite IH. simpl. by rewrite set_trace_app.
Qed.

Lemma services_queue_entry_run t n w e :
  services_queue w !! retrieve_key t n = Some e →
  services_queue_entry t (VNum n) w = (Ok (retrieve_key t n, e), w).
Proof.
  intros Hq. unfold services_queue_entry, retrieve_key in *. js_run.
  by rewrite Hq.
Qed.

(** The fan-out part of the success wrapper (lines 161-167). *)
Lemma success_fan_out t n (fs : list string) errs entity w :
  services_queue w !! retrieve_key t n = Some (QueueEntry (map VFun fs) errs) →
  (ke <- services_queue_entry t (VNum n) ;;
   for_each (λ cb, call cb [AVal entity] ;; ret tt) (q_success ke.2) ;;
   ke <- services_queue_entry t (VNum n) ;;
   modify (set_services_queue (<[ke.1 := QueueEntry [] (q_error ke.2)]>)) ;;
   ret VUndef) w =
  (Ok VUndef,
   set_services_queue (<[retrieve_key t n := QueueEntry [] errs]>)
     (set_trace (λ tr, (tr ++ fan_out fs entity (heap_of w))%list) w)).
Proof.
  intros Hq.
  rewrite (bind_ok _ _ _ _ _ (services_queue_entry_run _ _ _ _ Hq)). simpl.
  rewrite (bind_ok _ _ _ _ _ (fan_out_run fs entity w)).
  erewrite bind_ok by (apply services_queue_entry_run; exact Hq).
  reflexivity.
Qed.

Lemma entity_primary_key_fixed t :
  t ∈ entity_types →
  ∀ w w0, entity_primary_key t w = (Ok (primary_key_of t w0), w).
Proof.
  unfold entity_types. intros Ht w w0.
  repeat (apply elem_of_cons in Ht as [->|Ht]); [..|by apply elem_of_nil in Ht];
    reflexivity.
Qed.

Lemma entity_load_from_cache_off c t id o w :
  truthy c = false → entity_load_from_cache c t id o w = (Ok false, w).
Proof. intros Hc. unfold entity_load_from_cache. by rewrite Hc. Qed.

(** The first load of a key with caching off: one queue entry, one
    dispatch. *)
Lemma entity_load_first t ids n (o : options) h w :
  parsed_id ids = VNum n →
  truthy (caching_flag w) = false →
  t ∈ entity_types →
  window w !! (t +:+ "_retrieve") = Some (VFun h) →
  services_queue w !! retrieve_key t n = None →
  entity_load t ids (Some o) w =
    (Ok VUndef,
     set_trace (λ tr, (tr ++ [EvCall h [AVal ids;
                                ACallOpts (CallOptions t (VNum n) (caching_flag w)
                                             (Some o) (primary_key_of t w))]
                               (heap_of w)])%list)
       (set_services_queue (<[retrieve_key t n := QueueEntry [success o] []]>) w)).
Proof.
  intros Hid Hc Ht Hw Hq.
  unfold entity_load, entity_load_try.
  rewrite (parsed_id_is_int _ _ Hid). cbv beta iota delta [negb].
  unfold try_catch.
  rewrite (bind_ok _ _ _ _ _ (entity_caching_enabled_run w)).
  rewrite (bind_ok _ _ _ _ _ (entity_id_parse_run ids w)), Hid.
  rewrite (bind_ok _ _ _ _ _ (_services_queue_already_queued_run t n _ w)).
  rewrite bool_decide_eq_false_2 by (rewrite Hq; intros [? ?]; done).
  cbv iota.
  change (opt_field success "success" (Some o)) with (ret (success o)).
  rewrite (bind_ok _ _ _ _ _ (_services_queue_add_to_queue_run t n w)).
  rewrite (bind_ok (ret (success o)) _ _ (success o) _ eq_refl).
  erewrite bind_ok; cycle 1.
  { apply _services_queue_callback_add_success. simpl. rewrite Hq.
    apply lookup_insert_eq. }
  erewrite bind_ok by (by apply entity_load_from_cache_off).
  cbv iota.
  unfold in_array. rewrite bool_decide_eq_true_2 by done.
  cbv beta iota delta [negb].
  erewrite bind_ok by (apply (entity_primary_key_fixed t Ht _ w)).
  unfold call. js_run. rewrite Hw. js_run. rewrite Hw. js_run.
  unfold set_services_queue, set_trace. simpl. rewrite Hq.
  by rewrite insert_insert_eq.
Qed.

(** A later load of a queued key with caching off only registers its
    callbacks. *)
Lemma entity_load_waiter t ids n (o : options) f e w :
  parsed_id ids = VNum n →
  truthy (caching_flag w) = false →
  success o = VFun f →
  services_queue w !! retrieve_key t n = Some e →
  entity_load t ids (Some o) w =
    (Ok VUndef,
     set_services_queue
       (<[retrieve_key t n :=
            QueueEntry (q_success e ++ [VFun f])
              (q_error e ++ filter (λ x, x ≠ VUndef) [error o])]>) w).
Proof.
  intros Hid Hc Hf Hq.
  unfold entity_load, entity_load_try.
  rewrite (parsed_id_is_int _ _ Hid). cbv beta iota delta [negb].
  unfold try_catch.
  rewrite (bind_ok _ _ _ _ _ (entity_caching_enabled_run w)).
  rewrite (bind_ok _ _ _ _ _ (entity_id_parse_run ids w)), Hid.
  rewrite (bind_ok _ _ _ _ _ (_services_queue_already_queued_run t n _ w)).
  rewrite bool_decide_eq_true_2 by eauto.
  cbv iota.
  erewrite bind_ok by (by apply entity_load_from_cache_off).
  cbv iota.
  change (opt_field success "success" (Some o)) with (ret (success o)).
  change (opt_field error "error" (Some o)) with (ret (error o)).
  rewrite (bind_ok (ret (success o)) _ _ (success o) _ eq_refl).
  rewrite Hf. rewrite bool_decide_eq_false_2 by done.
  cbv beta iota delta [negb when].
  erewrite bind_ok by (apply _services_queue_callback_add_success; exact Hq).
  rewrite (bind_ok (ret (error o)) _ _ (error o) _ eq_refl).
  destruct (decide (error o = VUndef)) as [He|He].
  - rewrite bool_decide_eq_true_2 by done. simpl.
    rewrite filter_cons_False by (intros ?; done).
    rewrite filter_nil, app_nil_r. reflexivity.
  - rewrite bool_decide_eq_false_2 by done. simpl.
    erewrite bind_ok; cycle 1.
    { apply _services_queue_callback_add_error. simpl. apply lookup_insert_eq. }
    rewrite filter_cons_True by done. rewrite filter_nil. simpl.
    unfold set_services_queue. simpl. by rewrite insert_insert_eq.
Qed.

Lemma set_services_queue_twice
  (f g : gmap (string * string * string) queue_entry →
         gmap (string * string * string) queue_entry) w :
  set_services_queue g (set_services_queue f w) = set_services_queue (g ∘ f) w.
Proof. by destruct w. Qed.

Lemma set_services_queue_insert_id k e w :
  services_queue w !! k = Some e → set_services_queue (<[k := e]>) w = w.
Proof.
  intros Hq. destruct w. unfold set_services_queue. simpl in *.
  by rewrite insert_id.
Qed.

Lemma waiter_errors_cons ids (o : options) loads :
  waiter_errors ((ids, o) :: loads) =
  (filter (λ x, x ≠ VUndef) [error o] ++ waiter_errors loads)%list.
Proof.
  unfold waiter_errors.
  apply (filter_app _ [error o] (map (λ ld : value * options, error ld.2) loads)).
Qed.

Lemma run_waiters t n loads : ∀ fs w e,
  Forall2 (λ ld f, parsed_id ld.1 = VNum n ∧ success ld.2 = VFun f) loads fs →
  truthy (caching_flag w) = false →
  services_queue w !! retrieve_key t n = Some e →
  run_loads t loads w =
    set_services_queue
      (<[retrieve_key t n :=
           QueueEntry (q_success e ++ map VFun fs)
                      (q_error e ++ waiter_errors loads)]>) w.
Proof.
  induction loads as [|[ids o] loads IH]; intros fs w e Hall Hc Hq.
  - apply Forall2_nil_inv_l in Hall as ->. simpl.
    unfold waiter_errors. simpl. rewrite !app_nil_r.
    destruct e. by rewrite set_services_queue_insert_id.
  - apply Forall2_cons_inv_l in Hall as (f & fs' & [Hid Hf] & Hall & ->).
    simpl in Hid, Hf. simpl. unfold exec.
    rewrite (entity_load_waiter _ _ _ _ _ _ _ Hid Hc Hf Hq). simpl.
    erewrite IH; [|exact Hall|exact Hc|simpl; apply lookup_insert_eq].
    rewrite set_services_queue_twice. simpl.
    rewrite waiter_errors_cons, <- !app_assoc. simpl.
    unfold set_services_queue. simpl. by rewrite insert_insert_eq.
Qed.


Lemma _entity_get_expiration_time_spec w :
  ∃ lines, _entity_get_expiration_time w =
           (Ok (expiration_time w), set_console (λ c, (c ++ lines)%list) w).
Proof.
  unfold _entity_get_expiration_time, expiration_time. js_run.
  assert (Hnil : set_console (λ c, (c ++ [])%list) w = w).
  { destruct w. unfold set_console. simpl. by rewrite app_nil_r. }
  destruct (settings_cache_entity w) as [ce|]; js_run.
  - exists []. rewrite Hnil.
    destruct (ce_enabled ce); [|done].
    destruct (ce_expiration ce) as [ttl|]; js_run; [|done].
    by destruct (ttl =? 0)%Z.
  - eexists [_]. reflexivity.
Qed.

Lemma _entity_set_expiration_time_spec l ob w :
  heap_of w !! l = Some ob →
  ∃ lines, _entity_set_expiration_time (VRef l) w =
           (Ok VUndef,
            set_console (λ c, (c ++ lines)%list)
              (set_heap (<[l := with_expiration (expiration_time w) ob]>) w)).
Proof.
  intros Hl. destruct (_entity_get_expiration_time_spec w) as [lines Hx].
  exists lines. unfold _entity_set_expiration_time, try_catch.
  rewrite (bind_ok _ _ _ _ _ Hx). unfold set_prop. js_run.
  destruct w. unfold set_heap, set_console. simpl in *. by rewrite Hl.
Qed.

Lemma _entity_local_storage_save_spec t n v w :
  ∃ lines, _entity_local_storage_save t (VNum n) v w =
           (Ok VUndef,
            set_console (λ c, (c ++ lines)%list)
              (set_localStorage
                 (cache_write (entity_key t n) (heap_of w) v (storage_full w)) w)).
Proof.
  unfold _entity_local_storage_save, _entity_local_storage_save_try,
    entity_local_storage_key, JSON_stringify, cache_write, entity_key.
  js_run.
  destruct (JSON_stringify_fuel (size (heap_of w)) (heap_of w) v) as [r|];
    js_run.
  - destruct (storage_full w) eqn:Hfull; js_run.
    + eexists [_]. by destruct w.
    + exists []. destruct w. unfold set_console, set_localStorage. simpl.
      by rewrite app_nil_r.
  - eexists [_]. by destruct w.
Qed.
(** C10. When the success wrapper was built with caching enabled and the
    remote handler hands it an entity object, the wrapper first sets the
    field [expiration] on that very object, then writes the object so
    changed to the cache, then calls the queued success callbacks: each of
    them receives the same object and sees it with the injected
    expiration. *)
Theorem success_wrapper_injects_expiration (co : call_options) (n : Z)
  (l : nat) (ob : object) (fs : list string) (errs : list value) (w : world) :
  truthy (co_caching_enabled co) = true →
  co_entity_id co = VNum n →
  heap_of w !! l = Some ob →
  services_queue w !! retrieve_key (co_entity_type co) n =
    Some (QueueEntry (map VFun fs) errs) →
  eval (call_options_success co (VRef l)) w = Ok VUndef ∧
  heap_of (exec (call_options_success co (VRef l)) w) =
    <[l := with_expiration (expiration_time w) ob]> (heap_of w) ∧
  obj_get "expiration"
    (o_fields (with_expiration (expiration_time w) ob)) = expiration_time w ∧
  localStorage (exec (call_options_success co (VRef l)) w) =
    cache_write (entity_key (co_entity_type co) n)
      (<[l := with_expiration (expiration_time w) ob]> (heap_of w))
      (VRef l) (storage_full w) (localStorage w) ∧
  trace (exec (call_options_success co (VRef l)) w) =
    (trace w ++
     fan_out fs (VRef l)
       (<[l := with_expiration (expiration_time w) ob]> (heap_of w)))%list.
Proof.
  intros Hc Hid Hl Hq.
  destruct (_entity_set_expiration_time_spec l ob w Hl) as [l1 H1].
  destruct (_entity_local_storage_save_spec (co_entity_type co) n (VRef l)
    (set_console (λ c, (c ++ l1)%list)
       (set_heap (<[l := with_expiration (expiration_time w) ob]>) w)))
    as [l2 H2].
  unfold eval, exec, call_options_success, try_catch.
  rewrite Hc, Hid. unfold when.
  rewrite (bind_assoc (_entity_set_expiration_time (VRef l))).
  rewrite (bind_ok _ _ _ _ _ H1).
  rewrite (bind_assoc (_entity_local_storage_save _ _ _)).
  rewrite (bind_ok _ _ _ _ _ H2).
  rewrite (bind_ok (ret tt) _ _ tt _ eq_refl).
  rewrite (success_fan_out _ n fs errs (VRef l)) by exact Hq.
  simpl. repeat split; try reflexivity.
  unfold with_expiration. simpl. apply obj_get_set_eq.
Qed.

Lemma quiet_refl w : quiet w w.
Proof. split; [done|]. exists []. by rewrite app_nil_r. Qed.

Lemma quiet_trans w1 w2 w3 : quiet w1 w2 → quiet w2 w3 → quiet w1 w3.
Proof.
  intros [Hq1 (e1 & Ht1 & Hp1)] [Hq2 (e2 & Ht2 & Hp2)]. split; [congruence|].
  exists (e1 ++ e2)%list. rewrite Ht2, Ht1, app_assoc. split; [done|].
  by apply Forall_app.
Qed.

Lemma quietly_ret {A} (a : A) : quietly (ret a).
Proof. intros w. apply quiet_refl. Qed.

Lemma quietly_gets {A} (f : world → A) : quietly (gets f).
Proof. intros w. apply quiet_refl. Qed.

Lemma quietly_throw {A} e : quietly (throw (A := A) e).
Proof. intros w. apply quiet_refl. Qed.

Lemma quietly_bind {A B} (m : M A) (k : A → M B) :
  quietly m → (∀ a, quietly (k a)) → quietly (bind m k).
Proof.
  intros Hm Hk w. unfold bind. specialize (Hm w).
  destruct (m w) as [[a|e] w']; simpl in *; [|done].
  eapply quiet_trans; [exact Hm|apply Hk].
Qed.

Lemma quietly_try_catch {A} (m : M A) (h : string → M A) :
  quietly m → (∀ e, quietly (h e)) → quietly (try_catch m h).
Proof.
  intros Hm Hh w. unfold try_catch. specialize (Hm w).
  destruct (m w) as [[a|e] w']; simpl in *; [done|].
  eapply quiet_trans; [exact Hm|apply Hh].
Qed.

Lemma quietly_when b m : quietly m → quietly (when b m).
Proof. destruct b; [done|]. intros _. apply quietly_ret. Qed.

Lemma quietly_for_each {A} (body : A → M unit) l :
  (∀ x, quietly (body x)) → quietly (for_each body l).
Proof.
  intros Hb. induction l as [|x l IH]; simpl.
  - apply quietly_ret.
  - apply quietly_bind; [apply Hb|]. intros _. exact IH.
Qed.

Lemma quietly_modify (f : world → world) :
  (∀ w, services_queue (f w) = services_queue w ∧ trace (f w) = trace w) →
  quietly (modify f).
Proof.
  intros Hf w. simpl. destruct (Hf w) as [Hq Ht]. split; [done|].
  exists []. by rewrite app_nil_r.
Qed.

Lemma quietly_console_log msg : quietly (console_log msg).
Proof. by apply quietly_modify. Qed.

Lemma quietly_call f args : plain_args args → quietly (call f args).
Proof.
  intros Hp w. destruct f; try apply quiet_refl. simpl.
  split; [done|]. eexists [_]. split; [reflexivity|].
  by apply Forall_singleton.
Qed.

Lemma plain_values (vs : list value) : plain_args (AVal <$> vs).
Proof.
  intros co Hin. apply list_elem_of_fmap in Hin as (v & ? & _). done.
Qed.
Create HintDb quiet discriminated.

Ltac solve_plain :=
  let co := fresh "co" in
  let Hin := fresh "Hin" in
  intros co Hin;
  repeat (apply elem_of_cons in Hin as [Hin|Hin]; [discriminate|]);
  by apply elem_of_nil in Hin.

Ltac quiet_step :=
  first
    [ solve [eauto with quiet]
    | apply quietly_ret | apply quietly_gets | apply quietly_throw
    | apply quietly_console_log
    | apply quietly_bind; [|intros ?]
    | apply quietly_try_catch; [|intros ?]
    | apply quietly_when
    | apply quietly_for_each; intros ?
    | apply quietly_modify; intros ?; split; reflexivity
    | apply quietly_call; solve_plain
    | match goal with
      | |- quietly (match ?x with _ => _ end) => destruct x
      | |- quietly (if ?b then _ else _) => destruct b
      end ].
Ltac quiet_auto := repeat quiet_step.

Lemma quietly_time : quietly time.
Proof. unfold time. quiet_auto. Qed.
Lemma quietly_getItem k : quietly (getItem k).
Proof. unfold getItem. quiet_auto. Qed.
Lemma quietly_setItem k t : quietly (setItem k t).
Proof.
  intros w. unfold setItem. destruct (storage_full w); [apply quiet_refl|].
  split; [done|]. exists []. simpl. by rewrite app_nil_r.
Qed.
Lemma quietly_removeItem k : quietly (removeItem k).
Proof. unfold removeItem. quiet_auto. Qed.
Lemma quietly_JSON_parse t : quietly (JSON_parse t).
Proof.
  destruct t; [|apply quietly_throw]. intros w. simpl.
  destruct (JSON_parse_tree j (heap_of w)).
  split; [done|]. exists []. simpl. by rewrite app_nil_r.
Qed.
Lemma quietly_JSON_stringify v : quietly (JSON_stringify v).
Proof.
  intros w. unfold JSON_stringify.
  destruct (JSON_stringify_fuel _ _ _); apply quiet_refl.
Qed.
Lemma quietly_new_object o : quietly (new_object o).
Proof.
  intros w. split; [done|]. exists []. simpl. by rewrite app_nil_r.
Qed.
Lemma quietly_get_prop v k : quietly (get_prop v k).
Proof. unfold get_prop. quiet_auto. Qed.
Lemma quietly_get_index v i : quietly (get_index v i).
Proof. unfold get_index. quiet_auto. Qed.
Lemma quietly_set_prop v k x : quietly (set_prop v k x).
Proof. unfold set_prop. quiet_auto. Qed.
Lemma quietly_array_push a x : quietly (array_push a x).
Proof. unfold array_push. quiet_auto. Qed.
Lemma quietly_opt_field f name o : quietly (opt_field f name o).
Proof. unfold opt_field. quiet_auto. Qed.
Lemma quietly_function_exists name : quietly (function_exists name).
Proof. unfold function_exists. quiet_auto. Qed.
Lemma quietly_window_get name : quietly (window_get name).
Proof. unfold window_get. quiet_auto. Qed.
Lemma quietly_language_default : quietly language_default.
Proof. unfold language_default. quiet_auto. Qed.
#[local] Hint Resolve quietly_time quietly_getItem quietly_setItem
  quietly_removeItem quietly_JSON_parse quietly_JSON_stringify
  quietly_new_object quietly_get_prop quietly_get_index quietly_set_prop
  quietly_array_push quietly_opt_field quietly_function_exists
  quietly_window_get quietly_language_default : quiet.

Lemma quietly_drupalgap_function_exists name :
  quietly (drupalgap_function_exists name).
Proof. unfold drupalgap_function_exists. quiet_auto. Qed.
Lemma quietly_drupalgap_page_options : quietly drupalgap_page_options.
Proof. unfold drupalgap_page_options. quiet_auto. Qed.
Lemma quietly_entity_local_storage_key t id :
  quietly (entity_local_storage_key t id).
Proof. unfold entity_local_storage_key. quiet_auto. Qed.
#[local] Hint Resolve quietly_drupalgap_function_exists
  quietly_drupalgap_page_options quietly_entity_local_storage_key : quiet.

Lemma quietly_entity_local_storage_delete t id :
  quietly (_entity_local_storage_delete t id).
Proof.
  unfold _entity_local_storage_delete, _entity_local_storage_delete_try.
  quiet_auto.
Qed.
#[local] Hint Resolve quietly_entity_local_storage_delete : quiet.

Lemma quietly_entity_local_storage_load t id o :
  quietly (_entity_local_storage_load t id o).
Proof.
  unfold _entity_local_storage_load, _entity_local_storage_load_try.
  quiet_auto.
Qed.
Lemma quietly_entity_local_storage_save t id e :
  quietly (_entity_local_storage_save t id e).
Proof.
  unfold _entity_local_storage_save, _entity_local_storage_save_try.
  quiet_auto.
Qed.
Lemma quietly_entity_primary_key t : quietly (entity_primary_key t).
Proof. unfold entity_primary_key, entity_primary_key_try. quiet_auto. Qed.
Lemma quietly_entity_caching_enabled : quietly entity_caching_enabled.
Proof. unfold entity_caching_enabled. quiet_auto. Qed.
Lemma quietly_entity_get_expiration_time : quietly _entity_get_expiration_time.
Proof. unfold _entity_get_expiration_time. quiet_auto. Qed.
#[local] Hint Resolve quietly_entity_local_storage_load
  quietly_entity_local_storage_save quietly_entity_primary_key
  quietly_entity_caching_enabled quietly_entity_get_expiration_time : quiet.

Lemma quietly_entity_set_expiration_time e :
  quietly (_entity_set_expiration_time e).
Proof. unfold _entity_set_expiration_time. quiet_auto. Qed.
Lemma quietly_entity_index_local_storage_delete p :
  quietly (_entity_index_local_storage_delete p).
Proof. unfold _entity_index_local_storage_delete. quiet_auto. Qed.
#[local] Hint Resolve quietly_entity_set_expiration_time
  quietly_entity_index_local_storage_delete : quiet.

Lemma quietly_entity_index_local_storage_load t p o :
  quietly (_entity_index_local_storage_load t p o).
Proof. unfold _entity_index_local_storage_load. quiet_auto. Qed.
Lemma quietly_entity_index_local_storage_save t p r :
  quietly (_entity_index_local_storage_save t p r).
Proof. unfold _entity_index_local_storage_save. quiet_auto. Qed.
Lemma quietly_entity_delete t ids o : quietly (entity_delete t ids o).
Proof. unfold entity_delete, entity_delete_try. quiet_auto. Qed.
Lemma quietly_entity_save t b e o : quietly (entity_save t b e o).
Proof.
  unfold entity_save, entity_save_try, create_or_update. quiet_auto.
Qed.
Lemma quietly_call_options_error co x s m :
  quietly (call_options_error co x s m).
Proof. unfold call_options_error. quiet_auto. Qed.
Lemma quietly_entity_load_from_cache c t id o :
  quietly (entity_load_from_cache c t id o).
Proof. unfold entity_load_from_cache. quiet_auto. Qed.
Lemma bind_cases {A B} (m : M A) (k : A → M B) w (P : world → Prop) :
  (∀ a w', m w = (Ok a, w') → P (k a w').2) →
  (∀ e w', m w = (Throw e, w') → P w') →
  P (bind m k w).2.
Proof.
  intros Hok Hthrow. unfold bind.
  destruct (m w) as [[a|e] w'] eqn:Em; [by apply Hok|by apply (Hthrow e)].
Qed.

Lemma quiet_preserves o w w' : quiet w w' → queue_inv o w → queue_inv o w'.
Proof.
  intros [Hq (evs & Ht & Hp)] [Hw Ho]. split.
  - intros ev co Hev Hco. rewrite Ht in Hev. rewrite Hq.
    apply elem_of_app in Hev as [Hev|Hev]; [by apply (Hw ev)|].
    rewrite Forall_forall in Hp. by destruct (Hp ev Hev co).
  - rewrite Hq. exact Ho.
Qed.

Lemma quietly_preserves {A} (m : M A) o w :
  quietly m → queue_inv o w → queue_inv o (m w).2.
Proof. intros Hm. apply quiet_preserves, Hm. Qed.

(** The catch clause of every operation only logs. *)
Lemma catch_preserves (body : M value) prefix o w :
  queue_inv o (body w).2 →
  queue_inv o
    (try_catch body (λ error, console_log (prefix +:+ error) ;; ret VUndef) w).2.
Proof.
  unfold try_catch. destruct (body w) as [[v|e] w']; simpl; [done|].
  apply quiet_preserves. split; [done|]. exists []. by rewrite app_nil_r.
Qed.

(** An entry that appears, or whose success list grows, keeps the
    invariant. *)
Lemma entry_update_preserves o k e' w :
  (∀ e, services_queue w !! k = Some e → q_success e `prefix_of` q_success e') →
  queue_inv o w →
  queue_inv o (set_services_queue (<[k := e']>) w).
Proof.
  intros Hgrow [Hw Ho]. split; simpl.
  - intros ev co Hev Hco. destruct (Hw ev co Hev Hco) as (m & Hid & Hs & Hne).
    exists m. split; [done|]. split; [|done].
    destruct (decide (k = retrieve_key (co_entity_type co) m)) as [->|Hk].
    + rewrite lookup_insert_eq. eauto.
    + by rewrite lookup_insert_ne.
  - intros k0 f Hof. destruct (Ho k0 f Hof) as (e & He & Hpre).
    destruct (decide (k = k0)) as [->|Hk].
    + rewrite lookup_insert_eq. eexists. split; [done|].
      etrans; [exact Hpre|]. by apply Hgrow.
    + rewrite lookup_insert_ne by done. eauto.
Qed.

(** Handing out the wrapper of a key that has an entry and is not the
    orphan keeps the invariant. *)
Lemma dispatch_preserves o t m c opts pk name ids hp w :
  is_Some (services_queue w !! retrieve_key t m) →
  (∀ k f, o = Some (k, f) → retrieve_key t m ≠ k) →
  queue_inv o w →
  queue_inv o
    (set_trace (λ tr, (tr ++ [EvCall name
                                [AVal ids; ACallOpts (CallOptions t (VNum m) c opts pk)]
                                hp])%list) w).
Proof.
  intros Hs Hne [Hw Ho]. split; simpl; [|exact Ho].
  intros ev co Hev Hco. apply elem_of_app in Hev as [Hev|Hev].
  - by apply (Hw ev).
  - apply list_elem_of_singleton in Hev as ->. unfold carries in Hco. simpl in Hco.
    apply elem_of_cons in Hco as [Hco|Hco]; [discriminate|].
    apply list_elem_of_singleton in Hco. injection Hco as ->. simpl.
    exists m. eauto.
Qed.

Lemma is_int_parsed ids : is_int ids = true → ∃ m, parsed_id ids = VNum m.
Proof.
  destruct ids; simpl; try done; [eauto|].
  intros Hs. apply bool_decide_eq_true_1 in Hs as [m Hm]. rewrite Hm. eauto.
Qed.
Lemma callback_add_preserves o t m kind s w :
  is_Some (services_queue w !! retrieve_key t m) →
  queue_inv o w →
  ∃ w', _services_queue_callback_add t "retrieve" (VNum m) kind s w = (Ok tt, w') ∧
        queue_inv o w' ∧
        is_Some (services_queue w' !! retrieve_key t m).
Proof.
  intros [e He] Hinv.
  unfold _services_queue_callback_add, retrieve_key in *. js_run. rewrite He.
  destruct (String.eqb kind "success"); [|destruct (String.eqb kind "error")];
    js_run; eexists; (split; [reflexivity|]).
  - split; [|simpl; rewrite lookup_insert_eq; eauto].
    apply entry_update_preserves; [|done].
    intros e0 He0. rewrite He in He0. injection He0 as <-. simpl.
    by apply prefix_app_r.
  - split; [|simpl; rewrite lookup_insert_eq; eauto].
    apply entry_update_preserves; [|done].
    intros e0 He0. rewrite He in He0. by injection He0 as <-.
  - split; [|simpl; eauto].
    eapply quiet_preserves; [|exact Hinv].
    split; [done|]. exists []. by rewrite app_nil_r.
Qed.

Lemma entity_load_preserves o t ids opts w :
  queue_inv o w → queue_inv o (exec (entity_load t ids opts) w).
Proof.
  intros Hinv. unfold exec, entity_load. apply catch_preserves.
  unfold entity_load_try.
  destruct (is_int ids) eqn:Hint; cbv beta iota delta [negb].
  2: { apply quietly_preserves; [quiet_auto|done]. }
  destruct (is_int_parsed _ Hint) as [m Hid].
  rewrite (bind_ok _ _ _ _ _ (entity_caching_enabled_run w)).
  rewrite (bind_ok _ _ _ _ _ (entity_id_parse_run ids w)), Hid.
  rewrite (bind_ok _ _ _ _ _ (_services_queue_already_queued_run t m _ w)).
  destruct (services_queue w !! retrieve_key t m) as [e1|] eqn:Hq.
  - rewrite bool_decide_eq_true_2 by eauto. cbv iota.
    apply bind_cases; intros hit w2 Em;
      pose proof (quietly_entity_load_from_cache (caching_flag w) t (VNum m) opts w)
        as Hqt; rewrite Em in Hqt; simpl in Hqt;
      pose proof (quiet_preserves o _ _ Hqt Hinv) as Hinv2; [|done].
    destruct hit; [done|].
    assert (Hs2 : is_Some (services_queue w2 !! retrieve_key t m)).
    { destruct Hqt as [-> _]. eauto. }
    destruct opts as [op|]; [|done].
    rewrite (bind_ok (opt_field success "success" (Some op)) _ _ (success op) _ eq_refl).
    assert (∃ w3, when (negb (bool_decide (success op = VUndef)))
                    (_services_queue_callback_add t "retrieve" (VNum m)
                       "success" (success op)) w2 = (Ok tt, w3) ∧
                  queue_inv o w3 ∧
                  is_Some (services_queue w3 !! retrieve_key t m))
      as (w3 & E3 & Hinv3 & Hs3).
    { destruct (bool_decide (success op = VUndef)); simpl; [eauto|].
      by apply callback_add_preserves. }
    rewrite (bind_ok _ _ _ _ _ E3).
    rewrite (bind_ok (opt_field error "error" (Some op)) _ _ (error op) _ eq_refl).
    assert (∃ w4, when (negb (bool_decide (error op = VUndef)))
                    (_services_queue_callback_add t "retrieve" (VNum m)
                       "error" (error op)) w3 = (Ok tt, w4) ∧
                  queue_inv o w4 ∧
                  is_Some (services_queue w4 !! retrieve_key t m))
      as (w4 & E4 & Hinv4 & Hs4).
    { destruct (bool_decide (error op = VUndef)); simpl; [eauto|].
      by apply callback_add_preserves. }
    rewrite (bind_ok _ _ _ _ _ E4). done.
  - rewrite bool_decide_eq_false_2 by (intros [? ?]; done). cbv iota.
    rewrite (bind_ok _ _ _ _ _ (_services_queue_add_to_queue_run t m w)).
    rewrite enqueue_if_absent, Hq.
    assert (Hne : ∀ k f, o = Some (k, f) → retrieve_key t m ≠ k).
    { intros k f Hof <-. destruct Hinv as [_ Ho].
      destruct (Ho _ _ Hof) as (e & He & _). congruence. }
    assert (Hinv1 : queue_inv o
              (set_services_queue (<[retrieve_key t m := QueueEntry [] []]>) w)).
    { apply entry_update_preserves; [|done]. intros e He. congruence. }
    destruct opts as [op|]; [|done].
    rewrite (bind_ok (opt_field success "success" (Some op)) _ _ (success op) _ eq_refl).
    assert (Hs1 : is_Some (services_queue
              (set_services_queue (<[retrieve_key t m := QueueEntry [] []]>) w)
              !! retrieve_key t m)).
    { simpl. rewrite lookup_insert_eq. eauto. }
    destruct (callback_add_preserves o t m "success" (success op) _ Hs1 Hinv1)
      as (w2 & E2 & Hinv2 & Hs2).
    rewrite (bind_ok _ _ _ _ _ E2).
    apply bind_cases; intros hit w3 Em;
      pose proof (quietly_entity_load_from_cache (caching_flag w) t (VNum m)
                    (Some op) w2) as Hqt; rewrite Em in Hqt; simpl in Hqt;
      pose proof (quiet_preserves o _ _ Hqt Hinv2) as Hinv3; [|done].
    assert (Hs3 : is_Some (services_queue w3 !! retrieve_key t m)).
    { destruct Hqt as [-> _]. done. }
    destruct hit; [done|].
    destruct (in_array t entity_types); cbv beta iota delta [negb].
    2: { apply quietly_preserves; [quiet_auto|done]. }
    apply bind_cases; intros pk w4 Ek;
      pose proof (quietly_entity_primary_key t w3) as Hqk; rewrite Ek in Hqk;
      simpl in Hqk; pose proof (quiet_preserves o _ _ Hqk Hinv3) as Hinv4;
      [|done].
    assert (Hs4 : is_Some (services_queue w4 !! retrieve_key t m)).
    { destruct Hqk as [-> _]. done. }
    unfold function_exists, window_get. js_run.
    destruct (default VUndef (window w4 !! (t +:+ "_retrieve"))) eqn:Ew;
      try (simpl; apply quiet_preserves with w4; [|done]; split; [done|];
           exists []; by rewrite app_nil_r).
    unfold call. js_run. rewrite Ew. simpl. by apply dispatch_preserves.
Qed.
(** Rewriting the entry of a key other than the orphan keeps the
    invariant. *)
Lemma entry_reset_preserves o k e' w :
  (∀ k0 f, o = Some (k0, f) → k ≠ k0) →
  queue_inv o w →
  queue_inv o (set_services_queue (<[k := e']>) w).
Proof.
  intros Hne [Hw Ho]. split; simpl.
  - intros ev co Hev Hco. destruct (Hw ev co Hev Hco) as (m & Hid & Hs & Hk).
    exists m. split; [done|]. split; [|done].
    destruct (decide (k = retrieve_key (co_entity_type co) m)) as [->|Hd].
    + rewrite lookup_insert_eq. eauto.
    + by rewrite lookup_insert_ne.
  - intros k0 f Hof. destruct (Ho k0 f Hof) as (e & He & Hpre).
    rewrite lookup_insert_ne by (by apply Hne with f). eauto.
Qed.

Lemma call_options_success_preserves o co data ev w :
  ev ∈ trace w → carries ev co →
  queue_inv o w → queue_inv o (exec (call_options_success co data) w).
Proof.
  intros Hev Hco Hinv.
  destruct (proj1 Hinv ev co Hev Hco) as (m & Hid & Hs & Hne).
  unfold exec, call_options_success. apply catch_preserves.
  rewrite Hid.
  apply bind_cases; intros a w1 E1;
    assert (Hq1 : quiet w w1)
      by (pose proof (quietly_when (truthy (co_caching_enabled co))
                        (_entity_set_expiration_time data;;
                         _entity_local_storage_save (co_entity_type co) (VNum m)
                           data;; ret ())
                        ltac:(quiet_auto) w) as Hq; by rewrite E1 in Hq);
    pose proof (quiet_preserves o _ _ Hq1 Hinv) as Hinv1; [|done].
  assert (Hs1 : is_Some (services_queue w1 !! retrieve_key (co_entity_type co) m)).
  { destruct Hq1 as [-> _]. done. }
  destruct Hs1 as [e1 He1].
  rewrite (bind_ok _ _ _ _ _ (services_queue_entry_run _ _ _ _ He1)). simpl.
  apply bind_cases; intros b w2 E2;
    assert (Hq2 : quiet w1 w2)
      by (pose proof (quietly_for_each
                        (λ cb, call cb [AVal data];; ret ()) (q_success e1)
                        ltac:(intros ?; quiet_auto) w1) as Hq;
          by rewrite E2 in Hq);
    pose proof (quiet_preserves o _ _ Hq2 Hinv1) as Hinv2; [|done].
  assert (He2 : services_queue w2 !! retrieve_key (co_entity_type co) m = Some e1).
  { destruct Hq2 as [-> _]. done. }
  rewrite (bind_ok _ _ _ _ _ (services_queue_entry_run _ _ _ _ He2)). simpl.
  apply entry_reset_preserves; [|done].
  intros k0 f Hof. by apply Hne with f.
Qed.

Lemma step_preserves o w w' : step w w' → queue_inv o w → queue_inv o w'.
Proof.
  destruct 1; intros Hinv.
  - by apply entity_load_preserves.
  - apply quietly_preserves; [apply quietly_entity_save|done].
  - apply quietly_preserves; [apply quietly_entity_delete|done].
  - apply quietly_preserves; [apply quietly_entity_primary_key|done].
  - apply quietly_preserves; [apply quietly_entity_local_storage_load|done].
  - apply quietly_preserves; [apply quietly_entity_local_storage_save|done].
  - apply quietly_preserves; [apply quietly_entity_local_storage_delete|done].
  - apply quietly_preserves; [apply quietly_entity_index_local_storage_load|done].
  - apply quietly_preserves; [apply quietly_entity_index_local_storage_save|done].
  - apply quietly_preserves; [apply quietly_entity_index_local_storage_delete|done].
  - by apply call_options_success_preserves with ev.
  - apply quietly_preserves; [apply quietly_call_options_error|done].
  - apply quiet_preserves with w; [|done]. split; [done|].
    exists []. by rewrite app_nil_r.
Qed.

Lemma steps_preserve o w w' : rtc step w w' → queue_inv o w → queue_inv o w'.
Proof. induction 1; eauto using step_preserves. Qed.

Lemma queue_inv_start w : trace w = [] → queue_inv None w.
Proof.
  intros Ht. split; [|done]. intros ev co Hev. rewrite Ht in Hev.
  by apply elem_of_nil in Hev.
Qed.

(** C4. In a world reached from a start with an empty trace, where
    (type, 'retrieve', id) has no queue entry, caching is enabled and the
    cache read hits: entity_load first creates the queue entry and registers
    the success callback on it, then reads the cache from that world, and
    returns after calling the callback, the entry still in place. Whatever
    steps follow (operations of this file, answers of remote handlers to the
    retrieves they were given, changes of the environment), the entry stays,
    its success list still starts with that callback (it is never drained),
    and the key stays queued. *)
Theorem orphaned_entry_is_never_drained (t : string) (ids : value) (n : Z)
  (opts : options) (f : string) (w0 w : world) (kvs : list (string * json)) :
  trace w0 = [] → rtc step w0 w →
  parsed_id ids = VNum n →
  caching_flag w = VBool true →
  success opts = VFun f →
  reset_requested (Some opts) = false →
  page_keeps_cache w = true →
  fresh_entry w t n kvs →
  services_queue w !! retrieve_key t n = None →
  (∃ w1,
     (_services_queue_add_to_queue t "retrieve" (VNum n) ;;
      _services_queue_callback_add t "retrieve" (VNum n) "success" (VFun f)) w =
       (Ok tt, w1) ∧
     services_queue w1 !! retrieve_key t n = Some (QueueEntry [VFun f] []) ∧
     localStorage w1 = localStorage w ∧
     entity_load_from_cache (VBool true) t (VNum n) (Some opts) w1 =
       (Ok true, exec (entity_load t ids (Some opts)) w)) ∧
  services_queue (exec (entity_load t ids (Some opts)) w) !! retrieve_key t n =
    Some (QueueEntry [VFun f] []) ∧
  calls (trace (exec (entity_load t ids (Some opts)) w)) =
    (calls (trace w) ++
     [(f, [AVal (JSON_parse_tree (JObj kvs) (heap_of w)).1])])%list ∧
  ∀ w', rtc step (exec (entity_load t ids (Some opts)) w) w' →
    eval (_services_queue_already_queued t "retrieve" (VNum n) "success") w' =
      Ok true ∧
    ∃ e, services_queue w' !! retrieve_key t n = Some e ∧
         [VFun f] `prefix_of` q_success e.
Proof.
  intros Hstart Hreach Hid Hc Hf Hr Hp Hfresh Hq.
  pose proof (entity_load_hit_unqueued t ids n opts f w kvs
                Hid Hc Hf Hr Hp Hfresh Hq) as Hload.
  unfold exec. rewrite Hload. simpl snd.
  split; [|split; [|split]].
  - eexists. split; [by apply enqueue_with_success|].
    split; [apply lookup_insert_eq|]. split; [done|].
    exact (entity_load_from_cache_hit t n opts f
             (set_services_queue
                (<[retrieve_key t n := QueueEntry [VFun f] []]>) w)
             kvs Hf Hr Hfresh Hp).
  - apply lookup_insert_eq.
  - unfold calls. simpl. by rewrite map_app.
  - intros w' Hsteps.
    assert (Hinv : queue_inv (Some (retrieve_key t n, f)) w').
    { eapply steps_preserve; [exact Hsteps|].
      pose proof (steps_preserve None _ _ Hreach (queue_inv_start _ Hstart))
        as [Hw _].
      split; simpl.
      - intros ev co Hev Hco. apply elem_of_app in Hev as [Hev|Hev].
        + destruct (Hw ev co Hev Hco) as (m & Hm & Hs & _).
          exists m. split; [done|].
          assert (Hne : retrieve_key (co_entity_type co) m ≠ retrieve_key t n).
          { intros Heq. rewrite Heq, Hq in Hs. by destruct Hs. }
          split; [by rewrite lookup_insert_ne|].
          intros k f0 [= <- <-]. done.
        + apply list_elem_of_singleton in Hev as ->. unfold carries in Hco.
          simpl in Hco. apply list_elem_of_singleton in Hco. done.
      - intros k f0 [= <- <-]. eexists. split; [apply lookup_insert_eq|done]. }
    destruct Hinv as [_ Ho]. destruct (Ho _ _ eq_refl) as (e & He & Hpre).
    split; [|eauto].
    unfold eval. rewrite _services_queue_already_queued_run. simpl.
    rewrite He. by rewrite bool_decide_eq_true_2 by eauto.
Qed.

Lemma entity_types_primary_key t :
  t ∈ entity_types →
  ∃ pk, String.eqb pk "length" = false ∧
        ∀ w, entity_primary_key t w = (Ok (VStr pk), w).
Proof.
  unfold entity_types. intros Ht.
  repeat (apply elem_of_cons in Ht as [->|Ht]); [..|by apply elem_of_nil in Ht];
    eexists; (split; [|intros w; reflexivity]); reflexivity.
Qed.

Lemma expiration_time_number w e :
  expiration_time w = VNum e →
  _entity_get_expiration_time w = (Ok (VNum e), w).
Proof.
  unfold _entity_get_expiration_time, expiration_time. js_run.
  destruct (settings_cache_entity w) as [ce|]; [|done]. js_run.
  destruct (ce_enabled ce); [|done].
  destruct (ce_expiration ce) as [ttl|]; [|done]. js_run.
  destruct (ttl =? 0)%Z; by intros ->.
Qed.

Lemma set_heap_twice (f g : gmap nat object → gmap nat object) w :
  set_heap g (set_heap f w) = set_heap (g ∘ f) w.
Proof. by destruct w. Qed.

Lemma get_prop_object l ob k w :
  heap_of w !! l = Some ob → String.eqb k "length" = false →
  get_prop (VRef l) k w = (Ok (obj_get k (o_fields ob)), w).
Proof.
  intros Hl Hk. unfold get_prop. js_run. rewrite Hl, Hk.
  by destruct (o_items ob).
Qed.

(** The loop of _entity_index_local_storage_save (lines 500-502). *)
Lemma index_save_loop t pk r la fs (rest : list value) :
  ∀ (seen : list value) (ids : list Z) (acc : list value) w,
  String.eqb pk "length" = false →
  (∀ w, entity_primary_key t w = (Ok (VStr pk), w)) →
  r ≠ la →
  heap_of w !! r = Some (Obj (Some (seen ++ rest)%list) fs) →
  heap_of w !! la = Some (Obj (Some acc) []) →
  Forall2 (holds_key (heap_of w) pk) rest ids →
  for_each (λ i,
      e <- get_index (VRef r) i ;;
      key <- entity_primary_key t ;;
      h <- gets heap_of ;;
      id <- get_prop e (ToString h key) ;;
      array_push (VRef la) id)
    (seq (length seen) (length rest)) w =
  (Ok tt, set_heap (<[la := Obj (Some (acc ++ (VNum <$> ids))%list) []]>) w).
Proof.
  induction rest as [|v rest IH]; intros seen ids acc w Hlen Hpk Hne Hr Hla Hall.
  - apply Forall2_nil_inv_l in Hall as ->. simpl. rewrite app_nil_r.
    unfold ret. f_equal. destruct w. unfold set_heap. simpl in *.
    by rewrite insert_id.
  - apply Forall2_cons_inv_l in Hall as (id & ids' & Hv & Hall & ->).
    destruct Hv as (l & ob & -> & Hl & Hid).
    assert (Hlla : l ≠ la).
    { intros ->. rewrite Hla in Hl. injection Hl as <-. done. }
    cbn [length seq for_each].
    assert (Hidx : get_index (VRef r) (length seen) w = (Ok (VRef l), w)).
    { unfold get_index. js_run. rewrite Hr. simpl.
      by rewrite list_lookup_middle. }
    rewrite (bind_assoc (get_index _ _)).
    rewrite (bind_ok _ _ _ _ _ Hidx).
    rewrite (bind_assoc (entity_primary_key t)).
    rewrite (bind_ok _ _ _ _ _ (Hpk w)).
    rewrite (bind_assoc (gets heap_of)).
    rewrite (bind_ok (gets heap_of) _ _ (heap_of w) _ eq_refl).
    cbn [ToString].
    rewrite (bind_assoc (get_prop _ _)).
    rewrite (bind_ok _ _ _ _ _ (get_prop_object _ _ _ _ Hl Hlen)), Hid.
    assert (Hpush : array_push (VRef la) (VNum id) w =
              (Ok tt, set_heap (<[la := Obj (Some (acc ++ [VNum id])%list) []]>) w)).
    { unfold array_push. js_run. by rewrite Hla. }
    rewrite (bind_ok _ _ _ _ _ Hpush).
    replace (S (length seen)) with (length (seen ++ [VRef l])%list)
      by (rewrite length_app; simpl; lia).
    rewrite (IH (seen ++ [VRef l])%list ids' (acc ++ [VNum id])%list).
    + rewrite set_heap_twice. unfold set_heap. simpl.
      rewrite insert_insert_eq, <- app_assoc. reflexivity.
    + done.
    + done.
    + done.
    + simpl. rewrite lookup_insert_ne by done. by rewrite <- app_assoc.
    + simpl. apply lookup_insert_eq.
    + simpl. eapply Forall2_impl; [exact Hall|].
      intros v' id' (l' & ob' & -> & Hl' & Hid').
      exists l', ob'. split; [done|]. split; [|done].
      rewrite lookup_insert_ne; [done|].
      intros <-. rewrite Hla in Hl'. injection Hl' as <-. done.
Qed.
Lemma size_two (h : heap) a b x y :
  h !! a = Some x → h !! b = Some y → a ≠ b → ∃ k, size h = S (S k).
Proof.
  intros Ha Hb Hne.
  pose proof (map_size_delete_Some a h (mk_is_Some _ _ Ha)) as Hd.
  assert (Hb' : is_Some (delete a h !! b)) by (rewrite lookup_delete_ne; eauto).
  apply map_size_ne_0_lookup_2 in Hb'.
  destruct (size h) as [|[|k]]; simpl in Hd; [congruence|congruence|eauto].
Qed.

Lemma stringify_numbers fuel h (ids : list Z) :
  mapM (λ v, j ← JSON_stringify_fuel fuel h v; Some (default JNull j))
    (VNum <$> ids) = Some (JNum <$> ids).
Proof.
  apply mapM_Some_2. induction ids as [|id ids IH]; simpl; [constructor|].
  constructor; [by destruct fuel|exact IH].
Qed.

Lemma stringify_index h li la t e ids :
  li ≠ la →
  h !! li = Some (Obj None [("entity_type", VStr t); ("expiration", VNum e);
                            ("entity_ids", VRef la)]) →
  h !! la = Some (Obj (Some (VNum <$> ids)) []) →
  JSON_stringify_fuel (size h) h (VRef li) = Some (Some (index_entry t e ids)).
Proof.
  intros Hne Hli Hla. destruct (size_two h li la _ _ Hli Hla Hne) as [k ->].
  simpl. rewrite Hli. simpl. rewrite Hla. simpl.
  rewrite stringify_numbers. reflexivity.
Qed.

Lemma index_save_run t Q r items fs ids e w :
  t ∈ entity_types →
  expiration_time w = VNum e →
  storage_full w = false →
  heap_of w !! r = Some (Obj (Some items) fs) →
  (∀ pk, primary_key_of t w = VStr pk →
         Forall2 (holds_key (heap_of w) pk) items ids) →
  ∃ h', _entity_index_local_storage_save t Q (VRef r) w =
          (Ok VUndef,
           set_localStorage (<[Q := TJson (index_entry t e ids)]>)
             (set_heap (λ _, h') w)) ∧
        ∀ l ob, heap_of w !! l = Some ob → h' !! l = Some ob.
Proof.
  intros Ht He Hfull Hr Hall.
  destruct (entity_types_primary_key t Ht) as (pk & Hlen & Hpk).
  specialize (Hall pk). unfold primary_key_of, eval in Hall.
  rewrite Hpk in Hall. specialize (Hall eq_refl).
  set (h := heap_of w) in *.
  set (la := fresh (dom h)).
  set (h1 := <[la := Obj (Some []) []]> h).
  set (li := fresh (dom h1)).
  set (h2 := <[li := Obj None [("entity_type", VStr t); ("expiration", VNum e);
                               ("entity_ids", VRef la)]]> h1).
  assert (Hla : h !! la = None) by (apply not_elem_of_dom, is_fresh).
  assert (Hli1 : h1 !! li = None) by (apply not_elem_of_dom, is_fresh).
  assert (Hlila : li ≠ la).
  { intros Heq. rewrite Heq in Hli1. unfold h1 in Hli1.
    by rewrite lookup_insert_eq in Hli1. }
  assert (Hli : h !! li = None).
  { unfold h1 in Hli1. by rewrite lookup_insert_ne in Hli1. }
  assert (Hkeep : ∀ l ob, h !! l = Some ob → h2 !! l = Some ob).
  { intros l ob Hl. unfold h2, h1.
    rewrite !lookup_insert_ne; [done|congruence|congruence]. }
  exists (<[la := Obj (Some (VNum <$> ids)) []]> h2). split.
  - unfold _entity_index_local_storage_save, try_catch.
    rewrite (bind_ok _ _ _ _ _ (expiration_time_number _ _ He)).
    assert (Hn1 : new_object (Obj (Some []) []) w =
              (Ok (VRef la), set_heap (λ _, h1) w)) by reflexivity.
    rewrite (bind_ok _ _ _ _ _ Hn1).
    assert (Hn2 : new_object
              (Obj None [("entity_type", VStr t); ("expiration", VNum e);
                         ("entity_ids", VRef la)]) (set_heap (λ _, h1) w) =
              (Ok (VRef li), set_heap (λ _, h2) w)) by (by destruct w).
    rewrite (bind_ok _ _ _ _ _ Hn2).
    assert (Hlenp : get_prop (VRef r) "length" (set_heap (λ _, h2) w) =
              (Ok (VNum (Z.of_nat (length items))), set_heap (λ _, h2) w)).
    { unfold get_prop. js_run. by rewrite (Hkeep _ _ Hr). }
    rewrite (bind_ok _ _ _ _ _ Hlenp).
    assert (Hg : gets heap_of (set_heap (λ _, h2) w) =
              (Ok h2, set_heap (λ _, h2) w)) by reflexivity.
    rewrite (bind_ok _ _ _ _ _ Hg).
    unfold loop_bound. cbn [ToNumber]. rewrite Nat2Z.id.
    rewrite (bind_ok _ _ _ _ _
      (index_save_loop t pk r la fs items [] ids [] (set_heap (λ _, h2) w)
         Hlen Hpk
         ltac:(intros ->; unfold h in *; congruence)
         (Hkeep _ _ Hr)
         ltac:(unfold h2, h1; simpl; rewrite lookup_insert_ne by done;
               apply lookup_insert_eq)
         ltac:(eapply Forall2_impl; [exact Hall|];
               intros v id (l & ob & -> & Hl & Hid);
               exists l, ob; repeat split; [by apply Hkeep|done]))).
    rewrite app_nil_l.
    assert (Hstr : JSON_stringify (VRef li)
              (set_heap (<[la := Obj (Some (VNum <$> ids)) []]>)
                 (set_heap (λ _, h2) w)) =
              (Ok (Some (index_entry t e ids)),
               set_heap (<[la := Obj (Some (VNum <$> ids)) []]>)
                 (set_heap (λ _, h2) w))).
    { unfold JSON_stringify. simpl heap_of.
      rewrite (stringify_index _ li la t e ids Hlila); [done| |].
      - rewrite lookup_insert_ne by done. apply lookup_insert_eq.
      - apply lookup_insert_eq. }
    rewrite (bind_ok _ _ _ _ _ Hstr).
    unfold setItem, entity_index_local_storage_key. js_run. rewrite Hfull.
    by destruct w.
  - intros l ob Hl. rewrite lookup_insert_ne; [by apply Hkeep|].
    intros <-. fold h in Hl. congruence.
Qed.
Lemma json_nested_ind (P : json → Prop) :
  P JNull → (∀ b, P (JBool b)) → (∀ n, P (JNum n)) → (∀ s, P (JStr s)) →
  (∀ js, Forall P js → P (JArr js)) →
  (∀ kvs, Forall (λ kv, P kv.2) kvs → P (JObj kvs)) →
  ∀ j, P j.
Proof.
  intros HNull HBool HNum HStr HArr HObj.
  fix IH 1. intros [|b|n|s|js|kvs].
  - exact HNull.
  - apply HBool.
  - apply HNum.
  - apply HStr.
  - apply HArr. induction js as [|j js IHjs]; constructor;
      [apply IH|exact IHjs].
  - apply HObj. induction kvs as [|[k j] kvs IHkvs]; constructor;
      [apply IH|exact IHkvs].
Qed.

Lemma alloc_extends o (h : heap) l ob :
  h !! l = Some ob → (alloc o h).2 !! l = Some ob.
Proof.
  intros Hl. unfold alloc. simpl. rewrite lookup_insert_ne; [done|].
  intros <-. pose proof (is_fresh (dom h)) as Hf.
  apply not_elem_of_dom in Hf. congruence.
Qed.

Lemma JSON_parse_tree_extends j : ∀ (h : heap) l ob,
  h !! l = Some ob → (JSON_parse_tree j h).2 !! l = Some ob.
Proof.
  induction j as [| | | |js IH|kvs IH] using json_nested_ind;
    intros h l ob Hl; try done.
  - rewrite JSON_parse_tree_arr.
    assert (Hitems : (parse_items JSON_parse_tree js h).2 !! l = Some ob).
    { revert h Hl. induction IH as [|j js Hj _ IHjs]; intros h Hl; [done|].
      simpl. specialize (Hj h l ob Hl).
      destruct (JSON_parse_tree j h) as [v h1]. simpl in Hj.
      specialize (IHjs h1 Hj).
      destruct (parse_items JSON_parse_tree js h1) as [vs h2]. done. }
    destruct (parse_items JSON_parse_tree js h) as [vs h1].
    by apply alloc_extends.
  - rewrite JSON_parse_tree_obj.
    assert (Hfields : ∀ acc,
              (parse_fields JSON_parse_tree kvs acc h).2 !! l = Some ob).
    { revert h Hl. induction IH as [|[k j] kvs Hj _ IHkvs]; intros h Hl acc;
        [done|].
      simpl. specialize (Hj h l ob Hl). simpl in Hj.
      destruct (JSON_parse_tree j h) as [v h1]. simpl in Hj.
      by apply IHkvs. }
    specialize (Hfields []).
    destruct (parse_fields JSON_parse_tree kvs [] h) as [fs h1].
    by apply alloc_extends.
Qed.

Lemma extends_refl w : extends w w.
Proof. by intros l ob. Qed.

Lemma extends_trans w1 w2 w3 : extends w1 w2 → extends w2 w3 → extends w1 w3.
Proof. intros H1 H2 l ob Hl. by apply H2, H1. Qed.

Lemma extending_ret {A} (a : A) : extending (ret a).
Proof. intros w. apply extends_refl. Qed.

Lemma extending_gets {A} (f : world → A) : extending (gets f).
Proof. intros w. apply extends_refl. Qed.

Lemma extending_throw {A} e : extending (throw (A := A) e).
Proof. intros w. apply extends_refl. Qed.

Lemma extending_bind {A B} (m : M A) (k : A → M B) :
  extending m → (∀ a, extending (k a)) → extending (bind m k).
Proof.
  intros Hm Hk w. unfold bind. specialize (Hm w).
  destruct (m w) as [[a|e] w']; simpl in *; [|done].
  eapply extends_trans; [exact Hm|apply Hk].
Qed.

Lemma extending_try_catch {A} (m : M A) (h : string → M A) :
  extending m → (∀ e, extending (h e)) → extending (try_catch m h).
Proof.
  intros Hm Hh w. unfold try_catch. specialize (Hm w).
  destruct (m w) as [[a|e] w']; simpl in *; [done|].
  eapply extends_trans; [exact Hm|apply Hh].
Qed.

Lemma extending_modify (f : world → world) :
  (∀ w, heap_of (f w) = heap_of w) → extending (modify f).
Proof. intros Hf w l ob. simpl. by rewrite Hf. Qed.

Lemma extending_JSON_parse t : extending (JSON_parse t).
Proof.
  destruct t; [|apply extending_throw]. intros w l ob Hl. simpl.
  pose proof (JSON_parse_tree_extends j (heap_of w) l ob Hl) as Hp.
  by destruct (JSON_parse_tree j (heap_of w)).
Qed.

Ltac extending_step :=
  first
    [ apply extending_ret | apply extending_gets | apply extending_throw
    | apply extending_JSON_parse
    | apply extending_bind; [|intros ?]
    | apply extending_try_catch; [|intros ?]
    | apply extending_modify; intros ?; reflexivity
    | match goal with
      | |- extending (match ?x with _ => _ end) => destruct x
      | |- extending (if ?b then _ else _) => destruct b
      end ].

Lemma extending_entity_local_storage_load t id o :
  extending (_entity_local_storage_load t id o).
Proof.
  unfold _entity_local_storage_load, _entity_local_storage_load_try,
    _entity_local_storage_delete, _entity_local_storage_delete_try,
    entity_local_storage_key, drupalgap_page_options, get_prop, getItem,
    removeItem, time, console_log.
  repeat extending_step.
Qed.
Lemma parse_items_numbers (ids : list Z) (h : heap) :
  parse_items JSON_parse_tree (JNum <$> ids) h = (VNum <$> ids, h).
Proof.
  induction ids as [|id ids IH]; [done|].
  simpl. change (list_fmap Z json JNum ids) with (JNum <$> ids).
  by rewrite IH.
Qed.

Lemma parse_index t e ids (h : heap) :
  JSON_parse_tree (index_entry t e ids) h =
  (VRef (fresh (dom (<[fresh (dom h) := Obj (Some (VNum <$> ids)) []]> h))),
   <[fresh (dom (<[fresh (dom h) := Obj (Some (VNum <$> ids)) []]> h)) :=
       Obj None [("entity_type", VStr t); ("expiration", VNum e);
                 ("entity_ids", VRef (fresh (dom h)))]]>
     (<[fresh (dom h) := Obj (Some (VNum <$> ids)) []]> h)).
Proof.
  unfold index_entry. rewrite JSON_parse_tree_obj. cbn [parse_fields].
  rewrite (json_prim_parse (JStr t) (VStr t)) by done.
  rewrite (json_prim_parse (JNum e) (VNum e)) by done.
  rewrite JSON_parse_tree_arr, parse_items_numbers. reflexivity.
Qed.

Lemma _entity_local_storage_load_ok t id o w :
  ∃ v w', _entity_local_storage_load t id o w = (Ok v, w').
Proof.
  apply (try_catch_boundary "_entity_local_storage_load - "
           (_entity_local_storage_load_try t id o) w).
Qed.

(** The loop of _entity_index_local_storage_load (lines 469-477). *)
Lemma index_load_loop t o la lr (rest : list Z) :
  ∀ (seen : list Z) (acc : list value) w,
  la ≠ lr →
  heap_of w !! la = Some (Obj (Some (VNum <$> (seen ++ rest)%list)) []) →
  heap_of w !! lr = Some (Obj (Some acc) []) →
  ∃ vs w',
    for_each (λ i,
        id <- get_index (VRef la) i ;;
        e <- _entity_local_storage_load t id o ;;
        array_push (VRef lr) e)
      (seq (length seen) (length rest)) w = (Ok tt, w') ∧
    replayed t o lr rest w vs w' ∧
    heap_of w' !! lr = Some (Obj (Some (acc ++ vs)%list) []).
Proof.
  induction rest as [|id rest IH]; intros seen acc w Hne Hla Hlr.
  - exists [], w. rewrite app_nil_r. split; [done|]. split; [constructor|done].
  - cbn [length seq for_each].
    assert (Hidx : get_index (VRef la) (length seen) w = (Ok (VNum id), w)).
    { unfold get_index. js_run. rewrite Hla. simpl.
      rewrite fmap_app. simpl.
      rewrite list_lookup_middle by (by rewrite length_fmap). done. }
    destruct (_entity_local_storage_load_ok t (VNum id) o w) as (v & w1 & Hv).
    pose proof (extending_entity_local_storage_load t (VNum id) o w) as Hext.
    rewrite Hv in Hext. simpl in Hext.
    assert (Hpush : array_push (VRef lr) v w1 =
              (Ok tt, set_heap (<[lr := Obj (Some (acc ++ [v])%list) []]>) w1)).
    { unfold array_push. js_run. by rewrite (Hext _ _ Hlr). }
    destruct (IH (seen ++ [id])%list (acc ++ [v])%list
                (set_heap (<[lr := Obj (Some (acc ++ [v])%list) []]>) w1))
      as (vs & w' & Hloop & Hrep & Hres).
    + done.
    + simpl. rewrite lookup_insert_ne by done. rewrite <- app_assoc.
      by apply Hext.
    + simpl. apply lookup_insert_eq.
    + exists (v :: vs), w'. split; [|split].
      * rewrite (bind_assoc (get_index _ _)), (bind_ok _ _ _ _ _ Hidx).
        rewrite (bind_assoc (_entity_local_storage_load _ _ _)).
        rewrite (bind_ok _ _ _ _ _ Hv), (bind_ok _ _ _ _ _ Hpush).
        rewrite length_app in Hloop. simpl in Hloop.
        by rewrite Nat.add_1_r in Hloop.
      * econstructor; [exact Hv|]. unfold exec. by rewrite Hpush.
      * by rewrite <- app_assoc in Hres.
Qed.

Lemma index_load_run t Q o e ids w :
  reset_requested o = false →
  localStorage w !! Q = Some (TJson (index_entry t e ids)) →
  expired (heap_of w) (now w) (VNum e) = false →
  ∃ lr hs vs w',
    _entity_index_local_storage_load t Q o w = (Ok (VRef lr), w') ∧
    heap_of w !! lr = None ∧
    hs !! lr = Some (Obj (Some []) []) ∧
    (∀ l ob, heap_of w !! l = Some ob → hs !! l = Some ob) ∧
    replayed t o lr ids (set_heap (λ _, hs) w) vs w' ∧
    heap_of w' !! lr = Some (Obj (Some vs) []).
Proof.
  intros Hr Hs Hx.
  set (h := heap_of w) in *.
  set (la := fresh (dom h)).
  set (h1 := <[la := Obj (Some (VNum <$> ids)) []]> h).
  set (li := fresh (dom h1)).
  set (h2 := <[li := Obj None [("entity_type", VStr t); ("expiration", VNum e);
                               ("entity_ids", VRef la)]]> h1).
  set (lr := fresh (dom h2)).
  set (h3 := <[lr := Obj (Some []) []]> h2).
  assert (Hla : h !! la = None) by (apply not_elem_of_dom, is_fresh).
  assert (Hli1 : h1 !! li = None) by (apply not_elem_of_dom, is_fresh).
  assert (Hlr2 : h2 !! lr = None) by (apply not_elem_of_dom, is_fresh).
  assert (Hlila : li ≠ la).
  { intros Heq. rewrite Heq in Hli1. unfold h1 in Hli1.
    by rewrite lookup_insert_eq in Hli1. }
  assert (Hlrli : lr ≠ li).
  { intros Heq. rewrite Heq in Hlr2. unfold h2 in Hlr2.
    by rewrite lookup_insert_eq in Hlr2. }
  assert (Hlr1 : h1 !! lr = None).
  { unfold h2 in Hlr2. by rewrite lookup_insert_ne in Hlr2. }
  assert (Hlrla : lr ≠ la).
  { intros Heq. rewrite Heq in Hlr1. unfold h1 in Hlr1.
    by rewrite lookup_insert_eq in Hlr1. }
  assert (Hlr : h !! lr = None).
  { unfold h1 in Hlr1. by rewrite lookup_insert_ne in Hlr1. }
  assert (Hli : h !! li = None).
  { unfold h1 in Hli1. by rewrite lookup_insert_ne in Hli1. }
  destruct (index_load_loop t o la lr ids [] [] (set_heap (λ _, h3) w))
    as (vs & w' & Hloop & Hrep & Hres).
  { done. }
  { simpl. unfold h3, h2, h1. rewrite !lookup_insert_ne by done.
    apply lookup_insert_eq. }
  { simpl. apply lookup_insert_eq. }
  exists lr, h3, vs, w'. split; [|split; [done|split; [apply lookup_insert_eq|]]].
  - unfold _entity_index_local_storage_load, try_catch.
    assert (Hpre : (match o with
       | Some o0 => if truthy (reset o0)
                    then _entity_index_local_storage_delete Q;; ret ()
                    else ret ()
       | None => ret ()
       end) w = (Ok tt, w)).
    { destruct o as [o|]; simpl in *; [rewrite Hr|]; reflexivity. }
    rewrite (bind_ok _ _ _ _ _ Hpre).
    assert (Hget : getItem (entity_index_local_storage_key Q) w =
              (Ok (Some (TJson (index_entry t e ids))), w)).
    { unfold getItem, gets, entity_index_local_storage_key. by rewrite Hs. }
    rewrite (bind_ok _ _ _ _ _ Hget). cbn [text_truthy].
    assert (Hparse : JSON_parse (TJson (index_entry t e ids)) w =
              (Ok (VRef li), set_heap (λ _, h2) w)).
    { unfold JSON_parse. fold h. by rewrite parse_index. }
    rewrite (bind_ok _ _ _ _ _ Hparse).
    assert (Hexp : get_prop (VRef li) "expiration" (set_heap (λ _, h2) w) =
              (Ok (VNum e), set_heap (λ _, h2) w)).
    { unfold get_prop. js_run. unfold h2. by rewrite lookup_insert_eq. }
    rewrite (bind_ok _ _ _ _ _ Hexp).
    assert (Hg : gets heap_of (set_heap (λ _, h2) w) =
              (Ok h2, set_heap (λ _, h2) w)) by reflexivity.
    rewrite (bind_ok _ _ _ _ _ Hg).
    assert (Ht : time (set_heap (λ _, h2) w) =
              (Ok (now w), set_heap (λ _, h2) w)) by reflexivity.
    rewrite (bind_ok _ _ _ _ _ Ht).
    rewrite (expired_prim h2 h) by done. rewrite Hx.
    assert (Hnew : new_object (Obj (Some []) []) (set_heap (λ _, h2) w) =
              (Ok (VRef lr), set_heap (λ _, h3) w)) by (by destruct w).
    rewrite (bind_ok _ _ _ _ _ Hnew).
    assert (Hids : get_prop (VRef li) "entity_ids" (set_heap (λ _, h3) w) =
              (Ok (VRef la), set_heap (λ _, h3) w)).
    { unfold get_prop. js_run. unfold h3, h2.
      rewrite lookup_insert_ne by done. by rewrite lookup_insert_eq. }
    rewrite (bind_ok _ _ _ _ _ Hids).
    assert (Hlen : get_prop (VRef la) "length" (set_heap (λ _, h3) w) =
              (Ok (VNum (Z.of_nat (length ids))), set_heap (λ _, h3) w)).
    { unfold get_prop. js_run. unfold h3, h2, h1.
      rewrite !lookup_insert_ne by done. rewrite lookup_insert_eq. simpl.
      by rewrite length_fmap. }
    rewrite (bind_ok _ _ _ _ _ Hlen).
    assert (Hg3 : gets heap_of (set_heap (λ _, h3) w) =
              (Ok h3, set_heap (λ _, h3) w)) by reflexivity.
    rewrite (bind_ok _ _ _ _ _ Hg3).
    unfold loop_bound. cbn [ToNumber]. rewrite Nat2Z.id.
    simpl in Hloop. rewrite (bind_ok _ _ _ _ _ Hloop). reflexivity.
  - split; [|split; [exact Hrep|exact Hres]].
    intros l ob Hl. unfold h3, h2, h1.
    rewrite !lookup_insert_ne; [done|congruence..].
Qed.
Lemma fresh_entry_transport w w' t n kvs :
  localStorage w' !! entity_key t n = localStorage w !! entity_key t n →
  now w' = now w →
  fresh_entry w t n kvs → fresh_entry w' t n kvs.
Proof.
  intros Hs Hn (Hl & e & He & Hx). split; [by rewrite Hs|].
  exists e. split; [done|]. rewrite Hn.
  rewrite (expired_prim _ (heap_of w)); [done|].
  intros l. by apply stored_expiration_not_ref with kvs.
Qed.

Lemma page_keeps_cache_transport w w' :
  drupalgap w' = drupalgap w → page_keeps_cache w' = page_keeps_cache w.
Proof. unfold page_keeps_cache. by intros ->. Qed.

Lemma entity_key_inj t n m : entity_key t n = entity_key t m → n = m.
Proof.
  unfold entity_key. intros Heq.
  apply (inj (String.app t)) in Heq. apply (inj (String.app "_")) in Heq.
  by apply (inj pretty) in Heq.
Qed.

Lemma replayed_hit t o lr n ids kvs acc w vs w' :
  reset_requested o = false →
  page_keeps_cache w = true →
  fresh_entry w t n kvs →
  heap_of w !! lr = Some (Obj (Some acc) []) →
  replayed t o lr (n :: ids) w vs w' →
  ∃ a h1 vs',
    JSON_parse_tree (JObj kvs) (heap_of w) = (VRef a, h1) ∧
    a ≠ lr ∧ is_Some (h1 !! a) ∧
    vs = VRef a :: vs' ∧
    replayed t o lr ids
      (set_heap (λ _, <[lr := Obj (Some (acc ++ [VRef a])%list) []]> h1) w)
      vs' w'.
Proof.
  intros Hreset Hp Hfresh Hlr Hrep.
  inversion Hrep as [|? ? ? v1 w1 vs' ? Hl1 Hrep1]; subst.
  rewrite (_entity_local_storage_load_hit t n o w kvs Hreset Hfresh Hp) in Hl1.
  injection Hl1 as <- <-.
  destruct (JSON_parse_tree (JObj kvs) (heap_of w)) as [v1 h1] eqn:Ep.
  destruct (parse_object_get _ _ _ _ Ep) as (a & fa & -> & Ha & _).
  pose proof (JSON_parse_tree_extends (JObj kvs) (heap_of w) lr _ Hlr) as Hk.
  rewrite Ep in Hk. simpl in Hk.
  exists a, h1, vs'. split; [done|].
  split; [intros ->; congruence|]. split; [eauto|]. split; [done|].
  unfold exec, array_push in Hrep1. simpl in Hrep1.
  unfold bind, gets in Hrep1. simpl in Hrep1. rewrite Hk in Hrep1.
  simpl in Hrep1. by destruct w.
Qed.

Lemma replayed_absent t o lr n ids acc w vs w' :
  reset_requested o = false →
  localStorage w !! entity_key t n = None →
  heap_of w !! lr = Some (Obj (Some acc) []) →
  replayed t o lr (n :: ids) w vs w' →
  ∃ vs',
    vs = VNull :: vs' ∧
    replayed t o lr ids
      (set_heap (<[lr := Obj (Some (acc ++ [VNull])%list) []]>) w) vs' w'.
Proof.
  intros Hreset Hs Hlr Hrep.
  inversion Hrep as [|? ? ? v1 w1 vs' ? Hl1 Hrep1]; subst.
  rewrite (_entity_local_storage_load_absent t n o w Hreset Hs) in Hl1.
  injection Hl1 as <- <-. exists vs'. split; [done|].
  unfold exec, array_push in Hrep1. simpl in Hrep1.
  unfold bind, gets in Hrep1. simpl in Hrep1. rewrite Hlr in Hrep1.
  exact Hrep1.
Qed.

(** C8, amended. With entity caching enabled (the settings give the
    numeric expiration [e]) and local storage accepting writes, saving an
    index for the query key [Q] from a list of entities of a supported type
    whose primary keys are [ids] stores under [Q] the entry holding [ids]
    in order. Loading [Q] while that entry is there, not expired and with
    no reset asked, returns an array whose elements are the results of
    reading the ids, in order, through _entity_local_storage_load. For the
    ids 10, 11, 12 with 10 and 12 freshly cached, on a page that keeps
    cached entities and for [Q] other than the cache key of entity 11: once
    entity 11's cache entry has been deleted, the load returns the cached
    entity 10, a miss marker (null) and the cached entity 12, and the index
    entry under [Q] is left as it was. *)
Theorem index_reconstruction (t Q : string) (r : nat) (items : list value)
  (fs : list (string * value)) (ids : list Z) (e : Z) (o : option options)
  (w : world) :
  t ∈ entity_types →
  expiration_time w = VNum e →
  storage_full w = false →
  heap_of w !! r = Some (Obj (Some items) fs) →
  (∀ pk, primary_key_of t w = VStr pk →
         Forall2 (holds_key (heap_of w) pk) items ids) →
  reset_requested o = false →
  localStorage (exec (_entity_index_local_storage_save t Q (VRef r)) w) =
    <[Q := TJson (index_entry t e ids)]> (localStorage w) ∧
  (∀ w2,
     localStorage w2 !! Q = Some (TJson (index_entry t e ids)) →
     expired (heap_of w2) (now w2) (VNum e) = false →
     ∃ lr hs vs w3,
       _entity_index_local_storage_load t Q o w2 = (Ok (VRef lr), w3) ∧
       heap_of w2 !! lr = None ∧
       hs !! lr = Some (Obj (Some []) []) ∧
       (∀ l ob, heap_of w2 !! l = Some ob → hs !! l = Some ob) ∧
       replayed t o lr ids (set_heap (λ _, hs) w2) vs w3 ∧
       heap_of w3 !! lr = Some (Obj (Some vs) [])) ∧
  (ids = [10; 11; 12]%Z →
   ∀ wd kvs10 kvs12,
     localStorage wd !! Q = Some (TJson (index_entry t e ids)) →
     Q ≠ entity_key t 11 →
     expired (heap_of wd) (now wd) (VNum e) = false →
     page_keeps_cache wd = true →
     fresh_entry wd t 10 kvs10 →
     fresh_entry wd t 12 kvs12 →
     ∃ lr a b ha hb w3,
       _entity_index_local_storage_load t Q o
         (exec (_entity_local_storage_delete t (VNum 11)) wd) =
         (Ok (VRef lr), w3) ∧
       heap_of w3 !! lr = Some (Obj (Some [VRef a; VNull; VRef b]) []) ∧
       (JSON_parse_tree (JObj kvs10) ha).1 = VRef a ∧
       heap_of w3 !! a = (JSON_parse_tree (JObj kvs10) ha).2 !! a ∧
       (JSON_parse_tree (JObj kvs12) hb).1 = VRef b ∧
       heap_of w3 !! b = (JSON_parse_tree (JObj kvs12) hb).2 !! b ∧
       localStorage w3 = delete (entity_key t 11) (localStorage wd) ∧
       localStorage w3 !! Q = Some (TJson (index_entry t e ids))).
Proof.
  intros Ht He Hfull Hr Hall Hreset. split; [|split].
  - destruct (index_save_run t Q r items fs ids e w Ht He Hfull Hr Hall)
      as (h' & Hsave & _).
    unfold exec. by rewrite Hsave.
  - intros w2 Hs Hx. by apply index_load_run with e.
  - intros -> wd kvs10 kvs12 Hs HQ Hx Hp H10 H12.
    unfold exec. rewrite _entity_local_storage_delete_run.
    change (ToString (heap_of wd) (VNum 11)) with (pretty (11:Z)).
    fold (entity_key t 11). simpl snd.
    set (w2 := set_localStorage (delete (entity_key t 11)) wd).
    assert (Hs2 : localStorage w2 !! Q = Some (TJson (index_entry t e [10; 11; 12]%Z))).
    { simpl. by rewrite lookup_delete_ne. }
    destruct (index_load_run t Q o e [10; 11; 12]%Z w2 Hreset Hs2 Hx)
      as (lr & hs & vs & w3 & Hload & Hlr & Hhs & Hkeep & Hrep & Hres).
    assert (Hother : ∀ n, n ≠ 11%Z →
              localStorage w2 !! entity_key t n = localStorage wd !! entity_key t n).
    { intros n Hn. simpl. apply lookup_delete_ne.
      intros Heq. by apply entity_key_inj in Heq. }
    assert (F10 : fresh_entry (set_heap (λ _, hs) w2) t 10 kvs10).
    { apply (fresh_entry_transport wd); [by apply Hother|done|done]. }
    destruct (replayed_hit t o lr 10 [11; 12]%Z kvs10 []
                (set_heap (λ _, hs) w2) vs w3 Hreset Hp F10 Hhs Hrep)
      as (a & h1 & vs1 & Ep1 & Halr & Ha & -> & Hrep1).
    match type of Hrep1 with
    | replayed _ _ _ _ ?W _ _ => set (W1 := W) in *
    end.
    assert (A11 : localStorage W1 !! entity_key t 11 = None)
      by apply lookup_delete_eq.
    assert (L1 : heap_of W1 !! lr = Some (Obj (Some [VRef a]) []))
      by apply lookup_insert_eq.
    destruct (replayed_absent t o lr 11 [12]%Z [VRef a] W1 vs1 w3 Hreset
                A11 L1 Hrep1)
      as (vs2 & -> & Hrep2).
    match type of Hrep2 with
    | replayed _ _ _ _ ?W _ _ => set (W2 := W) in *
    end.
    assert (F12 : fresh_entry W2 t 12 kvs12).
    { apply (fresh_entry_transport wd); [by apply Hother|done|done]. }
    assert (L2 : heap_of W2 !! lr = Some (Obj (Some [VRef a; VNull]) []))
      by apply lookup_insert_eq.
    destruct (replayed_hit t o lr 12 [] kvs12 [VRef a; VNull] W2 vs2 w3
                Hreset Hp F12 L2 Hrep2)
      as (b & h3 & vs3 & Ep3 & Hblr & Hb & -> & Hrep3).
    inversion Hrep3; subst. simpl in Ep1.
    exists lr, a, b, hs, (heap_of W2). eexists. split; [exact Hload|].
    split; [exact Hres|]. rewrite Ep1, Ep3. simpl.
    split; [done|]. split.
    { rewrite lookup_insert_ne by done.
      destruct Ha as [oa Ha].
      pose proof (JSON_parse_tree_extends (JObj kvs12) (heap_of W2) a oa) as Hk.
      rewrite Ep3 in Hk. simpl in Hk. rewrite Hk, Ha; [done|].
      rewrite !lookup_insert_ne by done. exact Ha. }
    split; [done|]. split.
    { by rewrite lookup_insert_ne. }
    split; [done|]. by rewrite lookup_delete_ne.
Qed.

(** ** Frame rules *)

Section Keeps.
Context (R : world → world → Prop) `{!PreOrder R}.

Lemma keeps_ret {A} (a : A) : keeps R (ret a).
Proof. intros w. reflexivity. Qed.

Lemma keeps_gets {A} (f : world → A) : keeps R (gets f).
Proof. intros w. reflexivity. Qed.

Lemma keeps_throw {A} e : keeps R (throw (A := A) e).
Proof. intros w. reflexivity. Qed.

Lemma keeps_bind {A B} (m : M A) (k : A → M B) :
  keeps R m → (∀ a, keeps R (k a)) → keeps R (bind m k).
Proof.
  intros Hm Hk w. unfold bind. specialize (Hm w).
  destruct (m w) as [[a|e] w']; [|exact Hm].
  etrans; [exact Hm|apply Hk].
Qed.

Lemma keeps_try_catch {A} (m : M A) (h : string → M A) :
  keeps R m → (∀ e, keeps R (h e)) → keeps R (try_catch m h).
Proof.
  intros Hm Hh w. unfold try_catch. specialize (Hm w).
  destruct (m w) as [[a|e] w']; [exact Hm|].
  etrans; [exact Hm|apply Hh].
Qed.

Lemma keeps_when b m : keeps R m → keeps R (when b m).
Proof. destruct b; [done|]. intros _. apply keeps_ret. Qed.

Lemma keeps_for_each {A} (body : A → M unit) l :
  (∀ x, keeps R (body x)) → keeps R (for_each body l).
Proof.
  intros Hb. induction l as [|x l IH]; [apply keeps_ret|].
  simpl. apply keeps_bind; [apply Hb|]. intros _. exact IH.
Qed.

Lemma keeps_console_log `{!ConsoleBlind R} msg : keeps R (console_log msg).
Proof. intros w. apply console_blind. reflexivity. Qed.

Lemma keeps_call `{!TraceBlind R} f args : keeps R (call f args).
Proof.
  destruct f; try apply keeps_throw.
  apply keeps_bind; [|intros _; apply keeps_gets].
  intros w. apply trace_blind. reflexivity.
Qed.

Lemma keeps_set_prop `{!HeapBlind R} v k x : keeps R (set_prop v k x).
Proof.
  destruct v; try apply keeps_throw; try apply keeps_ret.
  intros w. apply heap_blind. reflexivity.
Qed.

Lemma keeps_new_object `{!HeapBlind R} o : keeps R (new_object o).
Proof.
  intros w. unfold new_object. destruct (alloc o (heap_of w)).
  apply heap_blind. reflexivity.
Qed.

Lemma keeps_array_push `{!HeapBlind R} a x : keeps R (array_push a x).
Proof.
  destruct a; try apply keeps_throw.
  apply keeps_bind; [apply keeps_gets|]. intros h.
  destruct (h !! l) as [[[items|] fs]|]; try apply keeps_throw.
  intros w. apply heap_blind. reflexivity.
Qed.

Lemma keeps_JSON_parse `{!HeapBlind R} t : keeps R (JSON_parse t).
Proof.
  destruct t; [|apply keeps_throw].
  intros w. unfold JSON_parse. destruct (JSON_parse_tree j (heap_of w)).
  apply heap_blind. reflexivity.
Qed.

Lemma keeps_JSON_stringify v : keeps R (JSON_stringify v).
Proof.
  intros w. unfold JSON_stringify.
  destruct (JSON_stringify_fuel _ _ _); reflexivity.
Qed.

Lemma keeps_setItem `{!StorageBlind R} k t : keeps R (setItem k t).
Proof.
  intros w. unfold setItem. destruct (storage_full w); [reflexivity|].
  apply storage_blind. reflexivity.
Qed.

Lemma keeps_removeItem `{!StorageBlind R} k : keeps R (removeItem k).
Proof. intros w. apply storage_blind. reflexivity. Qed.

Lemma keeps_queue_update `{!QueueBlind R} f :
  keeps R (modify (set_services_queue f)).
Proof. intros w. apply queue_blind. reflexivity. Qed.

End Keeps.

#[local] Instance same_storage_preorder : PreOrder same_storage.
Proof.
  split; [by intros w|]. intros w1 w2 w3. unfold same_storage. congruence.
Qed.
#[local] Instance same_storage_heap : HeapBlind same_storage.
Proof. by intros f w w' Hw. Qed.
#[local] Instance same_storage_console : ConsoleBlind same_storage.
Proof. by intros f w w' Hw. Qed.
#[local] Instance same_storage_trace : TraceBlind same_storage.
Proof. by intros f w w' Hw. Qed.
#[local] Instance same_storage_queue : QueueBlind same_storage.
Proof. by intros f w w' Hw. Qed.

#[local] Instance same_queue_preorder : PreOrder same_queue.
Proof.
  split; [by intros w|]. intros w1 w2 w3. unfold same_queue. congruence.
Qed.
#[local] Instance same_queue_heap : HeapBlind same_queue.
Proof. by intros f w w' Hw. Qed.
#[local] Instance same_queue_console : ConsoleBlind same_queue.
Proof. by intros f w w' Hw. Qed.
#[local] Instance same_queue_trace : TraceBlind same_queue.
Proof. by intros f w w' Hw. Qed.
#[local] Instance same_queue_storage : StorageBlind same_queue.
Proof. by intros f w w' Hw. Qed.

#[local] Instance same_trace_preorder : PreOrder same_trace.
Proof.
  split; [by intros w|]. intros w1 w2 w3. unfold same_trace. congruence.
Qed.
#[local] Instance same_trace_heap : HeapBlind same_trace.
Proof. by intros f w w' Hw. Qed.
#[local] Instance same_trace_console : ConsoleBlind same_trace.
Proof. by intros f w w' Hw. Qed.
#[local] Instance same_trace_storage : StorageBlind same_trace.
Proof. by intros f w w' Hw. Qed.
#[local] Instance same_trace_queue : QueueBlind same_trace.
Proof. by intros f w w' Hw. Qed.

#[local] Instance same_heap_preorder : PreOrder same_heap.
Proof.
  split; [by intros w|]. intros w1 w2 w3. unfold same_heap. congruence.
Qed.
#[local] Instance same_heap_console : ConsoleBlind same_heap.
Proof. by intros f w w' Hw. Qed.
#[local] Instance same_heap_trace : TraceBlind same_heap.
Proof. by intros f w w' Hw. Qed.
#[local] Instance same_heap_storage : StorageBlind same_heap.
Proof. by intros f w w' Hw. Qed.
#[local] Instance same_heap_queue : QueueBlind same_heap.
Proof. by intros f w w' Hw. Qed.

#[local] Instance at_most_removes_preorder k : PreOrder (at_most_removes k).
Proof.
  split; [by left|]. intros w1 w2 w3 [H1|H1] [H2|H2];
    unfold at_most_removes; rewrite H2, H1; auto.
  right. by rewrite delete_delete_eq.
Qed.
#[local] Instance at_most_removes_heap k : HeapBlind (at_most_removes k).
Proof. by intros f w w' Hw. Qed.
#[local] Instance at_most_removes_console k : ConsoleBlind (at_most_removes k).
Proof. by intros f w w' Hw. Qed.
#[local] Instance at_most_removes_trace k : TraceBlind (at_most_removes k).
Proof. by intros f w w' Hw. Qed.
#[local] Instance at_most_removes_queue k : QueueBlind (at_most_removes k).
Proof. by intros f w w' Hw. Qed.

Create HintDb keeps discriminated.

(** One step of a frame proof: a rule of the monad, a primitive that is
    blind to the relation, a lemma of the [keeps] database, or a case
    analysis on what the code branches on. *)
Ltac keeps_step :=
  lazymatch goal with
  | |- keeps ?R _ =>
    first
      [ solve [eauto with keeps]
      | apply (keeps_ret R) | apply (keeps_gets R) | apply (keeps_throw R)
      | apply (keeps_console_log R) | apply (keeps_call R)
      | apply (keeps_set_prop R) | apply (keeps_new_object R)
      | apply (keeps_array_push R) | apply (keeps_JSON_parse R)
      | apply (keeps_JSON_stringify R) | apply (keeps_setItem R)
      | apply (keeps_removeItem R) | apply (keeps_queue_update R)
      | apply (keeps_bind R); [|intros ?]
      | apply (keeps_try_catch R); [|intros ?]
      | apply (keeps_when R)
      | apply (keeps_for_each R); intros ?
      | match goal with
        | |- keeps _ (match ?x with _ => _ end) => destruct x
        | |- keeps _ (if ?b then _ else _) => destruct b
        end ]
  end.
Ltac keeps_auto := repeat keeps_step.

Section BlindFrames.
Context (R : world → world → Prop) `{!PreOrder R}
  `{!HeapBlind R, !ConsoleBlind R, !TraceBlind R}.

Lemma keeps_get_prop v k : keeps R (get_prop v k).
Proof. unfold get_prop. keeps_auto. Qed.

Lemma keeps_get_index v i : keeps R (get_index v i).
Proof. unfold get_index. keeps_auto. Qed.

Lemma keeps_opt_field f name o : keeps R (opt_field f name o).
Proof. unfold opt_field. keeps_auto. Qed.

Lemma keeps_function_exists name : keeps R (function_exists name).
Proof. unfold function_exists. keeps_auto. Qed.

Lemma keeps_drupalgap_function_exists name :
  keeps R (drupalgap_function_exists name).
Proof.
  unfold drupalgap_function_exists. keeps_auto.
Qed.

Lemma keeps_entity_primary_key t : keeps R (entity_primary_key t).
Proof.
  unfold entity_primary_key, entity_primary_key_try, window_get.
  keeps_auto.
Qed.

Lemma keeps_entity_delete t ids o : keeps R (entity_delete t ids o).
Proof.
  unfold entity_delete, entity_delete_try, window_get.
  keeps_auto.
Qed.

Lemma keeps_entity_save t b e o : keeps R (entity_save t b e o).
Proof.
  unfold entity_save, entity_save_try, create_or_update, window_get,
    language_default.
  keeps_auto; apply keeps_get_prop.
Qed.

Lemma keeps_call_options_error co x s m :
  keeps R (call_options_error co x s m).
Proof. unfold call_options_error. keeps_auto; apply keeps_opt_field. Qed.

Lemma keeps_entity_caching_enabled : keeps R entity_caching_enabled.
Proof. unfold entity_caching_enabled. keeps_auto. Qed.

Lemma keeps_entity_id_parse id : keeps R (entity_id_parse id).
Proof. unfold entity_id_parse. keeps_auto. Qed.

Lemma keeps_entity_local_storage_key t id :
  keeps R (entity_local_storage_key t id).
Proof. unfold entity_local_storage_key. keeps_auto. Qed.

Lemma keeps_entity_get_expiration_time : keeps R _entity_get_expiration_time.
Proof. unfold _entity_get_expiration_time, time. keeps_auto. Qed.

Lemma keeps_entity_set_expiration_time e :
  keeps R (_entity_set_expiration_time e).
Proof.
  unfold _entity_set_expiration_time. keeps_auto.
Qed.

End BlindFrames.

(** The operations of the file under any relation that is blind to the heap,
    the console and the trace. *)
Ltac keeps_op :=
  lazymatch goal with
  | |- keeps ?R _ =>
    first
      [ apply (keeps_get_prop R) | apply (keeps_get_index R)
      | apply (keeps_opt_field R) | apply (keeps_function_exists R)
      | apply (keeps_drupalgap_function_exists R)
      | apply (keeps_entity_primary_key R)
      | apply (keeps_entity_caching_enabled R)
      | apply (keeps_entity_id_parse R)
      | apply (keeps_entity_local_storage_key R)
      | apply (keeps_entity_get_expiration_time R)
      | apply (keeps_entity_set_expiration_time R) ]
  end.
Ltac keeps_run := repeat first [keeps_op | keeps_step].

(** X1. entity_save, entity_primary_key and the error wrapper given to the
    remote handler never write local storage and never change the request
    queue, whatever their arguments and whether or not they fault. *)
Theorem dispatchers_leave_cache_and_queue_alone :
  (∀ t b e o w,
     localStorage (exec (entity_save t b e o) w) = localStorage w ∧
     services_queue (exec (entity_save t b e o) w) = services_queue w) ∧
  (∀ t w,
     localStorage (exec (entity_primary_key t) w) = localStorage w ∧
     services_queue (exec (entity_primary_key t) w) = services_queue w) ∧
  (∀ co x s m w,
     localStorage (exec (call_options_error co x s m) w) = localStorage w ∧
     services_queue (exec (call_options_error co x s m) w) = services_queue w).
Proof.
  split; [|split]; intros; split.
  - apply (keeps_entity_save same_storage).
  - apply (keeps_entity_save same_queue).
  - apply (keeps_entity_primary_key same_storage).
  - apply (keeps_entity_primary_key same_queue).
  - apply (keeps_call_options_error same_storage).
  - apply (keeps_call_options_error same_queue).
Qed.

Lemma keeps_entity_load_from_cache_off R `{!PreOrder R} c t id o :
  truthy c = false → keeps R (entity_load_from_cache c t id o).
Proof.
  intros Hc. unfold entity_load_from_cache. rewrite Hc. apply (keeps_ret R).
Qed.

(** X2. With entity caching disabled, entity_load never writes local
    storage, and the success wrapper of a retrieve neither writes local
    storage nor touches the heap (the entity goes to the callbacks as the
    remote handler gave it). *)
Theorem without_caching_storage_is_untouched (t : string) (ids data : value)
  (o : option options) (co : call_options) (w : world) :
  truthy (caching_flag w) = false →
  truthy (co_caching_enabled co) = false →
  localStorage (exec (entity_load t ids o) w) = localStorage w ∧
  localStorage (exec (call_options_success co data) w) = localStorage w ∧
  heap_of (exec (call_options_success co data) w) = heap_of w.
Proof.
  intros Hw Hco. split; [|split].
  - unfold exec, entity_load, entity_load_try.
    destruct (is_int ids); simpl negb; cbv iota; [|reflexivity].
    unfold try_catch at 1.
    rewrite (bind_ok _ _ _ _ _ (entity_caching_enabled_run w)).
    generalize (caching_flag w) Hw. intros c Hc.
    match goal with
    | |- localStorage (match ?k w with _ => _ end).2 = _ =>
        apply (keeps_try_catch same_storage k
                 (λ error, console_log ("entity_load - " +:+ error) ;; ret VUndef))
    end.
    + keeps_run; by apply (keeps_entity_load_from_cache_off same_storage).
    + intros e. keeps_run.
  - unfold call_options_success. rewrite Hco.
    apply (keeps_try_catch same_storage); [|intros e; keeps_run].
    unfold services_queue_entry, queue_key. keeps_run.
  - unfold call_options_success. rewrite Hco.
    apply (keeps_try_catch same_heap); [|intros e; keeps_run].
    unfold services_queue_entry, queue_key. keeps_run.
Qed.

Lemma cache_key_ToString t id (h : gmap nat object) :
  is_ref id = false → t +:+ "_" +:+ ToString h id = cache_key t id.
Proof. by destruct id. Qed.

Lemma removes_entity_local_storage_delete t id :
  is_ref id = false →
  keeps (at_most_removes (cache_key t id)) (_entity_local_storage_delete t id).
Proof.
  intros Hid w. rewrite _entity_local_storage_delete_run.
  right. simpl. by rewrite cache_key_ToString.
Qed.

(** X3. A cache read touches one key. For an id that is not an object,
    _entity_local_storage_load leaves local storage as it was or removes
    the entry of that entity (reset, expiry, page reload); it adds and
    changes nothing, whatever is stored and whether or not it faults. *)
Theorem cache_read_removes_at_most_its_key (t : string) (id : value)
  (o : option options) (w : world) :
  is_ref id = false →
  localStorage (exec (_entity_local_storage_load t id o) w) = localStorage w ∨
  localStorage (exec (_entity_local_storage_load t id o) w) =
    delete (cache_key t id) (localStorage w).
Proof.
  intros Hid. revert w.
  change (keeps (at_most_removes (cache_key t id))
            (_entity_local_storage_load t id o)).
  pose proof (removes_entity_local_storage_delete t id Hid) as Hd.
  unfold _entity_local_storage_load, _entity_local_storage_load_try,
    getItem, time, drupalgap_page_options.
  keeps_run; exact Hd.
Qed.

(** X4. After _entity_local_storage_delete, a cache read of the same
    entity is a miss: it returns null, whatever the options, the page
    context and the clock, and leaves the world as the delete left it (the
    entry gone, every other entry as it was). *)
Theorem deleted_entry_is_a_miss (t : string) (id : value)
  (o : option options) (w : world) :
  _entity_local_storage_load t id o
    (exec (_entity_local_storage_delete t id) w) =
    (Ok VNull,
     set_localStorage (delete (t +:+ "_" +:+ ToString (heap_of w) id)) w) ∧
  localStorage (exec (_entity_local_storage_delete t id) w)
    !! (t +:+ "_" +:+ ToString (heap_of w) id) = None ∧
  ∀ k, k ≠ t +:+ "_" +:+ ToString (heap_of w) id →
       localStorage (exec (_entity_local_storage_delete t id) w) !! k =
       localStorage w !! k.
Proof.
  unfold exec. rewrite _entity_local_storage_delete_run. simpl snd.
  set (key := t +:+ "_" +:+ ToString (heap_of w) id).
  split; [|split].
  - unfold _entity_local_storage_load, _entity_local_storage_load_try,
      try_catch.
    destruct o as [o0|]; [destruct (truthy (reset o0))|].
    + rewrite bind_assoc.
      rewrite (bind_ok _ _ _ _ _ (_entity_local_storage_delete_run t id _)).
      js_run. fold key. rewrite !lookup_delete_eq.
      destruct w. unfold set_localStorage. simpl. by rewrite delete_delete_eq.
    + js_run. fold key. by rewrite lookup_delete_eq.
    + js_run. fold key. by rewrite lookup_delete_eq.
  - simpl. apply lookup_delete_eq.
  - intros k Hk. simpl. by apply lookup_delete_ne.
Qed.

Lemma set_localStorage_id w : set_localStorage (λ s, s) w = w.
Proof. by destruct w. Qed.

Lemma _entity_local_storage_load_nothing t n o w :
  localStorage w !! entity_key t n = None →
  _entity_local_storage_load t (VNum n) o w = (Ok VNull, w).
Proof.
  intros Hs. destruct (reset_requested o) eqn:Hr.
  - rewrite (_entity_local_storage_load_reset _ _ _ _ Hr).
    f_equal. destruct w. unfold set_localStorage. simpl in *.
    by rewrite delete_id.
  - by apply _entity_local_storage_load_absent.
Qed.

Lemma entity_load_from_cache_miss t n o w w' :
  cache_misses t n w →
  localStorage w' = localStorage w →
  entity_load_from_cache (caching_flag w) t (VNum n) o w' = (Ok false, w').
Proof.
  intros [Hc|Hs] Hw'; [by apply entity_load_from_cache_off|].
  unfold entity_load_from_cache.
  destruct (truthy (caching_flag w)); [|reflexivity].
  erewrite bind_ok
    by (apply _entity_local_storage_load_nothing; by rewrite Hw').
  reflexivity.
Qed.

(** The first load of a key that misses the cache: the queue entry is made
    with the success callback, then the code goes on to the type check of
    line 135. *)
Lemma entity_load_miss_unqueued t ids n (o : options) w :
  parsed_id ids = VNum n →
  services_queue w !! retrieve_key t n = None →
  cache_misses t n w →
  entity_load t ids (Some o) w =
  try_catch
    (if negb (in_array t entity_types) then
       let message := "WARNING: entity_load - unsupported type: " +:+ t in
       console_log message ;;
       e <- opt_field error "error" (Some o) ;;
       when (truthy e)
         (call e [AVal VNull; AVal VNull; AVal (VStr message)] ;; ret tt) ;;
       ret VUndef
     else
       primary_key <- entity_primary_key t ;;
       let call_options :=
         CallOptions t (VNum n) (caching_flag w) (Some o) primary_key in
       let function_name := t +:+ "_retrieve" in
       ex <- function_exists function_name ;;
       if ex then
         fn <- window_get function_name ;;
         call fn [AVal ids; ACallOpts call_options] ;;
         ret VUndef
       else
         console_log ("WARNING: " +:+ function_name +:+ "() does not exist!") ;;
         ret VUndef)
    (λ error, console_log ("entity_load - " +:+ error) ;; ret VUndef)
    (set_services_queue (<[retrieve_key t n := QueueEntry [success o] []]>) w).
Proof.
  intros Hid Hq Hmiss.
  unfold entity_load, entity_load_try.
  rewrite (parsed_id_is_int _ _ Hid). cbv beta iota delta [negb].
  unfold try_catch.
  rewrite (bind_ok _ _ _ _ _ (entity_caching_enabled_run w)).
  rewrite (bind_ok _ _ _ _ _ (entity_id_parse_run ids w)), Hid.
  rewrite (bind_ok _ _ _ _ _ (_services_queue_already_queued_run t n _ w)).
  rewrite bool_decide_eq_false_2 by (rewrite Hq; intros [? ?]; done).
  cbv iota.
  change (opt_field success "success" (Some o)) with (ret (success o)).
  rewrite (bind_ok _ _ _ _ _ (_services_queue_add_to_queue_run t n w)).
  rewrite (bind_ok (ret (success o)) _ _ (success o) _ eq_refl).
  erewrite bind_ok; cycle 1.
  { apply _services_queue_callback_add_success. simpl. rewrite Hq.
    apply lookup_insert_eq. }
  erewrite bind_ok by (by apply entity_load_from_cache_miss).
  cbv iota.
  rewrite set_services_queue_twice.
  match goal with
  | |- context [set_services_queue ?f w] =>
      replace (set_services_queue f w)
        with (set_services_queue
                (<[retrieve_key t n := QueueEntry [success o] []]>) w)
  end; [reflexivity|].
  unfold set_services_queue. simpl. rewrite Hq. by rewrite insert_insert_eq.
Qed.

(** X5. The first load of an entity whose type is not one of the six
    entity types, when the cache attempt misses: entity_load logs the
    warning and calls the error callback of the options with (null, null,
    message) when there is one; it never calls a retrieve handler, whatever
    the window defines, and the queue entry it made, holding the success
    callback, stays. *)
Theorem entity_load_unsupported_type (t : string) (ids : value) (n : Z)
  (o : options) (w : world) :
  parsed_id ids = VNum n →
  t ∉ entity_types →
  services_queue w !! retrieve_key t n = None →
  cache_misses t n w →
  callable_if_set (error o) →
  entity_load t ids (Some o) w =
    (Ok VUndef,
     set_trace
       (λ tr, (tr ++ notify (error o)
                       [AVal VNull; AVal VNull;
                        AVal (VStr ("WARNING: entity_load - unsupported type: "
                                    +:+ t))]
                       (heap_of w))%list)
       (set_console
          (λ c, (c ++ ["WARNING: entity_load - unsupported type: " +:+ t])%list)
          (set_services_queue
             (<[retrieve_key t n := QueueEntry [success o] []]>) w))).
Proof.
  intros Hid Ht Hq Hmiss Herr.
  rewrite (entity_load_miss_unqueued _ _ _ _ _ Hid Hq Hmiss).
  unfold in_array. rewrite bool_decide_eq_false_2 by done.
  cbv beta iota delta [negb].
  change (opt_field error "error" (Some o)) with (ret (error o)).
  destruct (truthy (error o)) eqn:He.
  - destruct (Herr He) as [f Hf]. rewrite Hf in *.
    unfold try_catch, call. js_run. reflexivity.
  - assert (Hn : notify (error o)
                   [AVal VNull; AVal VNull;
                    AVal (VStr ("WARNING: entity_load - unsupported type: "
                                +:+ t))] (heap_of w) = []).
    { destruct (error o); try reflexivity. discriminate He. }
    rewrite Hn, set_trace_nil.
    unfold try_catch. js_run. rewrite He. reflexivity.
Qed.

(** X6. The first load of an entity of one of the six types, when the
    cache attempt misses and the window defines no retrieve handler for the
    type: entity_load logs that the handler does not exist and returns. It
    calls nothing, the error callback of the options included, and the
    queue entry it made, holding the success callback, stays. *)
Theorem entity_load_missing_handler (t : string) (ids : value) (n : Z)
  (o : options) (w : world) :
  parsed_id ids = VNum n →
  t ∈ entity_types →
  services_queue w !! retrieve_key t n = None →
  cache_misses t n w →
  (∀ f, window w !! (t +:+ "_retrieve") ≠ Some (VFun f)) →
  entity_load t ids (Some o) w =
    (Ok VUndef,
     set_console
       (λ c, (c ++ ["WARNING: " +:+ (t +:+ "_retrieve") +:+
                    "() does not exist!"])%list)
       (set_services_queue
          (<[retrieve_key t n := QueueEntry [success o] []]>) w)).
Proof.
  intros Hid Ht Hq Hmiss Hwin.
  rewrite (entity_load_miss_unqueued _ _ _ _ _ Hid Hq Hmiss).
  unfold in_array. rewrite bool_decide_eq_true_2 by done.
  cbv beta iota delta [negb].
  unfold try_catch.
  erewrite bind_ok by (apply (entity_primary_key_fixed t Ht _ w)).
  js_run.
  destruct (window w !! (t +:+ "_retrieve")) as [v|] eqn:Hv; simpl.
  - destruct v as [| | | | | | |f]; try reflexivity. by destruct (Hwin f).
  - reflexivity.
Qed.

Lemma not_entity_type t :
  t ∉ entity_types →
  String.eqb t "comment" = false ∧ String.eqb t "file" = false ∧
  String.eqb t "node" = false ∧ String.eqb t "taxonomy_term" = false ∧
  String.eqb t "taxonomy_vocabulary" = false ∧ String.eqb t "user" = false.
Proof.
  unfold entity_types. rewrite !not_elem_of_cons.
  intros (?&?&?&?&?&?&_). repeat split; by apply String.eqb_neq.
Qed.

(** X7. For a type that is not one of the six entity types,
    entity_primary_key asks the hook [<type>_primary_key]: when the window
    defines it (and the drupalgap library is loaded) it is called with the
    type and its result is returned as it is; without the hook the key is
    undefined and a hint is logged; without the drupalgap library the fault
    is caught and the key is undefined. *)
Theorem entity_primary_key_hook (t : string) (w : world) :
  t ∉ entity_types →
  entity_primary_key t w =
    match drupalgap w with
    | DgUndeclared =>
        (Ok VUndef,
         set_console
           (λ c, (c ++ ["entity_primary_key - " +:+
                        "ReferenceError: drupalgap_function_exists is not defined"])%list)
           w)
    | DgPageOptions _ =>
        match default VUndef (window w !! (t +:+ "_primary_key")) with
        | VFun f =>
            (Ok (default VUndef (returns w !! f)),
             set_trace (λ tr, (tr ++ [EvCall f [AVal (VStr t)] (heap_of w)])%list) w)
        | _ =>
            (Ok VUndef,
             set_console
               (λ c, (c ++ ["entity_primary_key - unsupported entity type (" +:+
                            t +:+ ") - to add support, declare " +:+
                            (t +:+ "_primary_key") +:+
                            "() and have it return the primary key column name as a string"])%list)
               w)
        end
    end.
Proof.
  intros Ht. destruct (not_entity_type t Ht) as (E1&E2&E3&E4&E5&E6).
  unfold entity_primary_key, entity_primary_key_try.
  rewrite E1, E2, E3, E4, E5, E6.
  unfold drupalgap_function_exists, call. js_run.
  destruct (drupalgap w); [reflexivity|]. js_run.
  destruct (window w !! (t +:+ "_primary_key")) as [v|] eqn:Hv; simpl;
    [|reflexivity].
  destruct v; js_run; rewrite ?Hv; reflexivity.
Qed.

(** X8. For a type that is not one of the six entity types, entity_save
    only logs that the type is unsupported: whatever the bundle, the entity
    and the options, and whatever handlers the window defines, nothing is
    called and the entity, local storage and the queue are as they were. *)
Theorem entity_save_unsupported_type (t : string) (bundle entity : value)
  (o : option options) (w : world) :
  t ∉ entity_types →
  entity_save t bundle entity o w =
    (Ok VUndef,
     set_console
       (λ c, (c ++ ["WARNING: entity_save - unsupported type: " +:+ t])%list) w).
Proof.
  intros Ht. destruct (not_entity_type t Ht) as (E1&E2&E3&E4&E5&E6).
  unfold entity_save, entity_save_try.
  rewrite E1, E2, E3, E4, E5, E6. reflexivity.
Qed.

(** X9. entity_save of an entity object of a supported type whose remote
    handler the window does not define: the warning is logged and nothing is
    called; a node without a language has, all the same, been given the
    default language. *)
Theorem entity_save_missing_handler (t : string) (bundle : value) (l : nat)
  (ob : object) (o : option options) (w : world) (pk : string) :
  t ∈ entity_types →
  heap_of w !! l = Some ob →
  eval (entity_primary_key t) w = Ok (VStr pk) →
  (∀ f, window w !! save_handler t (obj_get pk (o_fields ob)) ≠ Some (VFun f)) →
  entity_save t bundle (VRef l) o w =
    (Ok VUndef,
     set_console
       (λ c, (c ++ ["WARNING: entity_save - unsupported type: " +:+ t])%list)
       (set_heap (<[l := with_default_language t
                           (settings_language_default w) ob]>) w)).
Proof.
  intros Ht Hl Hpk Hw.
  assert (Hid : <[l := ob]> (heap_of w) = heap_of w) by by apply insert_id.
  assert (Hno : ∀ name,
            (∀ f, window w !! name ≠ Some (VFun f)) →
            (if default VUndef (window w !! name) is VFun _ then true else false)
            = false).
  { intros name Hn. destruct (window w !! name) as [v|] eqn:Hv; [|reflexivity].
    destruct v as [| | | | | | |f]; try reflexivity. by destruct (Hn f). }
  unfold entity_types in Ht.
  destruct ob as [its fs].
  repeat (apply elem_of_cons in Ht as [->|Ht]); [..|by apply elem_of_nil in Ht];
    injection Hpk as <-;
    unfold entity_save, entity_save_try, create_or_update, get_prop, set_prop,
      call, save_handler, with_default_language in *;
    simpl in Hw; cbv [String.append] in Hw; js_run; rewrite ?Hl;
    destruct its; js_run.
  all: try (destruct (truthy (obj_get _ fs)) eqn:Ek; simpl in Hw; js_run;
            rewrite (Hno _ Hw); js_run;
            unfold set_heap; simpl; rewrite Hid; reflexivity).
  all: try (rewrite (Hno _ Hw); js_run;
            unfold set_heap; simpl; rewrite Hid; reflexivity).
  all: destruct (truthy (obj_get "language" fs)) eqn:El; js_run;
    rewrite ?Hl; js_run; rewrite ?lookup_insert_eq; js_run;
    rewrite ?obj_get_set_ne by done;
    destruct (truthy (obj_get "nid" fs)) eqn:Ek; simpl in Hw; js_run;
    rewrite (Hno _ Hw); js_run;
    unfold set_heap; simpl; rewrite ?Hl, ?Hid; reflexivity.
Qed.

(** X10. entity_save without an entity (undefined or null) for a
    supported type other than file: reading the first field the code looks
    at ('language' for a node, the primary key otherwise) faults, the fault
    is logged and nothing is called; the heap, local storage and the queue
    are as they were. *)
Theorem entity_save_without_entity (t : string) (bundle entity : value)
  (o : option options) (w : world) (pk : string) :
  t ∈ entity_types → t ≠ "file" →
  entity = VUndef ∨ entity = VNull →
  eval (entity_primary_key t) w = Ok (VStr pk) →
  entity_save t bundle entity o w =
    (Ok VUndef,
     set_console
       (λ c, (c ++ ["entity_save - " +:+
                    ("TypeError: Cannot read property '" +:+
                     (if String.eqb t "node" then "language" else pk) +:+
                     "' of " +:+ ToString (heap_of w) entity)])%list) w).
Proof.
  intros Ht Hfile He Hpk. unfold entity_types in Ht.
  repeat (apply elem_of_cons in Ht as [->|Ht]); [..|by apply elem_of_nil in Ht];
    try done; injection Hpk as <-; destruct He as [->| ->]; reflexivity.
Qed.

(** ** The life of a cache entry *)

Lemma obj_set_elem k v fs : (k, v) ∈ obj_set k v fs.
Proof.
  induction fs as [|[k' v'] fs IH]; simpl; [by apply list_elem_of_singleton|].
  destruct (String.eqb k k') eqn:E.
  - apply String.eqb_eq in E as <-. apply list_elem_of_here.
  - by apply list_elem_of_further.
Qed.

Lemma obj_set_keys k v fs :
  (obj_set k v fs).*1 = fs.*1 ∨
  ((k ∉ fs.*1) ∧ (obj_set k v fs).*1 = ((fs.*1) ++ [k])%list).
Proof.
  induction fs as [|[k' v'] fs IH].
  - right. split; [apply not_elem_of_nil|done].
  - simpl obj_set. destruct (String.eqb k k') eqn:E; [by left|].
    apply String.eqb_neq in E. rewrite !fmap_cons. simpl fst.
    destruct IH as [IH|[Hn IH]]; rewrite IH; [by left|].
    right. split; [|done]. by apply not_elem_of_cons.
Qed.

Lemma obj_set_NoDup k v fs : NoDup fs.*1 → NoDup (obj_set k v fs).*1.
Proof.
  intros Hnd. destruct (obj_set_keys k v fs) as [->|[Hn ->]]; [done|].
  apply NoDup_app. split; [done|]. split; [|apply NoDup_singleton].
  intros x Hx Hk. apply list_elem_of_singleton in Hk as ->. done.
Qed.

Lemma json_get_cons k k' j kvs :
  json_get k ((k', j) :: kvs) =
  match json_get k kvs with
  | Some j' => Some j'
  | None => if String.eqb k k' then Some j else None
  end.
Proof. reflexivity. Qed.

Lemma omap_id_cons {A} (y : option A) ys :
  omap id (y :: ys) = match y with Some a => a :: omap id ys | None => omap id ys end.
Proof. by destruct y. Qed.

(** The member [k] of the JSON text of an object whose fields have
    distinct names is the JSON text of its field [k]; a field that has no
    JSON text (undefined, a function) leaves no member. *)
Lemma stringify_fields_absent (S : value → option (option json)) fs kvs k :
  mapM (λ kv : string * value,
          j ← S kv.2; Some (option_map (pair kv.1) j)) fs = Some kvs →
  k ∉ fs.*1 →
  json_get k (omap id kvs) = None.
Proof.
  intros Hm. apply mapM_Some in Hm.
  induction Hm as [|[k0 x0] y0 fs kvs Hy _ IH]; intros Hk; [done|].
  rewrite fmap_cons in Hk. apply not_elem_of_cons in Hk as [Hne Hk].
  rewrite omap_id_cons. simpl in Hy.
  destruct (S x0) as [[j|]|]; simpl in Hy; [| |discriminate];
    injection Hy as <-; simpl option_map; cbv iota; [|by apply IH].
  rewrite json_get_cons, (IH Hk). simpl in Hne.
  by apply String.eqb_neq in Hne as ->.
Qed.

Lemma stringify_fields_get (S : value → option (option json)) fs kvs k x r :
  mapM (λ kv : string * value,
          j ← S kv.2; Some (option_map (pair kv.1) j)) fs = Some kvs →
  NoDup fs.*1 →
  (k, x) ∈ fs →
  S x = Some r →
  json_get k (omap id kvs) = r.
Proof.
  intros Hm. revert kvs Hm.
  induction fs as [|[k0 x0] fs IH]; intros kvs Hm Hnd Hin Hr.
  { by apply elem_of_nil in Hin. }
  pose proof Hm as Hm'. apply mapM_Some in Hm'.
  apply Forall2_cons_inv_l in Hm' as (y0 & kvs' & Hy & Hrest & ->).
  apply mapM_Some in Hrest.
  rewrite fmap_cons in Hnd. apply NoDup_cons in Hnd as [Hk0 Hnd].
  rewrite omap_id_cons. simpl in Hy.
  apply elem_of_cons in Hin as [[= <- <-]|Hin].
  - pose proof (stringify_fields_absent S fs kvs' k Hrest Hk0) as Hnone.
    rewrite Hr in Hy. simpl in Hy. injection Hy as <-.
    destruct r as [j|]; simpl option_map; cbv iota; [|exact Hnone].
    by rewrite json_get_cons, Hnone, String.eqb_refl.
  - assert (Hne : k ≠ k0).
    { intros ->. apply Hk0. apply list_elem_of_fmap. by exists (k0, x). }
    pose proof (IH kvs' Hrest Hnd Hin Hr) as IH'.
    destruct (S x0) as [[j|]|]; simpl in Hy; [| |discriminate];
      injection Hy as <-; simpl option_map; cbv iota; [|done].
    rewrite json_get_cons, IH'. destruct r; [done|].
    by apply String.eqb_neq in Hne as ->.
Qed.

Lemma obj_get_elem k fs : k ∈ fs.*1 → (k, obj_get k fs) ∈ fs.
Proof.
  induction fs as [|[k' v'] fs IH]; [by intros ?%elem_of_nil|].
  rewrite fmap_cons. simpl.
  destruct (String.eqb k k') eqn:E.
  - apply String.eqb_eq in E as <-. intros _. apply list_elem_of_here.
  - apply String.eqb_neq in E. intros [?|Hin]%elem_of_cons; [done|].
    apply list_elem_of_further. by apply IH.
Qed.

Lemma obj_get_absent k fs : k ∉ fs.*1 → obj_get k fs = VUndef.
Proof.
  induction fs as [|[k' v'] fs IH]; [done|].
  rewrite fmap_cons. simpl. intros [Hne Hk]%not_elem_of_cons.
  apply String.eqb_neq in Hne as ->. by apply IH.
Qed.

(** The JSON text of a value that is not an object: it needs no fuel. *)
Lemma stringify_prim fuel (h : gmap nat object) x :
  is_ref x = false →
  ∃ r, JSON_stringify_fuel fuel h x = Some r ∧
       match r with
       | Some j => json_prim j = Some (stored_as x)
       | None => stored_as x = VUndef
       end.
Proof.
  intros Hx. destruct x; try discriminate Hx;
    destruct fuel; simpl; eexists; (split; [reflexivity|]); reflexivity.
Qed.

(** A field that is not an object comes back from the JSON text of its
    object as [stored_as] tells. *)
Lemma field_round_trip fuel (h h2 : gmap nat object) fs kvs k :
  mapM (λ kv : string * value,
          j ← JSON_stringify_fuel fuel h kv.2;
          Some (option_map (pair kv.1) j)) fs = Some kvs →
  NoDup fs.*1 →
  is_ref (obj_get k fs) = false →
  obj_get k (parse_fields JSON_parse_tree (omap id kvs) [] h2).1 =
    stored_as (obj_get k fs).
Proof.
  intros Hm Hnd Hk.
  destruct (decide (k ∈ fs.*1)) as [Hin|Hout].
  - destruct (stringify_prim fuel h _ Hk) as (r & Hr & Hj).
    pose proof (stringify_fields_get _ _ _ _ _ _ Hm Hnd
                  (obj_get_elem _ _ Hin) Hr) as Hg.
    destruct r as [j|].
    + by apply parse_fields_get_prim with (j := j).
    + rewrite parse_fields_get_none by done. by rewrite Hj.
  - rewrite parse_fields_get_none
      by (by apply (stringify_fields_absent _ _ _ _ Hm)).
    by rewrite (obj_get_absent _ _ Hout).
Qed.

Lemma stored_expiration_round_trip fuel (h : gmap nat object) fs kvs :
  mapM (λ kv : string * value,
          j ← JSON_stringify_fuel fuel h kv.2;
          Some (option_map (pair kv.1) j)) fs = Some kvs →
  NoDup fs.*1 →
  is_ref (obj_get "expiration" fs) = false →
  stored_expiration (omap id kvs) =
    Some (stored_as (obj_get "expiration" fs)).
Proof.
  intros Hm Hnd Hk. unfold stored_expiration.
  destruct (decide ("expiration" ∈ fs.*1)) as [Hin|Hout].
  - destruct (stringify_prim fuel h _ Hk) as (r & Hr & Hj).
    rewrite (stringify_fields_get _ _ _ _ _ _ Hm Hnd (obj_get_elem _ _ Hin) Hr).
    destruct r as [j|]; [done|]. by rewrite Hj.
  - rewrite (stringify_fields_absent _ _ _ _ Hm Hout).
    by rewrite (obj_get_absent _ _ Hout).
Qed.

(** The JSON text of a plain object of the heap, when it has one. *)
Lemma stringify_plain_object (h : gmap nat object) l ob r :
  h !! l = Some ob →
  o_items ob = None →
  JSON_stringify_fuel (size h) h (VRef l) = Some r →
  ∃ fuel kvs,
    mapM (λ kv : string * value,
            j ← JSON_stringify_fuel fuel h kv.2;
            Some (option_map (pair kv.1) j)) (o_fields ob) = Some kvs ∧
    r = Some (JObj (omap id kvs)).
Proof.
  intros Hl Hit Hs.
  destruct (size h) as [|fuel] eqn:Hsz.
  { apply map_size_empty_iff in Hsz. by rewrite Hsz, lookup_empty in Hl. }
  exists fuel. simpl in Hs. rewrite Hl, Hit in Hs.
  destruct (mapM _ (o_fields ob)) as [kvs|] eqn:Hm; [|discriminate].
  exists kvs. split; [done|]. simpl in Hs. by injection Hs as <-.
Qed.

Lemma parse_fields_extends kvs : ∀ acc (h : gmap nat object) l ob,
  h !! l = Some ob →
  (parse_fields JSON_parse_tree kvs acc h).2 !! l = Some ob.
Proof.
  induction kvs as [|[k j] kvs IH]; intros acc h l ob Hl; [done|].
  simpl. destruct (JSON_parse_tree j h) as [v h1] eqn:Hp.
  apply IH. pose proof (JSON_parse_tree_extends j h l ob Hl) as He.
  by rewrite Hp in He.
Qed.

(** JSON.parse of an object yields a new object: its location was free. *)
Lemma parse_object_fresh kvs (h : gmap nat object) :
  ∃ l, JSON_parse_tree (JObj kvs) h =
         (VRef l, <[l := Obj None (parse_fields JSON_parse_tree kvs [] h).1]>
                    (parse_fields JSON_parse_tree kvs [] h).2) ∧
       h !! l = None.
Proof.
  rewrite JSON_parse_tree_obj.
  destruct (parse_fields JSON_parse_tree kvs [] h) as [fs h1] eqn:Hp.
  unfold alloc. eexists. split; [reflexivity|].
  destruct (h !! fresh (dom h1)) as [ob|] eqn:Hl; [|done].
  pose proof (parse_fields_extends kvs [] h _ _ Hl) as He.
  rewrite Hp in He. simpl in He.
  apply elem_of_dom_2 in He. by apply is_fresh in He.
Qed.

Lemma try_catch_bind_ok {A B} (m : M A) (k : A → M B) h w a w' :
  m w = (Ok a, w') → try_catch (bind m k) h w = try_catch (k a) h w'.
Proof. intros Hm. unfold try_catch, bind. by rewrite Hm. Qed.

(** What the success wrapper leaves in local storage when caching is
    enabled, whatever the queue holds. *)
Lemma success_wrapper_cache_write co n l ob w :
  truthy (co_caching_enabled co) = true →
  co_entity_id co = VNum n →
  heap_of w !! l = Some ob →
  localStorage (exec (call_options_success co (VRef l)) w) =
    cache_write (entity_key (co_entity_type co) n)
      (stamped l (expiration_time w) ob (heap_of w))
      (VRef l) (storage_full w) (localStorage w).
Proof.
  intros Hc Hid Hl.
  destruct (_entity_set_expiration_time_spec l ob w Hl) as [l1 H1].
  destruct (_entity_local_storage_save_spec (co_entity_type co) n (VRef l)
    (set_console (λ c, (c ++ l1)%list)
       (set_heap (<[l := with_expiration (expiration_time w) ob]>) w)))
    as [l2 H2].
  unfold exec, call_options_success.
  rewrite Hc, Hid. unfold when.
  erewrite try_catch_bind_ok; cycle 1.
  { rewrite (bind_ok _ _ _ _ _ H1), (bind_ok _ _ _ _ _ H2). reflexivity. }
  match goal with
  | |- localStorage (try_catch ?k ?hd ?w2).2 = _ =>
      transitivity (localStorage w2);
        [apply (keeps_try_catch same_storage k hd)|reflexivity]
  end.
  - unfold services_queue_entry, queue_key. keeps_run.
  - intros e. keeps_run.
Qed.

(** The cache entry the success wrapper writes for a plain entity object
    that has a JSON text: a JSON object whose expiration is the one the
    wrapper stamped, and whose members give back the fields of the stamped
    entity that are not objects. *)
Lemma success_wrapper_entry co n l ob x w :
  truthy (co_caching_enabled co) = true →
  co_entity_id co = VNum n →
  expiration_time w = x →
  is_ref x = false →
  storage_full w = false →
  heap_of w !! l = Some ob →
  plain_object ob →
  JSON_stringify_fuel (size (stamped l x ob (heap_of w)))
    (stamped l x ob (heap_of w)) (VRef l) ≠ None →
  ∃ kvs,
    localStorage (exec (call_options_success co (VRef l)) w) =
      <[entity_key (co_entity_type co) n := TJson (JObj kvs)]> (localStorage w) ∧
    stored_expiration kvs = Some (stored_as x) ∧
    ∀ k h2,
      is_ref (obj_get k (o_fields (with_expiration x ob))) = false →
      obj_get k (parse_fields JSON_parse_tree kvs [] h2).1 =
        stored_as (obj_get k (o_fields (with_expiration x ob))).
Proof.
  intros Hc Hid Hx Hxr Hfull Hl [Hit Hnd] Hs.
  destruct (JSON_stringify_fuel _ _ (VRef l)) as [r|] eqn:Hr; [clear Hs|done].
  assert (Hl' : stamped l x ob (heap_of w) !! l = Some (with_expiration x ob))
    by apply lookup_insert_eq.
  destruct (stringify_plain_object _ _ _ _ Hl' Hit Hr)
    as (fuel & kvs & Hm & ->).
  assert (Hnd' : NoDup (o_fields (with_expiration x ob)).*1)
    by by apply obj_set_NoDup.
  exists (omap id kvs). split; [|split].
  - rewrite (success_wrapper_cache_write _ _ _ _ _ Hc Hid Hl).
    unfold cache_write. by rewrite Hx, Hr, Hfull.
  - rewrite (stored_expiration_round_trip _ _ _ _ Hm Hnd');
      simpl; rewrite obj_get_set_eq; done.
  - intros k h2 Hk. by apply (field_round_trip fuel _ h2 _ _ _ Hm Hnd').
Qed.

(** X11. The life of a cache entry under a TTL. When the remote handler
    answers with a plain entity object that has a JSON text, caching is
    enabled and the settings give the deadline [e] (0 for a TTL of 0, the
    clock plus the TTL otherwise), the success wrapper caches the entity
    stamped with [e]. A later cache read of the entry (no reset asked, a
    page that keeps cached entities) is a hit as long as the deadline is 0
    or the clock has not passed it: it returns a new object, which carries
    the expiration [e] and every field of the stamped entity that is not an
    object, and leaves local storage as it is. Once the clock has passed a
    deadline other than 0, the read returns false and removes the entry. *)
Theorem cached_entity_is_served_until_its_deadline
  (co : call_options) (t : string) (n e : Z) (l : nat) (ob : object)
  (o : option options) (w w2 : world) :
  truthy (co_caching_enabled co) = true →
  co_entity_type co = t →
  co_entity_id co = VNum n →
  expiration_time w = VNum e →
  storage_full w = false →
  heap_of w !! l = Some ob →
  plain_object ob →
  JSON_stringify_fuel (size (stamped l (VNum e) ob (heap_of w)))
    (stamped l (VNum e) ob (heap_of w)) (VRef l) ≠ None →
  localStorage w2 !! entity_key t n =
    localStorage (exec (call_options_success co (VRef l)) w)
      !! entity_key t n →
  reset_requested o = false →
  page_keeps_cache w2 = true →
  ((e = 0 ∨ now w2 ≤ e)%Z →
     ∃ l' ob',
       eval (_entity_local_storage_load t (VNum n) o) w2 =
         Ok (VRef l') ∧
       heap_of w2 !! l' = None ∧
       heap_of (exec (_entity_local_storage_load t (VNum n) o)
                  w2) !! l' = Some ob' ∧
       obj_get "expiration" (o_fields ob') = VNum e ∧
       (∀ k, is_ref (obj_get k (o_fields (with_expiration (VNum e) ob))) = false →
             obj_get k (o_fields ob') =
               stored_as (obj_get k (o_fields (with_expiration (VNum e) ob)))) ∧
       localStorage (exec (_entity_local_storage_load t
                             (VNum n) o) w2) = localStorage w2) ∧
  ((e ≠ 0 ∧ now w2 > e)%Z →
     eval (_entity_local_storage_load t (VNum n) o) w2 =
       Ok (VBool false) ∧
     localStorage (exec (_entity_local_storage_load t
                           (VNum n) o) w2) =
       delete (entity_key t n) (localStorage w2)).
Proof.
  intros Hc <- Hid Hx Hfull Hl Hplain Hs Hw2 Hr Hp.
  destruct (success_wrapper_entry co n l ob (VNum e) w)
    as (kvs & Hst & Hexp & Hfields); try done.
  rewrite Hst, lookup_insert_eq in Hw2. simpl in Hexp.
  split.
  - intros Hfresh.
    assert (He : expired (heap_of w2) (now w2) (VNum e) = false).
    { rewrite expired_number. destruct Hfresh as [->|Hle]; [done|].
      apply andb_false_iff. right. by apply Z.ltb_ge. }
    assert (Hentry : fresh_entry w2 (co_entity_type co) n kvs).
    { split; [done|]. by exists (VNum e). }
    unfold eval, exec.
    rewrite (_entity_local_storage_load_hit _ _ _ _ _ Hr Hentry Hp).
    destruct (parse_object_fresh kvs (heap_of w2)) as (l' & -> & Hnew).
    exists l', (Obj None (parse_fields JSON_parse_tree kvs [] (heap_of w2)).1).
    simpl. rewrite lookup_insert_eq.
    repeat split; try done.
    + rewrite Hfields by (simpl; by rewrite obj_get_set_eq).
      simpl. by rewrite obj_get_set_eq.
    + intros k Hk. by apply Hfields.
  - intros [Hne Hgt].
    unfold eval, exec.
    rewrite (_entity_local_storage_load_object _ _ _ _ _ _ Hr Hw2 Hexp).
    destruct (JSON_parse_tree (JObj kvs) (heap_of w2)) as [v h'].
    rewrite expired_number.
    replace (negb (e =? 0)%Z && (e <? now w2)%Z) with true; [done|].
    symmetry. apply andb_true_iff. split.
    + apply negb_true_iff. by apply Z.eqb_neq.
    + apply Z.ltb_lt. lia.
Qed.

(** X12. Caching enabled without a TTL. When the settings enable entity
    caching but give no expiration, the success wrapper stamps the entity
    with NaN, which is stored as null; a later cache read (no reset asked)
    at any clock above 0 takes the entry for expired: it returns false and
    removes the entry, so the cached entity is never served. *)
Theorem cache_without_ttl_is_never_served
  (co : call_options) (t : string) (n : Z) (l : nat) (ob : object)
  (o : option options) (w w2 : world) :
  truthy (co_caching_enabled co) = true →
  co_entity_type co = t →
  co_entity_id co = VNum n →
  settings_cache_entity w = Some (CacheEntity true None) →
  storage_full w = false →
  heap_of w !! l = Some ob →
  plain_object ob →
  JSON_stringify_fuel (size (stamped l VNaN ob (heap_of w)))
    (stamped l VNaN ob (heap_of w)) (VRef l) ≠ None →
  localStorage w2 !! entity_key t n =
    localStorage (exec (call_options_success co (VRef l)) w)
      !! entity_key t n →
  reset_requested o = false →
  (0 < now w2)%Z →
  (∃ kvs, localStorage w2 !! entity_key t n =
            Some (TJson (JObj kvs)) ∧
          stored_expiration kvs = Some VNull) ∧
  eval (_entity_local_storage_load t (VNum n) o) w2 =
    Ok (VBool false) ∧
  localStorage (exec (_entity_local_storage_load t
                        (VNum n) o) w2) =
    delete (entity_key t n) (localStorage w2).
Proof.
  intros Hc <- Hid Hset Hfull Hl Hplain Hs Hw2 Hr Hnow.
  assert (Hx : expiration_time w = VNaN).
  { unfold expiration_time. by rewrite Hset. }
  destruct (success_wrapper_entry co n l ob VNaN w)
    as (kvs & Hst & Hexp & _); try done.
  rewrite Hst, lookup_insert_eq in Hw2. simpl in Hexp.
  split; [by exists kvs|].
  unfold eval, exec.
  rewrite (_entity_local_storage_load_object _ _ _ _ _ _ Hr Hw2 Hexp).
  destruct (JSON_parse_tree (JObj kvs) (heap_of w2)) as [v h'].
  assert (He : expired h' (now w2) VNull = true).
  { unfold expired, js_gt. simpl. by apply Z.ltb_lt. }
  by rewrite He.
Qed.

(** ** Misses of the index cache *)

(** X13. A read of the index cache that asks for a reset, or finds nothing
    stored under the path, is a miss: it returns null, the entry of the path
    is gone, and no entity entry is read or removed. *)
Theorem index_reset_or_absent_is_a_miss (t Q : string) (o : option options)
  (w : world) :
  reset_requested o = true ∨ localStorage w !! Q = None →
  _entity_index_local_storage_load t Q o w =
    (Ok VNull, set_localStorage (delete Q) w).
Proof.
  intros Hmiss.
  unfold _entity_index_local_storage_load, _entity_index_local_storage_delete,
    entity_index_local_storage_key.
  destruct (reset_requested o) eqn:Hr.
  - destruct o as [o|]; [|discriminate]. simpl in Hr. rewrite Hr.
    js_run. by rewrite lookup_delete_eq.
  - destruct Hmiss as [?|Hs]; [done|].
    assert (Hpre : (match o with
       | Some o0 =>
           if truthy (reset o0)
           then try_catch (removeItem Q ;; ret VUndef)
                  (λ error, console_log
                     ("_entity_index_local_storage_delete - " +:+ error) ;;
                     ret VUndef) ;; ret ()
           else ret ()
       | None => ret ()
       end) w = (Ok tt, w)).
    { destruct o as [o|]; simpl in *; [rewrite Hr|]; reflexivity. }
    unfold try_catch at 1, bind at 1. rewrite Hpre.
    js_run. rewrite Hs. simpl.
    f_equal. destruct w. unfold set_localStorage. simpl in *.
    by rewrite delete_id.
Qed.

(** X14. A read of the index cache that finds an expired index (an
    expiration other than 0 that the clock has passed) returns false and
    removes the index entry; it reads no entity entry and removes none,
    even when the entities it lists are still cached. *)
Theorem expired_index_is_removed (t Q : string) (o : option options)
  (w : world) (kvs : list (string * json)) (e : value) :
  reset_requested o = false →
  localStorage w !! Q = Some (TJson (JObj kvs)) →
  stored_expiration kvs = Some e →
  expired (heap_of w) (now w) e = true →
  eval (_entity_index_local_storage_load t Q o) w = Ok (VBool false) ∧
  localStorage (exec (_entity_index_local_storage_load t Q o) w) =
    delete Q (localStorage w) ∧
  trace (exec (_entity_index_local_storage_load t Q o) w) = trace w.
Proof.
  intros Hr Hs He Hx.
  destruct (JSON_parse_tree (JObj kvs) (heap_of w)) as [v h'] eqn:Ep.
  destruct (parse_object_get _ _ _ _ Ep) as (l & fs & -> & Hl & Hfs).
  assert (Hexp : obj_get "expiration" fs = e).
  { subst fs. unfold stored_expiration in He.
    destruct (json_get "expiration" kvs) as [j|] eqn:Ej.
    - by apply parse_fields_get_prim with j.
    - rewrite parse_fields_get_none by done. by inversion He. }
  assert (Hx' : expired h' (now w) e = true).
  { rewrite <- Hx. apply expired_prim. intros l0.
    by apply stored_expiration_not_ref with kvs. }
  assert (Hrun : _entity_index_local_storage_load t Q o w =
            (Ok (VBool false),
             set_localStorage (delete Q) (set_heap (λ _, h') w))).
  { unfold _entity_index_local_storage_load,
      _entity_index_local_storage_delete, entity_index_local_storage_key.
    assert (Hpre : (match o with
       | Some o0 =>
           if truthy (reset o0)
           then try_catch (removeItem Q ;; ret VUndef)
                  (λ error, console_log
                     ("_entity_index_local_storage_delete - " +:+ error) ;;
                     ret VUndef) ;; ret ()
           else ret ()
       | None => ret ()
       end) w = (Ok tt, w)).
    { destruct o as [o|]; simpl in *; [rewrite Hr|]; reflexivity. }
    unfold try_catch at 1, bind at 1. rewrite Hpre.
    unfold JSON_parse, get_prop.
    js_run. rewrite Hs. js_run. rewrite Ep. js_run. rewrite Hl. js_run.
    by rewrite Hexp, Hx'. }
  unfold eval, exec. rewrite Hrun. done.
Qed.

#[local] Instance shrinks_preorder : PreOrder shrinks.
Proof.
  split; [intros w; unfold shrinks; reflexivity|].
  intros w1 w2 w3 H1 H2. unfold shrinks in *. by trans (localStorage w2).
Qed.
#[local] Instance shrinks_heap : HeapBlind shrinks.
Proof. by intros f w w' Hw. Qed.
#[local] Instance shrinks_console : ConsoleBlind shrinks.
Proof. by intros f w w' Hw. Qed.
#[local] Instance shrinks_trace : TraceBlind shrinks.
Proof. by intros f w w' Hw. Qed.
#[local] Instance shrinks_queue : QueueBlind shrinks.
Proof. by intros f w w' Hw. Qed.

#[local] Instance only_key_preorder k : PreOrder (only_key k).
Proof.
  split; [by intros w k'|]. intros w1 w2 w3 H1 H2 k' Hk.
  by rewrite (H2 k' Hk), (H1 k' Hk).
Qed.
#[local] Instance only_key_heap k : HeapBlind (only_key k).
Proof. by intros f w w' Hw. Qed.
#[local] Instance only_key_console k : ConsoleBlind (only_key k).
Proof. by intros f w w' Hw. Qed.
#[local] Instance only_key_trace k : TraceBlind (only_key k).
Proof. by intros f w w' Hw. Qed.
#[local] Instance only_key_queue k : QueueBlind (only_key k).
Proof. by intros f w w' Hw. Qed.

Lemma shrinks_removeItem k : keeps shrinks (removeItem k).
Proof. intros w. apply delete_subseteq. Qed.

Lemma only_key_removeItem k : keeps (only_key k) (removeItem k).
Proof. intros w k' Hk. simpl. by apply lookup_delete_ne. Qed.

Lemma only_key_setItem k t : keeps (only_key k) (setItem k t).
Proof.
  intros w k' Hk. unfold setItem. destruct (storage_full w); [done|].
  simpl. by apply lookup_insert_ne.
Qed.

Lemma shrinks_entity_local_storage_load t id o :
  keeps shrinks (_entity_local_storage_load t id o).
Proof.
  pose proof shrinks_removeItem as Hrm.
  unfold _entity_local_storage_load, _entity_local_storage_load_try,
    _entity_local_storage_delete, _entity_local_storage_delete_try,
    getItem, time, drupalgap_page_options.
  keeps_run.
Qed.

(** X15. Reading never writes. entity_load, the cache read of an entity
    and the cache read of an index leave in local storage only entries that
    were there before, with the text they had: whatever the arguments, the
    stored texts and the settings, and whether or not the operation faults,
    a read can remove entries (reset, expiry, page reload) but never adds or
    changes one. Entries are written by the success wrapper and the save
    helpers only. *)
Theorem reads_never_write :
  (∀ t ids o w,
     localStorage (exec (entity_load t ids o) w) ⊆ localStorage w) ∧
  (∀ t id o w,
     localStorage (exec (_entity_local_storage_load t id o) w) ⊆
       localStorage w) ∧
  (∀ t Q o w,
     localStorage (exec (_entity_index_local_storage_load t Q o) w) ⊆
       localStorage w).
Proof.
  pose proof shrinks_removeItem as Hrm.
  pose proof shrinks_entity_local_storage_load as Hload.
  split; [|split].
  - intros t ids o.
    change (keeps shrinks (entity_load t ids o)).
    unfold entity_load, entity_load_try, entity_load_from_cache,
      _services_queue_already_queued, _services_queue_add_to_queue,
      _services_queue_callback_add, queue_key, window_get.
    keeps_run.
  - intros t id o. apply Hload.
  - intros t Q o.
    change (keeps shrinks (_entity_index_local_storage_load t Q o)).
    unfold _entity_index_local_storage_load,
      _entity_index_local_storage_delete, getItem, time.
    keeps_run.
Qed.

Lemma only_key_entity_local_storage_save t id e :
  is_ref id = false →
  keeps (only_key (cache_key t id)) (_entity_local_storage_save t id e).
Proof.
  intros Hid w.
  unfold _entity_local_storage_save, _entity_local_storage_save_try.
  erewrite try_catch_bind_ok by apply entity_local_storage_key_run.
  rewrite (cache_key_ToString _ _ _ Hid).
  pose proof (only_key_setItem (cache_key t id)) as Hset.
  apply (keeps_try_catch (only_key (cache_key t id))); [|intros err];
    keeps_run.
Qed.

Lemma only_key_entity_local_storage_delete t id :
  is_ref id = false →
  keeps (only_key (cache_key t id)) (_entity_local_storage_delete t id).
Proof.
  intros Hid w. rewrite _entity_local_storage_delete_run.
  rewrite (cache_key_ToString _ _ _ Hid). apply only_key_removeItem.
Qed.

(** X16. A cache write touches one key. For an id that is not an object,
    saving or deleting the cache entry of an entity, and the success wrapper
    of its retrieve, leave every entry of local storage under another key
    as it was; saving or deleting the index of a path leaves every entry
    under another key than the path as it was. This holds whatever is
    written and whether or not the write faults. *)
Theorem writes_touch_one_key (t Q : string) (id e r data : value)
  (co : call_options) (w : world) (k : string) :
  is_ref id = false →
  co_entity_type co = t → co_entity_id co = id →
  (k ≠ cache_key t id →
     localStorage (exec (_entity_local_storage_save t id e) w) !! k =
       localStorage w !! k ∧
     localStorage (exec (_entity_local_storage_delete t id) w) !! k =
       localStorage w !! k ∧
     localStorage (exec (call_options_success co data) w) !! k =
       localStorage w !! k) ∧
  (k ≠ Q →
     localStorage (exec (_entity_index_local_storage_save t Q r) w) !! k =
       localStorage w !! k ∧
     localStorage (exec (_entity_index_local_storage_delete Q) w) !! k =
       localStorage w !! k).
Proof.
  intros Hid Ht Hco. split.
  - intros Hk. split; [|split].
    + by apply (only_key_entity_local_storage_save t id e Hid w).
    + by apply (only_key_entity_local_storage_delete t id Hid w).
    + pose proof (only_key_entity_local_storage_save t id data Hid) as Hsave.
      revert w k Hk.
      change (keeps (only_key (cache_key t id)) (call_options_success co data)).
      unfold call_options_success, services_queue_entry, queue_key.
      rewrite Ht, Hco. keeps_run.
  - intros Hk. split.
    + pose proof (only_key_setItem Q) as Hset.
      revert w k Hk.
      change (keeps (only_key Q) (_entity_index_local_storage_save t Q r)).
      unfold _entity_index_local_storage_save,
        entity_index_local_storage_key.
      keeps_run.
    + pose proof (only_key_removeItem Q) as Hrm.
      revert w k Hk.
      change (keeps (only_key Q) (_entity_index_local_storage_delete Q)).
      unfold _entity_index_local_storage_delete,
        entity_index_local_storage_key.
      keeps_run.
Qed.

(** ** A retrieve that fails *)

(** A batch of loads of one entity with caching off: one dispatch, every
    callback parked in the queue entry. *)
Lemma run_loads_dispatch t n ids (o : options) loads fs h w :
  t ∈ entity_types →
  window w !! (t +:+ "_retrieve") = Some (VFun h) →
  truthy (caching_flag w) = false →
  services_queue w !! retrieve_key t n = None →
  Forall2 (λ ld f, parsed_id ld.1 = VNum n ∧ success ld.2 = VFun f)
    ((ids, o) :: loads) fs →
  run_loads t ((ids, o) :: loads) w =
    set_services_queue
      (<[retrieve_key t n := QueueEntry (map VFun fs) (waiter_errors loads)]>)
      (set_trace
         (λ tr, (tr ++ [EvCall h [AVal ids;
                                  ACallOpts (load_call_options t n o w)]
                          (heap_of w)])%list) w).
Proof.
  intros Ht Hw Hc Hq Hall.
  apply Forall2_cons_inv_l in Hall as (f & fs' & [Hid Hf] & Hall & ->).
  simpl in Hid, Hf.
  simpl run_loads. unfold exec.
  rewrite (entity_load_first _ _ _ _ _ _ Hid Hc Ht Hw Hq). simpl.
  erewrite run_waiters; [|exact Hall|exact Hc|simpl; apply lookup_insert_eq].
  simpl. rewrite Hf.
  unfold set_services_queue, set_trace. simpl. by rewrite insert_insert_eq.
Qed.

(** X17. When the retrieve dispatched for a batch of loads of one entity
    (caching off) fails, the error wrapper calls the error callback of the
    load that dispatched, with what the remote handler gave it, and nothing
    else: the callbacks of the other loads, success and error alike, are
    neither called nor removed, and stay parked in the queue entry. *)
Theorem failed_retrieve_notifies_only_the_dispatcher (t : string) (n : Z)
  (ids : value) (o : options) (loads : list (value * options))
  (fs : list string) (h : string) (xhr status message : value) (w : world) :
  t ∈ entity_types →
  window w !! (t +:+ "_retrieve") = Some (VFun h) →
  truthy (caching_flag w) = false →
  services_queue w !! retrieve_key t n = None →
  Forall2 (λ ld f, parsed_id ld.1 = VNum n ∧ success ld.2 = VFun f)
    ((ids, o) :: loads) fs →
  callable_if_set (error o) →
  call_options_error (load_call_options t n o w) xhr status message
    (run_loads t ((ids, o) :: loads) w) =
    (Ok VUndef,
     set_trace
       (λ tr, (tr ++ notify (error o) [AVal xhr; AVal status; AVal message]
                       (heap_of w))%list)
       (run_loads t ((ids, o) :: loads) w)) ∧
  services_queue
    (exec (call_options_error (load_call_options t n o w) xhr status message)
       (run_loads t ((ids, o) :: loads) w)) !! retrieve_key t n =
    Some (QueueEntry (map VFun fs) (waiter_errors loads)).
Proof.
  intros Ht Hw Hc Hq Hall Herr.
  pose proof (run_loads_dispatch _ _ _ _ _ _ _ _ Ht Hw Hc Hq Hall) as Hrun.
  assert (Hheap : heap_of (run_loads t ((ids, o) :: loads) w) = heap_of w)
    by by rewrite Hrun.
  assert (Hcall :
    call_options_error (load_call_options t n o w) xhr status message
      (run_loads t ((ids, o) :: loads) w) =
      (Ok VUndef,
       set_trace
         (λ tr, (tr ++ notify (error o) [AVal xhr; AVal status; AVal message]
                         (heap_of w))%list)
         (run_loads t ((ids, o) :: loads) w))).
  { generalize dependent (run_loads t ((ids, o) :: loads) w). intros w' _ Hh.
    unfold call_options_error, load_call_options. simpl co_options.
    change (opt_field error "error" (Some o)) with (ret (error o)).
    destruct (truthy (error o)) eqn:He.
    - destruct (Herr He) as [f Hf]. rewrite Hf in *.
      unfold try_catch, call. js_run. by rewrite Hh.
    - assert (Hn : notify (error o) [AVal xhr; AVal status; AVal message]
                     (heap_of w) = []).
      { destruct (error o); try reflexivity. discriminate He. }
      rewrite Hn, set_trace_nil.
      unfold try_catch. js_run. by rewrite He. }
  split; [exact Hcall|].
  unfold exec. rewrite Hcall, Hrun. simpl.
  apply lookup_insert_eq.
Qed.

(** ** Ids given as strings *)

Lemma same_up_to_id_bind {A} a b (m : M A) (k1 k2 : A → M value) w :
  (∀ x w', same_up_to_id a b (k1 x w') (k2 x w')) →
  same_up_to_id a b (bind m k1 w) (bind m k2 w).
Proof.
  intros Hk. unfold bind. destruct (m w) as [[x|e] w']; [apply Hk|by left].
Qed.

Lemma same_up_to_id_try_catch a b (m1 m2 : M value) h w :
  same_up_to_id a b (m1 w) (m2 w) →
  same_up_to_id a b (try_catch m1 h w) (try_catch m2 h w).
Proof.
  unfold try_catch. intros [->|(f & co & w' & -> & ->)]; [by left|].
  right. by exists f, co, w'.
Qed.

(** X18. An id given as a string is the entity of the number it parses
    to: entity_load of the string and entity_load of the number use the same
    queue entry and the same cache entry and end in the same world with the
    same calls, except that the retrieve handler, when one is called,
    receives the id as it was given. *)
Theorem string_id_is_the_number (t s : string) (n : Z) (o : option options)
  (w : world) :
  parseInt s = Some n →
  same_up_to_id (VStr s) (VNum n)
    (entity_load t (VStr s) o w) (entity_load t (VNum n) o w).
Proof.
  intros Hs. unfold entity_load. apply same_up_to_id_try_catch.
  unfold entity_load_try, is_int. rewrite Hs.
  rewrite bool_decide_eq_true_2 by eauto. cbv beta iota delta [negb].
  apply same_up_to_id_bind. intros c w1.
  rewrite !(bind_ok _ _ _ _ _ (entity_id_parse_run _ w1)).
  simpl parsed_id. rewrite Hs.
  apply same_up_to_id_bind. intros queued w2.
  destruct queued; [by left|].
  apply same_up_to_id_bind. intros _ w3.
  apply same_up_to_id_bind. intros sc w4.
  apply same_up_to_id_bind. intros _ w5.
  apply same_up_to_id_bind. intros hit w6.
  destruct hit; [by left|].
  destruct (in_array t entity_types); [|by left].
  apply same_up_to_id_bind. intros pk w7.
  apply same_up_to_id_bind. intros ex w8.
  destruct ex; [|by left].
  apply same_up_to_id_bind. intros fn w9.
  destruct fn as [| | | | | | |f]; try (by left).
  right. eexists f, _, w9. split; reflexivity.
Qed.

(** ** JSON.parse and JSON.stringify are inverse on canonical JSON *)











Lemma blind_entity_local_storage_load R
  `{!PreOrder R, !HeapBlind R, !ConsoleBlind R, !StorageBlind R} t id o :
  keeps R (_entity_local_storage_load t id o).
Proof.
  unfold _entity_local_storage_load, _entity_local_storage_load_try,
    _entity_local_storage_delete, _entity_local_storage_delete_try,
    getItem, time, drupalgap_page_options.
  keeps_run.
Qed.

(** X20. The cache store is passive. Saving, deleting and reading the
    cache entry of an entity, and deleting and reading an index, never
    change the request queue and never call an external function; saving an
    index never changes the request queue. Saving and deleting an entry
    leave the heap as it was, and a cache read only allocates: every object
    of the heap is afterwards what it was before. *)
Theorem cache_store_is_passive :
  (∀ t id e w,
     services_queue (exec (_entity_local_storage_save t id e) w) =
       services_queue w ∧
     trace (exec (_entity_local_storage_save t id e) w) = trace w ∧
     heap_of (exec (_entity_local_storage_save t id e) w) = heap_of w) ∧
  (∀ t id w,
     services_queue (exec (_entity_local_storage_delete t id) w) =
       services_queue w ∧
     trace (exec (_entity_local_storage_delete t id) w) = trace w ∧
     heap_of (exec (_entity_local_storage_delete t id) w) = heap_of w) ∧
  (∀ t id o w,
     services_queue (exec (_entity_local_storage_load t id o) w) =
       services_queue w ∧
     trace (exec (_entity_local_storage_load t id o) w) = trace w ∧
     ∀ l ob, heap_of w !! l = Some ob →
             heap_of (exec (_entity_local_storage_load t id o) w) !! l =
               Some ob) ∧
  (∀ t Q o w,
     services_queue (exec (_entity_index_local_storage_load t Q o) w) =
       services_queue w ∧
     trace (exec (_entity_index_local_storage_load t Q o) w) = trace w) ∧
  (∀ Q w,
     services_queue (exec (_entity_index_local_storage_delete Q) w) =
       services_queue w ∧
     trace (exec (_entity_index_local_storage_delete Q) w) = trace w) ∧
  (∀ t Q r w,
     services_queue (exec (_entity_index_local_storage_save t Q r) w) =
       services_queue w).
Proof.
  repeat split; intros.
  - apply (keeps_try_catch same_queue); [|intros ?];
      unfold _entity_local_storage_save_try; keeps_run.
  - apply (keeps_try_catch same_trace); [|intros ?];
      unfold _entity_local_storage_save_try; keeps_run.
  - apply (keeps_try_catch same_heap); [|intros ?];
      unfold _entity_local_storage_save_try; keeps_run.
  - apply (blind_entity_local_storage_load same_queue).
  - apply (blind_entity_local_storage_load same_trace).
  - by apply extending_entity_local_storage_load.
  - pose proof (blind_entity_local_storage_load same_queue) as Hl.
    apply (keeps_try_catch same_queue); [|intros ?];
      unfold _entity_index_local_storage_delete, getItem, time; keeps_run.
  - pose proof (blind_entity_local_storage_load same_trace) as Hl.
    apply (keeps_try_catch same_trace); [|intros ?];
      unfold _entity_index_local_storage_delete, getItem, time; keeps_run.
  - apply (keeps_try_catch same_queue); [|intros ?]; keeps_run.
Qed.

(** X21. Two entities of the six entity types get the same local storage
    key from entity_local_storage_key only if they are the same entity: the
    key tells the type and the id, so the cache entries of distinct entities
    never collide. *)
Theorem entity_keys_are_distinct (t t' : string) (n n' : Z) (w w' : world) :
  t ∈ entity_types → t' ∈ entity_types →
  eval (entity_local_storage_key t (VNum n)) w =
    eval (entity_local_storage_key t' (VNum n')) w' →
  t = t' ∧ n = n'.
Proof.
  unfold entity_types, eval. rewrite !entity_local_storage_key_run.
  simpl. intros Ht Ht' [= Hk].
  repeat (apply elem_of_cons in Ht as [->|Ht]); [..|by apply elem_of_nil in Ht];
    repeat (apply elem_of_cons in Ht' as [->|Ht']);
    try (by apply elem_of_nil in Ht');
    try (split; [reflexivity|by apply entity_key_inj in Hk]);
    exfalso; cbv [String.append] in Hk; congruence.
Qed.

(** ** From the remote answer to the next load *)

(** The first load of an entity that misses the cache, for a supported type
    with a retrieve handler: one queue entry, one dispatch. *)
Lemma entity_load_dispatch t ids n (o : options) h w :
  parsed_id ids = VNum n →
  t ∈ entity_types →
  window w !! (t +:+ "_retrieve") = Some (VFun h) →
  services_queue w !! retrieve_key t n = None →
  cache_misses t n w →
  entity_load t ids (Some o) w =
    (Ok VUndef,
     set_trace (λ tr, (tr ++ [EvCall h [AVal ids;
                                ACallOpts (load_call_options t n o w)]
                               (heap_of w)])%list)
       (set_services_queue (<[retrieve_key t n := QueueEntry [success o] []]>) w)).
Proof.
  intros Hid Ht Hw Hq Hmiss.
  rewrite (entity_load_miss_unqueued _ _ _ _ _ Hid Hq Hmiss).
  unfold in_array. rewrite bool_decide_eq_true_2 by done.
  cbv beta iota delta [negb].
  unfold try_catch.
  erewrite bind_ok by (apply (entity_primary_key_fixed t Ht _ w)).
  unfold call. js_run. rewrite Hw. js_run. rewrite Hw. js_run.
  reflexivity.
Qed.

(** A load of a queued key that hits the cache. *)
Lemma entity_load_hit_queued t ids n (opts : options) f w kvs e :
  parsed_id ids = VNum n →
  caching_flag w = VBool true →
  success opts = VFun f →
  reset_requested (Some opts) = false →
  page_keeps_cache w = true →
  fresh_entry w t n kvs →
  services_queue w !! retrieve_key t n = Some e →
  entity_load t ids (Some opts) w =
    (Ok VUndef,
     set_trace (λ tr, (tr ++ [EvCall f [AVal (JSON_parse_tree (JObj kvs) (heap_of w)).1]
                               (JSON_parse_tree (JObj kvs) (heap_of w)).2])%list)
       (set_heap (λ _, (JSON_parse_tree (JObj kvs) (heap_of w)).2) w)).
Proof.
  intros Hid Hc Hf Hr Hp Hfresh Hq.
  unfold entity_load, entity_load_try.
  rewrite (parsed_id_is_int _ _ Hid). cbv beta iota delta [negb].
  unfold try_catch.
  rewrite (bind_ok _ _ _ _ _ (entity_caching_enabled_run w)), Hc.
  rewrite (bind_ok _ _ _ _ _ (entity_id_parse_run ids w)), Hid.
  rewrite (bind_ok _ _ _ _ _ (_services_queue_already_queued_run t n _ w)).
  rewrite Hq.
  rewrite bool_decide_eq_true_2 by eauto.
  rewrite (bind_ok _ _ _ _ _ (entity_load_from_cache_hit _ _ _ _ _ _ Hf Hr Hfresh Hp)).
  reflexivity.
Qed.

(** The world the success wrapper leaves, with caching enabled and a queue
    entry for the key. *)
Lemma success_wrapper_run co n l ob (fs : list string) errs w :
  truthy (co_caching_enabled co) = true →
  co_entity_id co = VNum n →
  heap_of w !! l = Some ob →
  services_queue w !! retrieve_key (co_entity_type co) n =
    Some (QueueEntry (map VFun fs) errs) →
  ∃ l1 l2,
    call_options_success co (VRef l) w =
      (Ok VUndef,
       set_services_queue
         (<[retrieve_key (co_entity_type co) n := QueueEntry [] errs]>)
         (set_trace
            (λ tr, (tr ++ fan_out fs (VRef l)
                            (stamped l (expiration_time w) ob (heap_of w)))%list)
            (set_console (λ c, (c ++ l2)%list)
               (set_localStorage
                  (cache_write (entity_key (co_entity_type co) n)
                     (stamped l (expiration_time w) ob (heap_of w))
                     (VRef l) (storage_full w))
                  (set_console (λ c, (c ++ l1)%list)
                     (set_heap (<[l := with_expiration (expiration_time w) ob]>)
                        w)))))).
Proof.
  intros Hc Hid Hl Hq.
  destruct (_entity_set_expiration_time_spec l ob w Hl) as [l1 H1].
  destruct (_entity_local_storage_save_spec (co_entity_type co) n (VRef l)
    (set_console (λ c, (c ++ l1)%list)
       (set_heap (<[l := with_expiration (expiration_time w) ob]>) w)))
    as [l2 H2].
  exists l1, l2.
  unfold call_options_success, try_catch.
  rewrite Hc, Hid. unfold when.
  rewrite (bind_assoc (_entity_set_expiration_time (VRef l))).
  rewrite (bind_ok _ _ _ _ _ H1).
  rewrite (bind_assoc (_entity_local_storage_save _ _ _)).
  rewrite (bind_ok _ _ _ _ _ H2).
  rewrite (bind_ok (ret tt) _ _ tt _ eq_refl).
  rewrite (success_fan_out _ n fs errs (VRef l)) by exact Hq.
  reflexivity.
Qed.

(** X22. From the remote answer to the next load. With entity caching
    enabled under a TTL, nothing cached and nothing queued for a supported
    entity: the first entity_load dispatches the retrieve handler of the
    type, once, with the call options; when the handler answers with a plain
    entity object, the success wrapper hands that object to the callback of
    the load; and a later entity_load of the same entity (no reset asked, a
    page that keeps cached entities), as long as the deadline is 0 or the
    clock has not passed it, calls its own callback with a new copy of the
    entity and dispatches nothing. *)
Theorem second_load_is_served_from_the_cache
  (t : string) (n e : Z) (ids ids' : value) (o o' : options)
  (f f' h : string) (l : nat) (ob : object) (w : world) (T' : Z) :
  t ∈ entity_types →
  window w !! (t +:+ "_retrieve") = Some (VFun h) →
  caching_flag w = VBool true →
  expiration_time w = VNum e →
  storage_full w = false →
  localStorage w !! entity_key t n = None →
  services_queue w !! retrieve_key t n = None →
  parsed_id ids = VNum n → success o = VFun f →
  parsed_id ids' = VNum n → success o' = VFun f' →
  reset_requested (Some o') = false →
  page_keeps_cache w = true →
  heap_of w !! l = Some ob →
  plain_object ob →
  JSON_stringify_fuel (size (stamped l (VNum e) ob (heap_of w)))
    (stamped l (VNum e) ob (heap_of w)) (VRef l) ≠ None →
  (e = 0 ∨ T' ≤ e)%Z →
  calls (trace (exec (entity_load t ids (Some o)) w)) =
    (calls (trace w) ++
     [(h, [AVal ids; ACallOpts (load_call_options t n o w)])])%list ∧
  calls (trace (exec (call_options_success (load_call_options t n o w) (VRef l))
                  (exec (entity_load t ids (Some o)) w))) =
    (calls (trace (exec (entity_load t ids (Some o)) w)) ++
     [(f, [AVal (VRef l)])])%list ∧
  ∃ l',
    heap_of w !! l' = None ∧ l' ≠ l ∧
    calls (trace (exec (entity_load t ids' (Some o'))
                    (set_now T'
                       (exec (call_options_success (load_call_options t n o w)
                                (VRef l))
                          (exec (entity_load t ids (Some o)) w))))) =
      (calls (trace (exec (call_options_success (load_call_options t n o w)
                             (VRef l))
                       (exec (entity_load t ids (Some o)) w))) ++
       [(f', [AVal (VRef l')])])%list.
Proof.
  intros Ht Hh Hc Hx Hfull Hs0 Hq Hid Hf Hid' Hf' Hr Hp Hl Hplain Hs Hfresh.
  set (co := load_call_options t n o w).
  assert (Hmiss : cache_misses t n w) by by right.
  pose proof (entity_load_dispatch _ _ _ o _ _ Hid Ht Hh Hq Hmiss) as H1.
  fold co in H1.
  set (w1 := exec (entity_load t ids (Some o)) w).
  assert (Hw1 : w1 =
    set_trace (λ tr, (tr ++ [EvCall h [AVal ids; ACallOpts co] (heap_of w)])%list)
      (set_services_queue (<[retrieve_key t n := QueueEntry [success o] []]>) w)).
  { unfold w1, exec. by rewrite H1. }
  assert (Hco : truthy (co_caching_enabled co) = true).
  { unfold co, load_call_options. simpl. by rewrite Hc. }
  assert (Hq1 : services_queue w1 !! retrieve_key (co_entity_type co) n =
                Some (QueueEntry (map VFun [f]) [])).
  { rewrite Hw1. simpl. rewrite Hf. apply lookup_insert_eq. }
  assert (Hl1 : heap_of w1 !! l = Some ob) by by rewrite Hw1.
  assert (Hx1 : expiration_time w1 = VNum e) by by rewrite Hw1.
  destruct (success_wrapper_run co n l ob [f] [] w1 Hco eq_refl Hl1 Hq1)
    as (lines1 & lines2 & H2).
  set (w2 := exec (call_options_success co (VRef l)) w1).
  destruct (success_wrapper_entry co n l ob (VNum e) w1)
    as (kvs & Hst & Hexp & _); try done.
  { by rewrite Hw1. }
  { by rewrite Hw1. }
  fold w2 in Hst. simpl in Hexp.
  assert (Hw2 : w2 = (call_options_success co (VRef l) w1).2) by done.
  rewrite H2 in Hw2. simpl in Hw2.
  split; [|split].
  - rewrite Hw1. unfold calls. simpl. by rewrite map_app.
  - rewrite Hw2. unfold calls. simpl. by rewrite map_app.
  - set (w3 := set_now T' w2).
    assert (Hentry : fresh_entry w3 t n kvs).
    { split.
      - unfold w3. simpl. rewrite Hst. apply lookup_insert_eq.
      - exists (VNum e). split; [done|].
        rewrite expired_number. unfold w3. simpl.
        destruct Hfresh as [->|Hle]; [done|].
        apply andb_false_iff. right. by apply Z.ltb_ge. }
    assert (Hp3 : page_keeps_cache w3 = true).
    { rewrite <- Hp. apply page_keeps_cache_transport.
      unfold w3. rewrite Hw2, Hw1. reflexivity. }
    assert (Hc3 : caching_flag w3 = VBool true).
    { rewrite <- Hc. unfold w3. rewrite Hw2, Hw1. reflexivity. }
    assert (Hq3 : services_queue w3 !! retrieve_key t n =
                  Some (QueueEntry [] [])).
    { unfold w3. rewrite Hw2. simpl. apply lookup_insert_eq. }
    pose proof (entity_load_hit_queued t ids' n o' f' w3 kvs _
                  Hid' Hc3 Hf' Hr Hp3 Hentry Hq3) as H3.
    destruct (parse_object_fresh kvs (heap_of w3)) as (l' & Hparse & Hnew).
    exists l'.
    assert (Hh3 : heap_of w3 = stamped l (VNum e) ob (heap_of w)).
    { unfold w3. rewrite Hw2, Hx1, Hw1. reflexivity. }
    split; [|split].
    + rewrite Hh3 in Hnew. unfold stamped in Hnew.
      destruct (decide (l' = l)) as [->|Hne].
      * by rewrite lookup_insert_eq in Hnew.
      * by rewrite lookup_insert_ne in Hnew.
    + intros ->. rewrite Hh3 in Hnew. unfold stamped in Hnew.
      by rewrite lookup_insert_eq in Hnew.
    + unfold exec at 1. rewrite H3, Hparse. unfold calls. simpl.
      by rewrite map_app.
Qed.

(** ** Missing options, malformed entries *)

(** X23. A cache entry that JSON.parse rejects, or that is the JSON text
    null, is a miss that the read does not repair: when no reset is asked,
    _entity_local_storage_load logs the fault, returns undefined and leaves
    the entry in place. *)
Theorem malformed_entry_is_a_miss (t : string) (n : Z) (o : option options)
  (w : world) (x : text) (msg : string) :
  reset_requested o = false →
  localStorage w !! entity_key t n = Some x →
  read_fault x = Some msg →
  _entity_local_storage_load t (VNum n) o w =
    (Ok VUndef,
     set_console
       (λ c, (c ++ ["_entity_local_storage_load - " +:+ msg])%list) w).
Proof.
  intros Hr Hst Hx.
  assert (Hpre : (match o with
     | Some o0 =>
         if truthy (reset o0)
         then _entity_local_storage_delete t (VNum n) ;; ret ()
         else ret ()
     | None => ret ()
     end) w = (Ok tt, w)).
  { destruct o as [o|]; simpl in *; [rewrite Hr|]; reflexivity. }
  unfold _entity_local_storage_load, _entity_local_storage_load_try.
  unfold try_catch, bind at 1. rewrite Hpre.
  unfold entity_key, entity_local_storage_key in *. js_run. rewrite Hst.
  destruct x as [j|s]; simpl in *.
  - destruct j; try discriminate Hx. injection Hx as <-. by destruct w.
  - destruct (String.eqb s ""); [discriminate|]. injection Hx as <-.
    simpl. by destruct w.
Qed.

(** X24. entity_load needs its options. Called without options (undefined)
    for an integer-like id, it faults on the first read of options.success,
    wherever that is (after the queue entry was made, or after a cache read
    for a queued key): the fault is logged and no external function is
    called, neither a callback nor a retrieve handler, whatever is cached
    or queued. *)
Theorem entity_load_without_options (t : string) (ids : value) (w : world) :
  is_int ids = true →
  ∃ w',
    entity_load t ids None w =
      (Ok VUndef,
       set_console
         (λ c, (c ++ ["entity_load - " +:+
                      "TypeError: Cannot read property 'success' of undefined"])%list)
         w') ∧
    trace w' = trace w ∧
    localStorage w' ⊆ localStorage w.
Proof.
  intros Hint. destruct (is_int_parsed ids Hint) as [n Hid].
  assert (Hbody : ∃ w',
    entity_load_try t ids None w =
      (Throw "TypeError: Cannot read property 'success' of undefined", w') ∧
    trace w' = trace w ∧ localStorage w' ⊆ localStorage w).
  { unfold entity_load_try. rewrite Hint. cbv beta iota delta [negb].
    rewrite (bind_ok _ _ _ _ _ (entity_caching_enabled_run w)).
    rewrite (bind_ok _ _ _ _ _ (entity_id_parse_run ids w)), Hid.
    rewrite (bind_ok _ _ _ _ _ (_services_queue_already_queued_run t n _ w)).
    destruct (bool_decide _).
    - unfold entity_load_from_cache.
      destruct (truthy (caching_flag w)).
      + destruct (_entity_local_storage_load_ok t (VNum n) None w)
          as (v & w1 & Hload).
        pose proof (shrinks_entity_local_storage_load t (VNum n) None w) as Hs.
        pose proof (blind_entity_local_storage_load same_trace
                      t (VNum n) None w) as Htr.
        unfold same_trace in Htr.
        unfold shrinks in Hs. rewrite Hload in Hs, Htr. simpl in Hs, Htr.
        rewrite bind_assoc, (bind_ok _ _ _ _ _ Hload).
        exists w1. by destruct (truthy v).
      + exists w. done.
    - rewrite (bind_ok _ _ _ _ _ (_services_queue_add_to_queue_run t n w)).
      eexists. split; [reflexivity|]. done. }
  destruct Hbody as (w' & Hbody & Htr & Hst).
  exists w'. unfold entity_load, try_catch. by rewrite Hbody.
Qed.

(** ** Loads of one entity while its retrieve is in flight, caching on *)





End Properties.

#[local] Existing Instance plain_builtins.

Lemma entity_load_non_int_only_logs_witness :
  is_int VNaN = false ∧
  entity_load "node" VNaN (Some (Options VUndef (VFun "on_error") VUndef))
    example_world =
    (Ok VUndef,
     set_console (λ c, (c ++ ["entity_load(node) - only single ids supported!"])%list)
       example_world).
Proof.
  split; [reflexivity|].
  apply (entity_load_non_int_only_logs "node" VNaN
           (Some (Options VUndef (VFun "on_error") VUndef)) example_world).
  reflexivity.
Defined.

Lemma expired_entry_is_deleted_and_zero_never_expires_witness :
  localStorage
    (exec (_entity_local_storage_load "node" (VNum 5) None) stale_world)
    !! "node_5" = None ∧
  ∀ t', _entity_local_storage_load "node" (VNum 5) None (set_now t' cached_world) =
        (Ok (VRef 0),
         set_heap (λ _, <[0%nat := Obj None [("nid", VNum 5); ("title", VStr "x");
                                            ("expiration", VNum 0)]]> ∅)
           (set_now t' cached_world)).
Proof.
  split.
  - apply (expired_entry_is_deleted_and_zero_never_expires
             "node" 5 None stale_world stale_node 500);
      [reflexivity | reflexivity | lia | simpl; lia].
  - intros t'.
    apply (expired_entry_is_deleted_and_zero_never_expires
             "node" 5 None cached_world cached_node 0);
      reflexivity.
Defined.

Lemma cache_hit_bypasses_remote_witness :
  entity_load "node" (VNum 5)
    (Some (Options (VFun "on_success") VUndef VUndef)) cached_world =
  (Ok VUndef,
   set_trace (λ tr, (tr ++ [EvCall "on_success"
                              [AVal (JSON_parse_tree (JObj cached_node) ∅).1]
                              (JSON_parse_tree (JObj cached_node) ∅).2])%list)
     (set_heap (λ _, (JSON_parse_tree (JObj cached_node) ∅).2)
        (set_services_queue
           (λ q, match q !! retrieve_key "node" 5 with
                 | Some _ => q
                 | None => <[retrieve_key "node" 5 :=
                              QueueEntry [VFun "on_success"] []]> q
                 end) cached_world))).
Proof.
  apply (cache_hit_bypasses_remote "node" (VNum 5) 5
           (Options (VFun "on_success") VUndef VUndef) "on_success"
           cached_world cached_node);
    try reflexivity.
  split; [reflexivity|]. exists (VNum 0). split; reflexivity.
Defined.

(** C3 as stated fails when the options ask for a reset: caching is enabled
    and the entry for node 5 is fresh, yet entity_load deletes the entry,
    dispatches to the remote retrieve handler and does not call the success
    callback. *)
Lemma cache_hit_bypass_counterexample :
  caching_flag cached_world = VBool true ∧
  fresh_entry cached_world "node" 5 cached_node ∧
  calls (trace (exec (entity_load "node" (VNum 5)
                        (Some (Options (VFun "on_success") VUndef (VBool true))))
                  cached_world)) =
    [("node_retrieve",
      [AVal (VNum 5);
       ACallOpts (CallOptions "node" (VNum 5) (VBool true)
                    (Some (Options (VFun "on_success") VUndef (VBool true)))
                    (VStr "nid"))])].
Proof.
  split; [reflexivity|]. split; [|reflexivity].
  split; [reflexivity|]. exists (VNum 0). split; reflexivity.
Qed.

Lemma entity_save_dispatch_witness :
  entity_save "node" (VStr "article") (VRef 1) None save_world =
    (Ok VUndef,
     set_trace (λ tr, (tr ++ [EvCall "node_create" [AVal (VRef 1); AOpts None]
                                (<[1%nat := Obj None [("title", VStr "x");
                                                      ("language", VStr "und")]]>
                                   (heap_of save_world))])%list)
       (set_heap (<[1%nat := Obj None [("title", VStr "x");
                                       ("language", VStr "und")]]>)
          save_world)).
Proof.
  apply (entity_save_dispatch "node" (VStr "article") 1
           (Obj None [("title", VStr "x")]) None save_world "nid" "node_create");
    [ unfold entity_types; set_solver | reflexivity | reflexivity | reflexivity ].
Defined.

(** C7 as stated fails for the supported type file: the entity has its
    primary key fid set and a file_update handler is defined, yet entity_save
    calls file_create. *)
Lemma entity_save_file_counterexample :
  in_array "file" entity_types = true ∧
  eval (entity_primary_key "file") save_world = Ok (VStr "fid") ∧
  heap_of save_world !! 0%nat =
    Some (Obj None [("fid", VNum 7); ("filename", VStr "a.png")]) ∧
  truthy (VNum 7) = true ∧
  window save_world !! "file_update" = Some (VFun "file_update") ∧
  calls (trace (exec (entity_save "file" VUndef (VRef 0) None) save_world)) =
    [("file_create", [AVal (VRef 0); AOpts None])].
Proof. repeat split; reflexivity. Qed.


Lemma success_wrapper_injects_expiration_witness :
  trace (exec (call_options_success wrapper_options (VRef 0)) wrapper_world) =
    [EvCall "first" [AVal (VRef 0)]
       (<[0%nat := Obj None [("nid", VNum 5); ("title", VStr "x");
                             ("expiration", VNum 4600)]]> ∅);
     EvCall "second" [AVal (VRef 0)]
       (<[0%nat := Obj None [("nid", VNum 5); ("title", VStr "x");
                             ("expiration", VNum 4600)]]> ∅)] ∧
  localStorage (exec (call_options_success wrapper_options (VRef 0))
                  wrapper_world) !! "node_5" =
    Some (TJson (JObj [("nid", JNum 5); ("title", JStr "x");
                       ("expiration", JNum 4600)])).
Proof.
  destruct (success_wrapper_injects_expiration wrapper_options 5 0
              (Obj None [("nid", VNum 5); ("title", VStr "x")])
              ["first"; "second"] [] wrapper_world)
    as (_ & _ & _ & Hs & Ht); try reflexivity.
  rewrite Hs, Ht. split; reflexivity.
Defined.

Lemma orphaned_entry_is_never_drained_witness :
  calls (trace (exec (entity_load "node" (VNum 5)
                        (Some (Options (VFun "on_success") VUndef VUndef)))
                  cached_world)) =
    [("on_success", [AVal (VRef 0)])] ∧
  eval (_services_queue_already_queued "node" "retrieve" (VNum 5) "success")
    (exec (entity_load "node" (VNum 5)
             (Some (Options (VFun "again") VUndef (VBool true))))
       (exec (entity_load "node" (VNum 5)
                (Some (Options (VFun "on_success") VUndef VUndef)))
          cached_world)) = Ok true.
Proof.
  destruct (orphaned_entry_is_never_drained "node" (VNum 5) 5
              (Options (VFun "on_success") VUndef VUndef) "on_success"
              cached_world cached_world cached_node)
    as (_ & _ & Hcalls & Hlater); try reflexivity.
  - split; [reflexivity|]. exists (VNum 0). split; reflexivity.
  - split; [exact Hcalls|].
    apply Hlater. apply rtc_once. apply step_load.
Defined.

Lemma index_reconstruction_witness :
  localStorage
    (exec (_entity_index_local_storage_save "node" "q" (VRef 3)) index_world)
    !! "q" = Some (TJson (index_entry "node" 4600 [10; 11; 12]%Z)) ∧
  ∃ lr a b w3,
    _entity_index_local_storage_load "node" "q" None
      (exec (_entity_local_storage_delete "node" (VNum 11))
         (exec (_entity_index_local_storage_save "node" "q" (VRef 3))
            index_world)) = (Ok (VRef lr), w3) ∧
    heap_of w3 !! lr = Some (Obj (Some [VRef a; VNull; VRef b]) []).
Proof.
  destruct (index_reconstruction "node" "q" 3 [VRef 0; VRef 1; VRef 2] []
              [10; 11; 12]%Z 4600 None index_world)
    as (Hsave & _ & Hscenario).
  - unfold entity_types. set_solver.
  - reflexivity.
  - reflexivity.
  - reflexivity.
  - intros pk [= <-].
    repeat constructor; eexists _, _; (split; [reflexivity|]);
      split; reflexivity.
  - reflexivity.
  - split; [rewrite Hsave; apply lookup_insert_eq|].
    destruct (Hscenario eq_refl
                (exec (_entity_index_local_storage_save "node" "q" (VRef 3))
                   index_world)
                (cached_entity 10) (cached_entity 12))
      as (lr & a & b & ha & hb & w3 & Hload & Hres & _).
    + rewrite Hsave. apply lookup_insert_eq.
    + discriminate.
    + reflexivity.
    + reflexivity.
    + split; [rewrite Hsave; reflexivity|].
      exists (VNum 0). split; reflexivity.
    + split; [rewrite Hsave; reflexivity|].
      exists (VNum 0). split; reflexivity.
    + exists lr, a, b, w3. split; [exact Hload|exact Hres].
Defined.

(** C8 as stated fails outside these conditions. Nodes 10, 11 and 12 are
    cached and fresh and the index of the query is saved, yet: a load whose
    options ask for a reset returns null and removes the index entry; on a
    reloading page the load returns [false, false, false] and removes the
    three entity entries; and with entity caching disabled the index is
    saved with a null expiration, and the load returns false and removes
    it. *)
Lemma index_reconstruction_counterexample :
  (fresh_entry index_world "node" 10 (cached_entity 10) ∧
   fresh_entry index_world "node" 11 (cached_entity 11) ∧
   fresh_entry index_world "node" 12 (cached_entity 12) ∧
   localStorage
     (exec (_entity_index_local_storage_save "node" "q" (VRef 3)) index_world)
     !! "q" = Some (TJson (index_entry "node" 4600 [10; 11; 12]%Z))) ∧
  (eval (_entity_index_local_storage_load "node" "q"
           (Some (Options VUndef VUndef (VBool true))))
     (exec (_entity_index_local_storage_save "node" "q" (VRef 3)) index_world) =
     Ok VNull ∧
   localStorage
     (exec (_entity_index_local_storage_load "node" "q"
              (Some (Options VUndef VUndef (VBool true))))
        (exec (_entity_index_local_storage_save "node" "q" (VRef 3))
           index_world)) !! "q" = None) ∧
  (localStorage reloading_index_world = localStorage index_world ∧
   localStorage
     (exec (_entity_index_local_storage_save "node" "q" (VRef 3))
        reloading_index_world)
     !! "q" = Some (TJson (index_entry "node" 4600 [10; 11; 12]%Z)) ∧
   ∃ lr,
     eval (_entity_index_local_storage_load "node" "q" None)
       (exec (_entity_index_local_storage_save "node" "q" (VRef 3))
          reloading_index_world) = Ok (VRef lr) ∧
     heap_of
       (exec (_entity_index_local_storage_load "node" "q" None)
          (exec (_entity_index_local_storage_save "node" "q" (VRef 3))
             reloading_index_world)) !! lr =
       Some (Obj (Some [VBool false; VBool false; VBool false]) []) ∧
     localStorage
       (exec (_entity_index_local_storage_load "node" "q" None)
          (exec (_entity_index_local_storage_save "node" "q" (VRef 3))
             reloading_index_world)) =
       <["q" := TJson (index_entry "node" 4600 [10; 11; 12]%Z)]> ∅) ∧
  (localStorage uncached_index_world = localStorage index_world ∧
   localStorage
     (exec (_entity_index_local_storage_save "node" "q" (VRef 3))
        uncached_index_world)
     !! "q" = Some (TJson (JObj [("entity_type", JStr "node");
                                 ("expiration", JNull);
                                 ("entity_ids", JArr [JNum 10; JNum 11; JNum 12])])) ∧
   eval (_entity_index_local_storage_load "node" "q" None)
     (exec (_entity_index_local_storage_save "node" "q" (VRef 3))
        uncached_index_world) = Ok (VBool false) ∧
   localStorage
     (exec (_entity_index_local_storage_load "node" "q" None)
        (exec (_entity_index_local_storage_save "node" "q" (VRef 3))
           uncached_index_world)) !! "q" = None).
Proof.
  split; [|split; [|split]].
  - repeat split; try (vm_compute; reflexivity);
      exists (VNum 0); split; reflexivity.
  - split; vm_compute; reflexivity.
  - split; [reflexivity|]. split; [vm_compute; reflexivity|].
    exists 8%nat. repeat split; vm_compute; reflexivity.
  - repeat split; vm_compute; reflexivity.
Qed.

(** ** Faults the boundaries catch *)

(** A write refused by local storage throws inside the try block of
    _entity_local_storage_save; the operation logs it and returns. *)
Example storage_full_is_caught :
  _entity_local_storage_save_try "node" (VNum 5) (VNum 7) full_world =
    (Throw "QuotaExceededError", full_world) ∧
  _entity_local_storage_save "node" (VNum 5) (VNum 7) full_world =
    (Ok VUndef,
     set_console
       (λ c, (c ++ ["_entity_local_storage_save - QuotaExceededError"])%list)
       full_world).
Proof. split; reflexivity. Qed.

(** A stored entry that is not JSON throws inside the try block of
    _entity_local_storage_load; the operation logs it and returns. *)
Example malformed_entry_is_caught :
  _entity_local_storage_load_try "node" (VNum 5) None malformed_world =
    (Throw "SyntaxError: Unexpected token in JSON", malformed_world) ∧
  _entity_local_storage_load "node" (VNum 5) None malformed_world =
    (Ok VUndef,
     set_console
       (λ c, (c ++ ["_entity_local_storage_load - " +:+
                    "SyntaxError: Unexpected token in JSON"])%list)
       malformed_world).
Proof. split; reflexivity. Qed.

(** Without options, reading options.success throws inside the try block
    of entity_load, after the queue entry was created; the operation logs
    it and returns. *)
Example missing_options_is_caught :
  (entity_load_try "node" (VNum 5) None example_world).1 =
    Throw "TypeError: Cannot read property 'success' of undefined" ∧
  entity_load "node" (VNum 5) None example_world =
    (Ok VUndef,
     set_console
       (λ c, (c ++ ["entity_load - " +:+
                    "TypeError: Cannot read property 'success' of undefined"])%list)
       (entity_load_try "node" (VNum 5) None example_world).2) ∧
  services_queue (entity_load_try "node" (VNum 5) None example_world).2
    !! retrieve_key "node" 5 = Some (QueueEntry [] []).
Proof. split; [|split]; vm_compute; reflexivity. Qed.

(** ** Examples for the further properties *)

Lemma without_caching_storage_is_untouched_witness :
  localStorage (exec (entity_load "node" (VNum 5)
                        (Some (Options (VFun "done") VUndef VUndef)))
                  uncached_world) = ∅ ∧
  localStorage (exec (call_options_success
                        (CallOptions "node" (VNum 5) (VBool false) None
                           (VStr "nid")) (VRef 0))
                  uncached_world) = ∅ ∧
  heap_of (exec (call_options_success
                   (CallOptions "node" (VNum 5) (VBool false) None
                      (VStr "nid")) (VRef 0))
             uncached_world) = ∅.
Proof.
  apply (without_caching_storage_is_untouched "node" (VNum 5) (VRef 0)
           (Some (Options (VFun "done") VUndef VUndef))
           (CallOptions "node" (VNum 5) (VBool false) None (VStr "nid"))
           uncached_world); reflexivity.
Defined.

Lemma cache_read_removes_at_most_its_key_witness :
  localStorage (exec (_entity_local_storage_load "node" (VNum 5) None)
                  stale_world) = localStorage stale_world ∨
  localStorage (exec (_entity_local_storage_load "node" (VNum 5) None)
                  stale_world) = delete "node_5" (localStorage stale_world).
Proof.
  apply (cache_read_removes_at_most_its_key "node" (VNum 5) None stale_world).
  reflexivity.
Defined.

Lemma entity_load_unsupported_type_witness :
  calls (trace (exec (entity_load "commerce_product" (VNum 5)
                        (Some (Options (VFun "done") (VFun "failed") VUndef)))
                  uncached_world)) =
    [("failed",
      [AVal VNull; AVal VNull;
       AVal (VStr "WARNING: entity_load - unsupported type: commerce_product")])].
Proof.
  unfold exec.
  rewrite (entity_load_unsupported_type "commerce_product" (VNum 5) 5
             (Options (VFun "done") (VFun "failed") VUndef) uncached_world).
  - reflexivity.
  - reflexivity.
  - apply (bool_decide_unpack _). vm_compute. exact I.
  - reflexivity.
  - left. reflexivity.
  - intros _. by exists "failed".
Defined.

Lemma entity_load_missing_handler_witness :
  entity_load "user" (VNum 5)
    (Some (Options (VFun "done") (VFun "failed") VUndef)) uncached_world =
    (Ok VUndef,
     set_console (λ c, (c ++ ["WARNING: user_retrieve() does not exist!"])%list)
       (set_services_queue
          (<[retrieve_key "user" 5 := QueueEntry [VFun "done"] []]>)
          uncached_world)).
Proof.
  apply (entity_load_missing_handler "user" (VNum 5) 5
           (Options (VFun "done") (VFun "failed") VUndef) uncached_world).
  - reflexivity.
  - unfold entity_types. set_solver.
  - reflexivity.
  - left. reflexivity.
  - intros f. vm_compute. discriminate.
Defined.

Lemma entity_primary_key_hook_witness :
  entity_primary_key "commerce_product" hook_world =
    (Ok (VStr "product_id"),
     set_trace (λ tr, (tr ++ [EvCall "commerce_product_primary_key"
                                [AVal (VStr "commerce_product")] ∅])%list)
       hook_world).
Proof.
  rewrite (entity_primary_key_hook "commerce_product" hook_world).
  - reflexivity.
  - apply (bool_decide_unpack _). vm_compute. exact I.
Defined.

Lemma entity_save_unsupported_type_witness :
  entity_save "commerce_product" (VStr "shirt") VUndef None example_world =
    (Ok VUndef,
     set_console
       (λ c, (c ++ ["WARNING: entity_save - unsupported type: commerce_product"])%list)
       example_world).
Proof.
  apply (entity_save_unsupported_type "commerce_product" (VStr "shirt") VUndef
           None example_world).
  apply (bool_decide_unpack _). vm_compute. exact I.
Defined.

Lemma entity_save_missing_handler_witness :
  entity_save "node" (VStr "article") (VRef 0) None offline_world =
    (Ok VUndef,
     set_console
       (λ c, (c ++ ["WARNING: entity_save - unsupported type: node"])%list)
       (set_heap (<[0%nat := Obj None [("title", VStr "x");
                                       ("language", VStr "und")]]>)
          offline_world)).
Proof.
  apply (entity_save_missing_handler "node" (VStr "article") 0
           (Obj None [("title", VStr "x")]) None offline_world "nid").
  - unfold entity_types. set_solver.
  - reflexivity.
  - reflexivity.
  - intros f. vm_compute. discriminate.
Defined.

Lemma entity_save_without_entity_witness :
  entity_save "user" VUndef VNull None example_world =
    (Ok VUndef,
     set_console
       (λ c, (c ++ ["entity_save - TypeError: Cannot read property 'uid' of null"])%list)
       example_world).
Proof.
  apply (entity_save_without_entity "user" VUndef VNull None example_world "uid").
  - unfold entity_types. set_solver.
  - discriminate.
  - by right.
  - reflexivity.
Defined.

Lemma cached_entity_is_served_until_its_deadline_witness :
  (∃ l' ob',
     eval (_entity_local_storage_load "node" (VNum 5) None)
       (set_now 4600 (exec (call_options_success wrapper_options (VRef 0))
                        wrapper_world)) = Ok (VRef l') ∧
     heap_of (exec (_entity_local_storage_load "node" (VNum 5) None)
                (set_now 4600 (exec (call_options_success wrapper_options (VRef 0))
                                 wrapper_world))) !! l' = Some ob' ∧
     obj_get "expiration" (o_fields ob') = VNum 4600 ∧
     obj_get "title" (o_fields ob') = VStr "x") ∧
  eval (_entity_local_storage_load "node" (VNum 5) None)
    (set_now 4601 (exec (call_options_success wrapper_options (VRef 0))
                     wrapper_world)) = Ok (VBool false).
Proof.
  split.
  - destruct (cached_entity_is_served_until_its_deadline wrapper_options
                "node" 5 4600 0
                (Obj None [("nid", VNum 5); ("title", VStr "x")]) None
                wrapper_world
                (set_now 4600 (exec (call_options_success wrapper_options (VRef 0))
                                 wrapper_world)))
      as [Hhit _];
      [reflexivity | reflexivity | reflexivity | reflexivity | reflexivity
      | reflexivity
      | split; [reflexivity|apply (bool_decide_unpack _); vm_compute; exact I]
      | vm_compute; discriminate
      | vm_compute; reflexivity | reflexivity | reflexivity |].
    destruct Hhit as (l' & ob' & Hev & _ & Hob & Hexp & Hfs & _).
    { right. simpl. lia. }
    exists l', ob'. repeat split; try done.
    apply (Hfs "title"). reflexivity.
  - destruct (cached_entity_is_served_until_its_deadline wrapper_options
                "node" 5 4600 0
                (Obj None [("nid", VNum 5); ("title", VStr "x")]) None
                wrapper_world
                (set_now 4601 (exec (call_options_success wrapper_options (VRef 0))
                                 wrapper_world)))
      as [_ Hstale];
      [reflexivity | reflexivity | reflexivity | reflexivity | reflexivity
      | reflexivity
      | split; [reflexivity|apply (bool_decide_unpack _); vm_compute; exact I]
      | vm_compute; discriminate
      | vm_compute; reflexivity | reflexivity | reflexivity |].
    apply Hstale. simpl. lia.
Defined.

Lemma cache_without_ttl_is_never_served_witness :
  localStorage (exec (call_options_success wrapper_options (VRef 0))
                  no_ttl_world) !! "node_5" =
    Some (TJson (JObj [("nid", JNum 5); ("title", JStr "x");
                       ("expiration", JNull)])) ∧
  eval (_entity_local_storage_load "node" (VNum 5) None)
    (exec (call_options_success wrapper_options (VRef 0)) no_ttl_world) =
    Ok (VBool false).
Proof.
  destruct (cache_without_ttl_is_never_served wrapper_options "node" 5 0
              (Obj None [("nid", VNum 5); ("title", VStr "x")]) None
              no_ttl_world
              (exec (call_options_success wrapper_options (VRef 0)) no_ttl_world))
    as (_ & Hev & _);
    [reflexivity | reflexivity | reflexivity | reflexivity | reflexivity
    | reflexivity
    | split; [reflexivity|apply (bool_decide_unpack _); vm_compute; exact I]
    | vm_compute; discriminate
    | reflexivity | reflexivity | reflexivity |].
  split; [vm_compute; reflexivity|exact Hev].
Defined.

Lemma index_reset_or_absent_is_a_miss_witness :
  _entity_index_local_storage_load "node" "q"
    (Some (Options VUndef VUndef (VBool true))) indexed_world =
    (Ok VNull, set_localStorage (delete "q") indexed_world) ∧
  localStorage indexed_world !! "q" =
    Some (TJson (index_entry "node" 4600 [10; 11; 12]%Z)).
Proof.
  split; [|reflexivity].
  apply (index_reset_or_absent_is_a_miss "node" "q"
           (Some (Options VUndef VUndef (VBool true))) indexed_world).
  left. reflexivity.
Defined.

Lemma expired_index_is_removed_witness :
  eval (_entity_index_local_storage_load "node" "q" None)
    (set_now 4601 indexed_world) = Ok (VBool false) ∧
  localStorage (exec (_entity_index_local_storage_load "node" "q" None)
                  (set_now 4601 indexed_world)) =
    delete "q" (localStorage indexed_world) ∧
  localStorage (exec (_entity_index_local_storage_load "node" "q" None)
                  (set_now 4601 indexed_world)) !! "node_11" =
    Some (TJson (JObj (cached_entity 11))).
Proof.
  destruct (expired_index_is_removed "node" "q" None
              (set_now 4601 indexed_world)
              [("entity_type", JStr "node"); ("expiration", JNum 4600);
               ("entity_ids", JArr [JNum 10; JNum 11; JNum 12])]
              (VNum 4600))
    as (Hev & Hst & _);
    [reflexivity | reflexivity | reflexivity | reflexivity |].
  split; [exact Hev|]. split; [exact Hst|].
  rewrite Hst. reflexivity.
Defined.

Lemma reads_never_write_witness :
  localStorage (exec (_entity_index_local_storage_load "node" "q" None)
                  (set_now 4601 indexed_world)) ⊆
    localStorage (set_now 4601 indexed_world).
Proof.
  destruct reads_never_write as (_ & _ & Hindex). apply Hindex.
Defined.

Lemma writes_touch_one_key_witness :
  localStorage (exec (call_options_success wrapper_options (VRef 0))
                  cached_world) !! "node_7" =
    localStorage cached_world !! "node_7".
Proof.
  destruct (writes_touch_one_key "node" "q" (VNum 5) VUndef VUndef (VRef 0)
              wrapper_options cached_world "node_7")
    as [Hentity _]; [reflexivity | reflexivity | reflexivity |].
  apply Hentity. discriminate.
Defined.

Lemma failed_retrieve_notifies_only_the_dispatcher_witness :
  calls (trace (exec (call_options_error
                        (load_call_options "node" 5
                           (Options (VFun "first") VUndef VUndef) uncached_world)
                        VNull VNull (VStr "404"))
                  (run_loads "node" three_loads uncached_world))) =
    calls (trace (run_loads "node" three_loads uncached_world)) ∧
  services_queue
    (exec (call_options_error
             (load_call_options "node" 5
                (Options (VFun "first") VUndef VUndef) uncached_world)
             VNull VNull (VStr "404"))
       (run_loads "node" three_loads uncached_world))
    !! retrieve_key "node" 5 =
    Some (QueueEntry [VFun "first"; VFun "second"; VFun "third"]
            [VFun "second_failed"]).
Proof.
  destruct (failed_retrieve_notifies_only_the_dispatcher "node" 5 (VNum 5)
              (Options (VFun "first") VUndef VUndef)
              [(VNum 5, Options (VFun "second") (VFun "second_failed") VUndef);
               (VNum 5, Options (VFun "third") VUndef VUndef)]
              ["first"; "second"; "third"] "node_retrieve"
              VNull VNull (VStr "404") uncached_world)
    as [Hcall Hqueue];
    [unfold entity_types; set_solver | reflexivity | reflexivity | reflexivity
    | repeat constructor | intros Hset; discriminate Hset |].
  split; [|exact Hqueue].
  unfold exec, three_loads. rewrite Hcall. vm_compute. reflexivity.
Defined.

Lemma string_id_is_the_number_witness :
  same_up_to_id (VStr "5") (VNum 5)
    (entity_load (H := decimal_builtins) "node" (VStr "5")
       (Some (Options (VFun "done") VUndef VUndef)) uncached_world)
    (entity_load (H := decimal_builtins) "node" (VNum 5)
       (Some (Options (VFun "done") VUndef VUndef)) uncached_world) ∧
  calls (trace (exec (entity_load (H := decimal_builtins) "node" (VStr "5")
                        (Some (Options (VFun "done") VUndef VUndef)))
                  uncached_world)) =
    [("node_retrieve",
      [AVal (VStr "5");
       ACallOpts (CallOptions "node" (VNum 5) (VBool false)
                    (Some (Options (VFun "done") VUndef VUndef))
                    (VStr "nid"))])].
Proof.
  split; [|reflexivity].
  apply (string_id_is_the_number (H := decimal_builtins) "node" "5" 5
           (Some (Options (VFun "done") VUndef VUndef)) uncached_world).
  reflexivity.
Defined.


Lemma entity_keys_are_distinct_witness :
  "taxonomy_term" = "taxonomy_term" ∧ 7%Z = 7%Z.
Proof.
  apply (entity_keys_are_distinct "taxonomy_term" "taxonomy_term" 7 7
           example_world cached_world).
  - unfold entity_types. set_solver.
  - unfold entity_types. set_solver.
  - reflexivity.
Defined.

Lemma second_load_is_served_from_the_cache_witness :
  ∃ l',
    l' ≠ 0%nat ∧
    calls (trace (exec (entity_load "node" (VNum 5)
                          (Some (Options (VFun "again") VUndef VUndef)))
                    (set_now 2000
                       (exec (call_options_success
                                (load_call_options "node" 5
                                   (Options (VFun "done") VUndef VUndef)
                                   unloaded_world) (VRef 0))
                          (exec (entity_load "node" (VNum 5)
                                   (Some (Options (VFun "done") VUndef VUndef)))
                             unloaded_world))))) =
      [("node_retrieve",
        [AVal (VNum 5);
         ACallOpts (load_call_options "node" 5
                      (Options (VFun "done") VUndef VUndef) unloaded_world)]);
       ("done", [AVal (VRef 0)]);
       ("again", [AVal (VRef l')])].
Proof.
  destruct (second_load_is_served_from_the_cache "node" 5 4600
              (VNum 5) (VNum 5)
              (Options (VFun "done") VUndef VUndef)
              (Options (VFun "again") VUndef VUndef)
              "done" "again" "node_retrieve" 0
              (Obj None [("nid", VNum 5); ("title", VStr "x")])
              unloaded_world 2000)
    as (H1 & H2 & l' & _ & Hne & H3);
    [unfold entity_types; set_solver | reflexivity | reflexivity | reflexivity
    | reflexivity | reflexivity | reflexivity | reflexivity | reflexivity
    | reflexivity | reflexivity | reflexivity | reflexivity | reflexivity
    | split; [reflexivity|apply (bool_decide_unpack _); vm_compute; exact I]
    | vm_compute; discriminate
    | right; lia |].
  exists l'. split; [exact Hne|].
  rewrite H3, H2, H1. reflexivity.
Defined.

Lemma malformed_entry_is_a_miss_witness :
  _entity_local_storage_load "node" (VNum 5) None malformed_world =
    (Ok VUndef,
     set_console
       (λ c, (c ++ ["_entity_local_storage_load - SyntaxError: Unexpected token in JSON"])%list)
       malformed_world).
Proof.
  apply (malformed_entry_is_a_miss "node" 5 None malformed_world
           (TRaw "{nid:") "SyntaxError: Unexpected token in JSON");
    reflexivity.
Defined.

Lemma entity_load_without_options_witness :
  ∃ w',
    entity_load "node" (VNum 5) None cached_world =
      (Ok VUndef,
       set_console
         (λ c, (c ++ ["entity_load - TypeError: Cannot read property 'success' of undefined"])%list)
         w') ∧
    trace w' = [] ∧
    localStorage w' ⊆ localStorage cached_world.
Proof.
  apply (entity_load_without_options "node" (VNum 5) cached_world).
  reflexivity.
Defined.


